(** * KaibanJS workflow core: team store and execution strategies

    A shallow embedding of
      - src/stores/teamStore.js (the team store actions),
      - managers/executionStrategies/sequentialExecutionStrategy.js,
      - managers/executionStrategies/hierarchyExecutionStrategy.js
        and the base class workflowExecutionStrategy.js,
      - workflowExecution/executionStrategies/workflowExecutionStrategy.js
        (the state-threaded base class),
      - the tools jinaUrlToMarkdown and websiteSearch,
    followed by the properties of these functions.

    Conventions.
      - The store state is a record; an action of the store is a function
        from states to states (zustand's [set] commits one new state per
        call, [get] reads the current one).
      - JavaScript values whose shape the code does not fix (task results,
        inputs, the objects walked by [getCleanedState]) are [JsValue]s.
      - [Date.now()] is an input: every reading of the clock is an explicit
        argument, in call order.
      - Objects are held by value. Where the code changes an object that
        is reachable from two places, the sharing is part of the model: a
        task object of the hierarchical strategy is a position in a heap
        of objects, and an agent carries the name of its object, so that
        an agent reset in place is reset wherever it is held.
      - Calls into code outside these files (the agent's own loop, helpers
        of utils/) are either arguments of the model or recorded as the
        call that is made. *)

From Stdlib Require Import ZArith String Ascii List Lia Bool.
From Stdlib Require Import Sorting.Sorted Sorting.Permutation.
From Stdlib Require QArith.
From Stdlib Require Import Floats.SpecFloat.
From stdpp Require Import base decidable option list strings.

Local Open Scope string_scope.
Local Open Scope list_scope.
Local Open Scope Z_scope.

(** ** Status lexicons (utils/enums) *)

(** Modelled from the spec: utils/enums is not among the source files; the
    members are the stable external strings of the status lexicons. *)
Module TASK_STATUS_enum.
Inductive t :=
| TODO | DOING | BLOCKED | REVISE | DONE
| AWAITING_VALIDATION | VALIDATED | ABORTED | PAUSED | RESUMED.

#[global] Instance eq_dec : EqDecision t.
Proof. solve_decision. Defined.
End TASK_STATUS_enum.

Module WORKFLOW_STATUS_enum.
Inductive t :=
| INITIAL | RUNNING | PAUSED | STOPPING | STOPPED
| ERRORED | BLOCKED | FINISHED.

#[global] Instance eq_dec : EqDecision t.
Proof. solve_decision. Defined.
End WORKFLOW_STATUS_enum.

Module FEEDBACK_STATUS_enum.
Inductive t := PENDING | PROCESSED.

#[global] Instance eq_dec : EqDecision t.
Proof. solve_decision. Defined.
End FEEDBACK_STATUS_enum.

Module AGENT_STATUS_enum.
Inductive t :=
| INITIAL | THINKING | THINKING_END | THINKING_ERROR | THOUGHT
| EXECUTING_ACTION | USING_TOOL | USING_TOOL_END | USING_TOOL_ERROR
| OBSERVATION | FINAL_ANSWER | SELF_QUESTION | ITERATION_START
| ITERATION_END | MAX_ITERATIONS_ERROR | TASK_ABORTED | PAUSED | RESUMED
| ISSUES_PARSING_LLM_OUTPUT.

#[global] Instance eq_dec : EqDecision t.
Proof. solve_decision. Defined.
End AGENT_STATUS_enum.

(** ** JavaScript values *)

(** A Number is an IEEE 754 binary64 value, in the form that the
    standard library gives it: [S754_finite s m e] is [(-1)^s * m * 2^e].
    An object is the list of its own enumerable properties in property
    order. *)
#[warnings="-register-all"]
Inductive JsValue :=
| JsUndefined
| JsNull
| JsBool (b : bool)
| JsNum (x : spec_float)
| JsStr (s : string)
| JsArr (elems : list JsValue)
| JsObj (props : list (string * JsValue)).

Module Js.

(** [typeof v === 'object'] *)
Definition typeof_object (v : JsValue) : bool :=
  match v with
  | JsNull | JsArr _ | JsObj _ => true
  | _ => false
  end.

(** The binary64 value that [x] stands for: [x] itself when it is one,
    and its rounding (to nearest, ties to even) when its mantissa or its
    exponent is out of range. *)
Definition binary64 (x : spec_float) : spec_float :=
  match x with
  | S754_finite s m e =>
      binary_normalize 53 1024 (if s then Zneg m else Zpos m) e s
  | _ => x
  end.

(** ToBoolean, as used by [v ? a : b], [v || d] and [if (v)]: zero and
    NaN are the Numbers that do not hold. *)
Definition truthy (v : JsValue) : bool :=
  match v with
  | JsUndefined | JsNull => false
  | JsBool b => b
  | JsNum x =>
      match binary64 x with
      | S754_zero _ | S754_nan => false
      | _ => true
      end
  | JsStr s => negb (String.eqb s "")
  | JsArr _ | JsObj _ => true
  end.

(** [v] is [null] or [undefined]: reading a property of it, or
    destructuring it, throws a TypeError. *)
Definition nullish (v : JsValue) : bool :=
  match v with
  | JsUndefined | JsNull => true
  | _ => false
  end.

(** Decimal digits of a natural number, most significant first. *)
Fixpoint digits_fuel (fuel : nat) (n : N) (acc : string) : string :=
  match fuel with
  | O => acc
  | S fuel' =>
      let d := ascii_of_N (48 + N.modulo n 10) in
      let acc' := String d acc in
      if N.ltb n 10 then acc' else digits_fuel fuel' (N.div n 10) acc'
  end.

Definition string_of_N (n : N) : string :=
  digits_fuel (S (N.to_nat (N.log2 n))) n "".

(** The decimal digits of an integer, with its sign: Number::toString for
    an integral Number below [10^21] in absolute value. *)
Definition string_of_Z (z : Z) : string :=
  match z with
  | Z0 => "0"
  | Zpos p => string_of_N (Npos p)
  | Zneg p => "-" +:+ string_of_N (Npos p)
  end.

(** *** Numbers *)

(** The Number that the integer literal [n] denotes: [n] rounded to the
    nearest binary64 value, ties to even. *)
Definition number (n : Z) : spec_float := binary_normalize 53 1024 n 0 false.

(** The Number [m * 2^e], for the Numbers that are not integers. *)
Definition dyadic (m e : Z) : spec_float := binary_normalize 53 1024 m e false.

(** The number of decimal digits of a positive integer. *)
Definition decimal_length (n : Z) : Z :=
  Z.of_nat (String.length (string_of_N (Z.to_N n))).

Fixpoint zeros (n : nat) : string :=
  match n with
  | O => ""
  | S n' => String "0" (zeros n')
  end.

(** The decimal exponent [n] of the positive rational [x / d]:
    [10^(n-1) <= x / d < 10^n]. *)
Definition decimal_exponent (x d : Z) : Z :=
  if d <=? x then decimal_length (x / d)
  else
    let z := decimal_length (d / x) in
    if x * 10 ^ (z - 1) =? d then 2 - z else 1 - z.

(** The finite positive Number [m * 2^e] in its binary64 form, and the
    interval of the reals that round to it, as fractions with the
    denominator [den]: the Number is [num / den], the interval goes from
    [low / den] to [high / den], and its ends belong to it when [m] is
    even (ties go to the even mantissa). The Number below a power of two
    is half as far as the one above, except where the subnormals begin. *)
Record rounding := mkRounding {
  num : Z;
  low : Z;
  high : Z;
  den : Z;
  closed : bool;
}.

Definition rounding_of (m e : Z) : rounding :=
  let scale := if 2 <=? e then 2 ^ (e - 2) else 1 in
  mkRounding
    (4 * m * scale)
    ((if (m =? 2 ^ 52) && (-1074 <? e) then 4 * m - 1 else 4 * m - 2) * scale)
    ((4 * m + 2) * scale)
    (if 2 <=? e then 1 else 2 ^ (2 - e))
    (Z.even m).

(** Whether the decimal [s * 10^(n-k)] rounds to the Number. *)
Definition rounds_here (r : rounding) (n k s : Z) : bool :=
  let a := if n <=? k then 10 ^ (k - n) else 1 in
  let b := if n <=? k then 1 else 10 ^ (n - k) in
  let c := s * b * den r in
  if closed r
  then (low r * a <=? c) && (c <=? high r * a)
  else (low r * a <? c) && (c <? high r * a).

(** The decimal with [k] digits and the exponent [n] that rounds to the
    Number, if there is one: the closer one of the two next to the
    Number, the even one when they are equally close. *)
Definition candidate (r : rounding) (n k : Z) : option Z :=
  let a := if n <=? k then 10 ^ (k - n) else 1 in
  let b := if n <=? k then 1 else 10 ^ (n - k) in
  let v := num r * a in
  let s_lo := v / (den r * b) in
  let s_hi := s_lo + 1 in
  let d_lo := v - s_lo * b * den r in
  let d_hi := s_hi * b * den r - v in
  match rounds_here r n k s_lo, rounds_here r n k s_hi with
  | true, true =>
      if d_lo <? d_hi then Some s_lo
      else if d_hi <? d_lo then Some s_hi
      else if Z.even s_lo then Some s_lo else Some s_hi
  | true, false => Some s_lo
  | false, true => Some s_hi
  | false, false => None
  end.

(** The shortest candidate, trying [k] digits and then more; seventeen
    digits identify every binary64 value. *)
Fixpoint shortest_from (fuel : nat) (r : rounding) (n k : Z) : Z * Z :=
  match fuel with
  | O =>
      let a := if n <=? k then 10 ^ (k - n) else 1 in
      let b := if n <=? k then 1 else 10 ^ (n - k) in
      (num r * a / (den r * b), k)
  | S fuel' =>
      match candidate r n k with
      | Some s => (s, k)
      | None => shortest_from fuel' r n (k + 1)
      end
  end.

(** Step 5 of Number::toString for the finite positive Number [m * 2^e]:
    the digits [s] and the exponent [n] of the shortest decimal
    [s * 10^(n-k)] that rounds to the Number. A candidate [10^k] is the
    digit 1 with the next exponent. *)
Definition shortest (m e : Z) : Z * Z :=
  let r := rounding_of m e in
  let n := decimal_exponent (num r) (den r) in
  let '(s, k) := shortest_from 17 r n 1 in
  if s =? 10 ^ k then (1, n + 1) else (s, n).

(** Steps 6 to 10 of Number::toString: the digits [s] with the decimal
    point after the first [n] of them. *)
Definition place_point (s n : Z) : string :=
  let digits := string_of_Z s in
  let k := Z.of_nat (String.length digits) in
  if (-5 <=? n) && (n <=? 21) then
    if k <=? n then digits +:+ zeros (Z.to_nat (n - k))
    else if 0 <? n then
      String.substring 0 (Z.to_nat n) digits +:+ "."
        +:+ String.substring (Z.to_nat n) (Z.to_nat (k - n)) digits
    else "0." +:+ zeros (Z.to_nat (- n)) +:+ digits
  else
    let exponent :=
      (if 0 <? n - 1 then "+" else "-") +:+ string_of_Z (Z.abs (n - 1)) in
    if k =? 1 then digits +:+ "e" +:+ exponent
    else String.substring 0 1 digits +:+ "."
           +:+ String.substring 1 (Z.to_nat (k - 1)) digits
           +:+ "e" +:+ exponent.

(** Number::toString(x), radix 10. *)
Definition number_to_string (x : spec_float) : string :=
  match binary64 x with
  | S754_nan => "NaN"
  | S754_zero _ => "0"
  | S754_infinity s => if s then "-Infinity" else "Infinity"
  | S754_finite s m e =>
      let '(digits, n) := shortest (Zpos m) e in
      (if s then "-" else "") +:+ place_point digits n
  end.

Definition dquote : ascii := "034"%char.
Definition backslash : ascii := "092"%char.

(** The line feed that [\n] denotes in a JavaScript string. *)
Definition nl : string := String "010"%char "".

Definition hex_digit (n : N) : ascii :=
  if N.ltb n 10 then ascii_of_N (48 + n) else ascii_of_N (87 + n).

(** QuoteJSONString on one code unit below 0x80; bytes of a multi-byte
    UTF-8 sequence pass through. *)
Definition quote_char (c : ascii) : string :=
  let n := N_of_ascii c in
  if N.eqb n 34 then String backslash (String dquote "")
  else if N.eqb n 92 then "\\"
  else if N.eqb n 8 then "\b"
  else if N.eqb n 12 then "\f"
  else if N.eqb n 10 then "\n"
  else if N.eqb n 13 then "\r"
  else if N.eqb n 9 then "\t"
  else if N.ltb n 32 then
    "\u00" +:+ String (hex_digit (N.div n 16)) (String (hex_digit (N.modulo n 16)) "")
  else String c "".

Fixpoint quote_body (s : string) : string :=
  match s with
  | EmptyString => ""
  | String c s' => quote_char c +:+ quote_body s'
  end.

Definition quote (s : string) : string :=
  String dquote (quote_body s +:+ String dquote "").

(** [xs.join(sep)] on strings. *)
Fixpoint join (sep : string) (xs : list string) : string :=
  match xs with
  | [] => ""
  | [x] => x
  | x :: rest => x +:+ sep +:+ join sep rest
  end.

(** SerializeJSONProperty. [None] is the [undefined] that makes
    [JSON.stringify] drop a property (or print [null] inside an array). *)
Fixpoint serialize (v : JsValue) : option string :=
  match v with
  | JsUndefined => None
  | JsNull => Some "null"
  | JsBool true => Some "true"
  | JsBool false => Some "false"
  | JsNum x =>
      match binary64 x with
      | S754_nan | S754_infinity _ => Some "null"
      | _ => Some (number_to_string x)
      end
  | JsStr s => Some (quote s)
  | JsArr elems =>
      Some ("[" +:+ join ","
              (List.map (fun e => match serialize e with
                                  | Some s => s
                                  | None => "null"
                                  end) elems) +:+ "]")
  | JsObj props =>
      Some ("{" +:+ join ","
              ((fix members (ps : list (string * JsValue)) : list string :=
                  match ps with
                  | [] => []
                  | (k, e) :: ps' =>
                      match serialize e with
                      | Some s => (quote k +:+ ":" +:+ s) :: members ps'
                      | None => members ps'
                      end
                  end) props) +:+ "}")
  end.

(** [JSON.stringify(v)] spliced into a template literal: the [undefined]
    result prints as the word. *)
Definition JSON_stringify (v : JsValue) : string :=
  match serialize v with
  | Some s => s
  | None => "undefined"
  end.

(** ToString, as a template literal applies it to a substituted value:
    a primitive prints as itself, an array as its elements joined by
    commas ([null] and [undefined] elements print as nothing), any other
    object as the fixed text. *)
Fixpoint to_string (v : JsValue) : string :=
  match v with
  | JsUndefined => "undefined"
  | JsNull => "null"
  | JsBool true => "true"
  | JsBool false => "false"
  | JsNum x => number_to_string x
  | JsStr s => s
  | JsArr elems =>
      join ","
        (List.map (fun e => match e with
                            | JsUndefined | JsNull => ""
                            | _ => to_string e
                            end) elems)
  | JsObj _ => "[object Object]"
  end.

(** *** Objects *)

(** The value of the own property [k], if there is one. *)
Fixpoint lookup (k : string) (ps : list (string * JsValue)) : option JsValue :=
  match ps with
  | [] => None
  | (k', v) :: ps' => if String.eqb k' k then Some v else lookup k ps'
  end.

(** [v.k] on a value other than [null] and [undefined], for a property
    name that no prototype defines. *)
Definition prop (k : string) (v : JsValue) : JsValue :=
  match v with
  | JsObj ps => default JsUndefined (lookup k ps)
  | _ => JsUndefined
  end.

(** [o.k = v], and a property [k: v] of an object literal: a property
    that exists keeps its place, a new one goes last. *)
Fixpoint set (k : string) (v : JsValue) (ps : list (string * JsValue))
  : list (string * JsValue) :=
  match ps with
  | [] => [(k, v)]
  | (k', v') :: ps' =>
      if String.eqb k' k then (k', v) :: ps' else (k', v') :: set k v ps'
  end.

(** [{ ...base, k1: v1, ..., kn: vn }] *)
Definition extend (base : list (string * JsValue))
    (kvs : list (string * JsValue)) : list (string * JsValue) :=
  fold_left (fun o kv => set (fst kv) (snd kv) o) kvs base.

(** The rest of a destructuring pattern that names the keys [ks]. *)
Definition omit (ks : list string) (ps : list (string * JsValue))
  : list (string * JsValue) :=
  List.filter (fun kv => negb (existsb (String.eqb (fst kv)) ks)) ps.

Fixpoint indexed (i : N) (vs : list JsValue) : list (string * JsValue) :=
  match vs with
  | [] => []
  | v :: vs' => (string_of_N i, v) :: indexed (N.succ i) vs'
  end.

Fixpoint chars (s : string) : list JsValue :=
  match s with
  | EmptyString => []
  | String c s' => JsStr (String c "") :: chars s'
  end.

(** The own enumerable properties that [{ ...v }] copies. *)
Definition spread (v : JsValue) : list (string * JsValue) :=
  match v with
  | JsObj ps => ps
  | JsArr vs => indexed 0 vs
  | JsStr s => indexed 0 (chars s)
  | _ => []
  end.

Definition keys (ps : list (string * JsValue)) : list string :=
  List.map fst ps.

End Js.

(** ** Data model of the store *)

Module Feedback.
Record t := mk {
  content : string;
  status : FEEDBACK_STATUS_enum.t;
  timestamp : Z;
}.
End Feedback.

Module Agent.
(** The properties of an agent object that the store reads or writes. The
    last three live on [agent.agentInstance]. *)
Record t := mk {
  id : string;
  name : string;
  status : AGENT_STATUS_enum.t;
  interactionsHistory : list string;
  lastFeedbackMessage : option string;
  currentIterations : Z;
  (** which object this is: agents are held by value, and two values with
      the same [self] are one agent object, seen through two references;
      a copy or a clone is another object *)
  self : string;
}.

(** Modelled from the spec: the Agent class is not among the source files;
    an agent has a mutable status, which [setStatus] assigns. *)
Definition setStatus (s : AGENT_STATUS_enum.t) (a : t) : t :=
  mk (id a) (name a) s (interactionsHistory a) (lastFeedbackMessage a)
     (currentIterations a) (self a).
End Agent.

Module Task.
Record t := mk {
  id : string;
  description : string;
  status : TASK_STATUS_enum.t;
  dependsOn : option (list string);
  agent : option Agent.t;
  isDeliverable : bool;
  result : JsValue;
  feedbackHistory : option (list Feedback.t);
  inputs : JsValue;
  interpolatedTaskDescription : option string;
}.

(** [{ ...task, status }] and [task.status = status] *)
Definition set_status (s : TASK_STATUS_enum.t) (k : t) : t :=
  mk (id k) (description k) s (dependsOn k) (agent k) (isDeliverable k)
     (result k) (feedbackHistory k) (inputs k)
     (interpolatedTaskDescription k).

Definition set_agent (a : option Agent.t) (k : t) : t :=
  mk (id k) (description k) (status k) (dependsOn k) a (isDeliverable k)
     (result k) (feedbackHistory k) (inputs k)
     (interpolatedTaskDescription k).

Definition set_feedbackHistory (h : option (list Feedback.t)) (k : t) : t :=
  mk (id k) (description k) (status k) (dependsOn k) (agent k)
     (isDeliverable k) (result k) h (inputs k)
     (interpolatedTaskDescription k).

Definition set_inputs (v : JsValue) (k : t) : t :=
  mk (id k) (description k) (status k) (dependsOn k) (agent k)
     (isDeliverable k) (result k) (feedbackHistory k) v
     (interpolatedTaskDescription k).

Definition set_interpolatedTaskDescription (d : option string) (k : t) : t :=
  mk (id k) (description k) (status k) (dependsOn k) (agent k)
     (isDeliverable k) (result k) (feedbackHistory k) (inputs k) d.

(** [task.status === s] *)
Definition has_status (s : TASK_STATUS_enum.t) (k : t) : bool :=
  bool_decide (status k = s).

(** [task.id === i] *)
Definition has_id (i : string) (k : t) : bool := String.eqb (id k) i.
End Task.

Module Log.
Inductive LogType := WorkflowStatusUpdate | TaskStatusUpdate | AgentStatusUpdate.

#[global] Instance LogType_eq_dec : EqDecision LogType.
Proof. solve_decision. Defined.

(** A property that [prepareNewLog] fills with a status or with the
    string 'Unknown', and that the hand-written workflow logs do not
    have. *)
Inductive tag (A : Type) := Absent | Unknown | Known (a : A).
Arguments Absent {A}.
Arguments Unknown {A}.
Arguments Known {A} a.

(** The metadata properties that the store actions read or write. *)
Record Metadata := mkMetadata {
  message : option string;
  inputs : JsValue;
  feedback : option Feedback.t;
  result : JsValue;
}.

(** [metadata: {}] *)
Definition no_metadata : Metadata :=
  mkMetadata None JsUndefined None JsUndefined.

(** A log entry. The store actions write entries with a [metadata]
    object; an entry that reaches the store from elsewhere may lack it, as
    it may lack its task ([None]). *)
Record t := mk {
  timestamp : Z;
  task : option Task.t;
  agent : option Agent.t;
  agentName : option string;
  taskTitle : option string;
  logDescription : string;
  taskStatus : tag TASK_STATUS_enum.t;
  agentStatus : tag AGENT_STATUS_enum.t;
  workflowStatus : option WORKFLOW_STATUS_enum.t;
  metadata : option Metadata;
  logType : LogType;
}.
End Log.

(** Which strategy class [createWorkflowExecutionStrategy] instantiates. *)
Inductive Strategy := ManagerLLMStrategy | DeterministicExecutionStrategy.

Module State.
(** The data properties of the store state. [taskQueue] is the
    concurrency of the PQueue that [startWorkflow] installs. *)
Record t := mk {
  teamWorkflowStatus : WORKFLOW_STATUS_enum.t;
  workflowResult : JsValue;
  name : string;
  agents : list Agent.t;
  tasks : list Task.t;
  workflowLogs : list Log.t;
  inputs : JsValue;
  workflowContext : string;
  workflowInternalMemory : JsValue;
  env : JsValue;
  logLevel : option string;
  flowType : option string;
  workflowExecutionStrategy : option Strategy;
  workflowController : JsValue;
  maxConcurrency : Z;
  managerWithLLM : bool;
  taskQueue : option Z;
}.

Definition set_tasks (v : list Task.t) (s : t) : t :=
  mk (teamWorkflowStatus s) (workflowResult s) (name s) (agents s) v
     (workflowLogs s) (inputs s) (workflowContext s)
     (workflowInternalMemory s) (env s) (logLevel s) (flowType s)
     (workflowExecutionStrategy s) (workflowController s)
     (maxConcurrency s) (managerWithLLM s) (taskQueue s).

Definition set_workflowLogs (v : list Log.t) (s : t) : t :=
  mk (teamWorkflowStatus s) (workflowResult s) (name s) (agents s)
     (tasks s) v (inputs s) (workflowContext s)
     (workflowInternalMemory s) (env s) (logLevel s) (flowType s)
     (workflowExecutionStrategy s) (workflowController s)
     (maxConcurrency s) (managerWithLLM s) (taskQueue s).

Definition set_teamWorkflowStatus (v : WORKFLOW_STATUS_enum.t) (s : t) : t :=
  mk v (workflowResult s) (name s) (agents s)
     (tasks s) (workflowLogs s) (inputs s) (workflowContext s)
     (workflowInternalMemory s) (env s) (logLevel s) (flowType s)
     (workflowExecutionStrategy s) (workflowController s)
     (maxConcurrency s) (managerWithLLM s) (taskQueue s).

Definition set_inputs (v : JsValue) (s : t) : t :=
  mk (teamWorkflowStatus s) (workflowResult s) (name s) (agents s)
     (tasks s) (workflowLogs s) v (workflowContext s)
     (workflowInternalMemory s) (env s) (logLevel s) (flowType s)
     (workflowExecutionStrategy s) (workflowController s)
     (maxConcurrency s) (managerWithLLM s) (taskQueue s).

Definition set_workflowExecutionStrategy (v : option Strategy) (s : t) : t :=
  mk (teamWorkflowStatus s) (workflowResult s) (name s) (agents s)
     (tasks s) (workflowLogs s) (inputs s) (workflowContext s)
     (workflowInternalMemory s) (env s) (logLevel s) (flowType s)
     v (workflowController s)
     (maxConcurrency s) (managerWithLLM s) (taskQueue s).

Definition set_taskQueue (v : option Z) (s : t) : t :=
  mk (teamWorkflowStatus s) (workflowResult s) (name s) (agents s)
     (tasks s) (workflowLogs s) (inputs s) (workflowContext s)
     (workflowInternalMemory s) (env s) (logLevel s) (flowType s)
     (workflowExecutionStrategy s) (workflowController s)
     (maxConcurrency s) (managerWithLLM s) v.

Definition set_workflowResult (v : JsValue) (s : t) : t :=
  mk (teamWorkflowStatus s) v (name s) (agents s)
     (tasks s) (workflowLogs s) (inputs s) (workflowContext s)
     (workflowInternalMemory s) (env s) (logLevel s) (flowType s)
     (workflowExecutionStrategy s) (workflowController s)
     (maxConcurrency s) (managerWithLLM s) (taskQueue s).

Definition set_name (v : string) (s : t) : t :=
  mk (teamWorkflowStatus s) (workflowResult s) v (agents s)
     (tasks s) (workflowLogs s) (inputs s) (workflowContext s)
     (workflowInternalMemory s) (env s) (logLevel s) (flowType s)
     (workflowExecutionStrategy s) (workflowController s)
     (maxConcurrency s) (managerWithLLM s) (taskQueue s).

Definition set_workflowInternalMemory (v : JsValue) (s : t) : t :=
  mk (teamWorkflowStatus s) (workflowResult s) (name s) (agents s)
     (tasks s) (workflowLogs s) (inputs s) (workflowContext s)
     v (env s) (logLevel s) (flowType s)
     (workflowExecutionStrategy s) (workflowController s)
     (maxConcurrency s) (managerWithLLM s) (taskQueue s).

Definition set_env (v : JsValue) (s : t) : t :=
  mk (teamWorkflowStatus s) (workflowResult s) (name s) (agents s)
     (tasks s) (workflowLogs s) (inputs s) (workflowContext s)
     (workflowInternalMemory s) v (logLevel s) (flowType s)
     (workflowExecutionStrategy s) (workflowController s)
     (maxConcurrency s) (managerWithLLM s) (taskQueue s).

(** The properties that [createTeamStore] takes from [initialState];
    [None] is a property that is not given. *)
Record initial := mkInitial {
  i_teamWorkflowStatus : option WORKFLOW_STATUS_enum.t;
  i_workflowResult : option JsValue;
  i_name : option string;
  i_agents : option (list Agent.t);
  i_tasks : option (list Task.t);
  i_workflowLogs : option (list Log.t);
  i_inputs : option JsValue;
  i_workflowContext : option string;
  i_workflowInternalMemory : option JsValue;
  i_env : option JsValue;
  i_logLevel : option string;
  i_flowType : option string;
  i_workflowController : option JsValue;
  i_maxConcurrency : option Z;
}.
End State.

(** ** Array helpers *)

(** [xs.findIndex(p)], with the [-1] of JavaScript. *)
Fixpoint findIndex_from {A : Type} (p : A -> bool) (xs : list A) (i : Z) : Z :=
  match xs with
  | [] => -1
  | x :: xs' => if p x then i else findIndex_from p xs' (i + 1)
  end.

Definition findIndex {A : Type} (p : A -> bool) (xs : list A) : Z :=
  findIndex_from p xs 0.

(** [ids.includes(i)] on strings. *)
Definition includes (ids : list string) (i : string) : bool :=
  existsb (String.eqb i) ids.

(** [xs[i]] for an index that [findIndex] returned. *)
Definition at_index {A : Type} (xs : list A) (i : Z) : option A :=
  if i <? 0 then None else nth_error xs (Z.to_nat i).

(** ** The team store (src/stores/teamStore.js) *)

Module TeamStore.

(** [v || d] on a property that may be missing. *)
Definition or_value (v : option JsValue) (d : JsValue) : JsValue :=
  match v with
  | Some x => if Js.truthy x then x else d
  | None => d
  end.

(** The state that [createTeamStore(initialState)] starts from. *)
Definition createTeamStore (initialState : State.initial) : State.t :=
  State.mk
    (default WORKFLOW_STATUS_enum.INITIAL (State.i_teamWorkflowStatus initialState))
    (or_value (State.i_workflowResult initialState) JsNull)
    (default "" (State.i_name initialState))
    (default [] (State.i_agents initialState))
    (default [] (State.i_tasks initialState))
    (default [] (State.i_workflowLogs initialState))
    (or_value (State.i_inputs initialState) (JsObj []))
    (default "" (State.i_workflowContext initialState))
    (or_value (State.i_workflowInternalMemory initialState) (JsObj []))
    (or_value (State.i_env initialState) (JsObj []))
    (State.i_logLevel initialState)
    (State.i_flowType initialState)
    None
    (or_value (State.i_workflowController initialState) (JsObj []))
    (match State.i_maxConcurrency initialState with
     | Some n => if n =? 0 then 5 else n
     | None => 5
     end)
    false
    None.

Definition setInputs (inputs : JsValue) (state : State.t) : State.t :=
  State.set_inputs inputs state.

Definition updateTaskStatus (taskId : string) (status : TASK_STATUS_enum.t)
    (state : State.t) : State.t :=
  let updatedTasks :=
    List.map (fun task =>
                if Task.has_id taskId task then Task.set_status status task
                else task)
             (State.tasks state) in
  State.set_tasks updatedTasks state.

Definition updateStatusOfMultipleTasks (taskIds : list string)
    (status : TASK_STATUS_enum.t) (state : State.t) : State.t :=
  let updatedTasks :=
    List.map (fun task =>
                if includes taskIds (Task.id task)
                then Task.set_status status task
                else task)
             (State.tasks state) in
  State.set_tasks updatedTasks state.

Definition createWorkflowExecutionStrategy (state : State.t) : Strategy :=
  if State.managerWithLLM state then ManagerLLMStrategy
  else DeterministicExecutionStrategy.

(** The callback of [get().agents.forEach]: the agent is reset in
    place. *)
Definition resetAgent (agent : Agent.t) : Agent.t :=
  let agent := Agent.setStatus AGENT_STATUS_enum.INITIAL agent in
  Agent.mk (Agent.id agent) (Agent.name agent) (Agent.status agent)
           [] None 0 (Agent.self agent).

(** [task.agent] is one of the objects of the array [agents]. *)
Definition holds_one_of (agents : list Agent.t) (task : Task.t) : bool :=
  match Task.agent task with
  | Some a => existsb (fun b => String.eqb (Agent.self b) (Agent.self a)) agents
  | None => false
  end.

(** [resetWorkflowStateAction()]. The copies [{ ...task, status }] hold
    the agent objects of the tasks they copy; the loop over
    [get().agents] then resets the agents of the store in place, so a task
    whose agent is one of them holds the agent as reset. The logs, which
    may hold these objects too, are emptied. *)
Definition resetWorkflowStateAction (state : State.t) : State.t :=
  let resetTasks :=
    List.map (Task.set_status TASK_STATUS_enum.TODO) (State.tasks state) in
  let resetTasks :=
    List.map (fun task =>
                if holds_one_of (State.agents state) task
                then Task.set_agent (option_map resetAgent (Task.agent task))
                                    task
                else task)
             resetTasks in
  let resetAgents := List.map resetAgent (State.agents state) in
  State.mk WORKFLOW_STATUS_enum.INITIAL JsNull (State.name state)
           resetAgents resetTasks [] (State.inputs state) ""
           (JsObj []) (State.env state) (State.logLevel state)
           (State.flowType state) (State.workflowExecutionStrategy state)
           (State.workflowController state) (State.maxConcurrency state)
           (State.managerWithLLM state) (State.taskQueue state).

(** The log that [startWorkflow] writes by hand. *)
Definition initialLog (now : Z) (teamName : string) (inputs : JsValue) : Log.t :=
  Log.mk now None None None None
         ("Workflow initiated for team *" +:+ teamName +:+ "*.")
         Log.Absent Log.Absent
         (Some WORKFLOW_STATUS_enum.RUNNING)
         (Some (Log.mkMetadata
                  (Some "Workflow has been initialized with input settings.")
                  inputs None JsUndefined))
         Log.WorkflowStatusUpdate.

(** [startWorkflow(inputs)]. The result is the state on which the call
    [strategy.startExecution(get())] is made, and the strategy that
    receives it; [getConcurrencyForTaskQueue] is the method of the
    strategy classes (not among the source files) that sizes the queue. *)
Definition startWorkflow
    (getConcurrencyForTaskQueue : Strategy -> State.t -> Z)
    (now : Z) (inputs : JsValue) (state : State.t) : State.t * Strategy :=
  let s1 := resetWorkflowStateAction state in
  let s2 := if Js.truthy inputs then setInputs inputs s1 else s1 in
  let log := initialLog now (State.name s2) inputs in
  let strategy := createWorkflowExecutionStrategy s2 in
  let s3 :=
    State.set_workflowExecutionStrategy (Some strategy)
      (State.set_teamWorkflowStatus WORKFLOW_STATUS_enum.RUNNING
         (State.set_workflowLogs (State.workflowLogs s2 ++ [log]) s2)) in
  let s4 :=
    State.set_taskQueue (Some (getConcurrencyForTaskQueue strategy s3)) s3 in
  (s4, strategy).

Section WithTaskTitles.

(** [getTaskTitleForLogs] of utils/tasks, which is not among the source
    files. *)
Variable getTaskTitleForLogs : Task.t -> string.

Definition prepareNewLog (timestamp : Z) (agent : option Agent.t)
    (task : option Task.t) (logDescription : string)
    (metadata : Log.Metadata) (logType : Log.LogType) : Log.t :=
  Log.mk timestamp task agent
         (Some (match agent with
                | Some a => Agent.name a
                | None => "Unknown Agent"
                end))
         (Some (match task with
                | Some k => getTaskTitleForLogs k
                | None => "Untitled Task"
                end))
         logDescription
         (match task with
          | Some k => Log.Known (Task.status k)
          | None => Log.Unknown
          end)
         (match agent with
          | Some a => Log.Known (Agent.status a)
          | None => Log.Unknown
          end)
         None (Some metadata) logType.

(** [provideFeedback(taskId, feedbackContent)]; [t1 t2 t3] are the
    three readings of the clock. The promise resolves to [undefined] on
    both paths. *)
Definition provideFeedback (t1 t2 t3 : Z) (taskId feedbackContent : string)
    (state : State.t) : State.t :=
  let tasks := State.tasks state in
  let taskIndex := findIndex (Task.has_id taskId) tasks in
  if taskIndex =? -1 then state
  else
    match at_index tasks taskIndex with
    | None => state
    | Some task =>
        let newFeedback :=
          Feedback.mk feedbackContent FEEDBACK_STATUS_enum.PENDING t1 in
        let newWorkflowLog :=
          Log.mk t2 (Some task) (Task.agent task) None None
                 "Workflow running again due to feedback on task."
                 Log.Absent Log.Absent
                 (Some WORKFLOW_STATUS_enum.RUNNING)
                 (Some (Log.mkMetadata None JsUndefined (Some newFeedback)
                                       JsUndefined))
                 Log.WorkflowStatusUpdate in
        let updatedTask :=
          Task.set_status TASK_STATUS_enum.REVISE
            (Task.set_feedbackHistory
               (Some (default [] (Task.feedbackHistory task)
                        ++ [newFeedback]))
               task) in
        let newTaskLog :=
          prepareNewLog t3 (Task.agent updatedTask) (Some updatedTask)
            ("Task with feedback: " +:+ getTaskTitleForLogs updatedTask
               +:+ ".")
            (Log.mkMetadata None JsUndefined (Some newFeedback)
                            JsUndefined)
            Log.TaskStatusUpdate in
        State.set_tasks
          (List.map (fun t => if Task.has_id taskId t then updatedTask
                              else t)
                    (State.tasks state))
          (State.set_workflowLogs
             (State.workflowLogs state ++ [newWorkflowLog; newTaskLog])
             (State.set_teamWorkflowStatus WORKFLOW_STATUS_enum.RUNNING
                state))
    end.

(** What the promise of [validateTask] resolves to. *)
Inductive validateResult := ReturnsNull | ReturnsUndefined.

(** The argument of the call [get().handleTaskCompleted({...})]; the
    action belongs to the task store, which is not among the source
    files. *)
Record handleTaskCompletedCall := mkCompleted {
  completed_agent : option Agent.t;
  completed_task : Task.t;
  completed_result : JsValue;
}.

(** [validateTask(taskId)]; [t1 t2] are the two readings of the clock.
    The result is the value returned, the state committed by the
    action, and the call to [handleTaskCompleted] that follows the
    commit, if one is made. *)
Definition validateTask (t1 t2 : Z) (taskId : string) (state : State.t)
  : validateResult * State.t * option handleTaskCompletedCall :=
  match List.find (Task.has_id taskId) (State.tasks state) with
  | None => (ReturnsNull, state, None)
  | Some task =>
      if negb (Task.has_status TASK_STATUS_enum.AWAITING_VALIDATION task)
      then (ReturnsNull, state, None)
      else
        let updatedTask :=
          Task.set_status TASK_STATUS_enum.VALIDATED task in
        let newWorkflowLog :=
          Log.mk t1 (Some updatedTask) (Task.agent updatedTask) None None
                 "Workflow running cause a task was validated."
                 Log.Absent Log.Absent
                 (Some WORKFLOW_STATUS_enum.RUNNING)
                 (Some Log.no_metadata) Log.WorkflowStatusUpdate in
        let newTaskLog :=
          prepareNewLog t2 (Task.agent updatedTask) (Some updatedTask)
            ("Task validated: " +:+ getTaskTitleForLogs updatedTask +:+ ".")
            Log.no_metadata Log.TaskStatusUpdate in
        let state' :=
          State.set_teamWorkflowStatus WORKFLOW_STATUS_enum.RUNNING
            (State.set_workflowLogs
               (State.workflowLogs state ++ [newWorkflowLog; newTaskLog])
               (State.set_tasks
                  (List.map (fun t => if Task.has_id taskId t
                                      then updatedTask else t)
                            (State.tasks state))
                  state)) in
        (ReturnsUndefined, state',
         Some (mkCompleted (Task.agent updatedTask) updatedTask
                           (Task.result updatedTask)))
  end.

End WithTaskTitles.

(** *** deriveContextFromLogs *)

(** A value of the [taskResults] map. *)
Record taskResult := mkTaskResult {
  taskDescription : string;
  result : JsValue;
  index : Z;
}.

(** [m.set(k, v)] on a [Map]: a key that is present keeps its place, a new
    key goes last. *)
Fixpoint Map_set (k : string) (v : taskResult)
    (m : list (string * taskResult)) : list (string * taskResult) :=
  match m with
  | [] => [(k, v)]
  | (k', v') :: m' =>
      if String.eqb k' k then (k', v) :: m'
      else (k', v') :: Map_set k v m'
  end.

(** One round of the loop over the logs. [None] is a TypeError: the one
    of [log.task.id] on a log without a task, or the one of
    [log.metadata.result] on a log without metadata, which is read only
    for a task before the current one. *)
Definition collect (tasks : list Task.t) (currentTaskIndex : Z)
    (taskResults : list (string * taskResult)) (log : Log.t)
  : option (list (string * taskResult)) :=
  if bool_decide (Log.logType log = Log.TaskStatusUpdate)
     && match Log.taskStatus log with
        | Log.Known TASK_STATUS_enum.DONE => true
        | _ => false
        end
  then
    match Log.task log with
    | None => None
    | Some logTask =>
        let taskIndex := findIndex (Task.has_id (Task.id logTask)) tasks in
        if negb (taskIndex =? -1) && (taskIndex <? currentTaskIndex)
        then
          match Log.metadata log with
          | None => None
          | Some metadata =>
              Some (Map_set (Task.id logTask)
                      (mkTaskResult (Task.description logTask)
                                    (Log.result metadata) taskIndex)
                      taskResults)
          end
        else Some taskResults
    end
  else Some taskResults.

Fixpoint collect_all (tasks : list Task.t) (currentTaskIndex : Z)
    (taskResults : list (string * taskResult)) (logs : list Log.t)
  : option (list (string * taskResult)) :=
  match logs with
  | [] => Some taskResults
  | log :: logs' =>
      match collect tasks currentTaskIndex taskResults log with
      | None => None
      | Some taskResults' =>
          collect_all tasks currentTaskIndex taskResults' logs'
      end
  end.

(** [.sort((a, b) => a.index - b.index)]: the sort of an array is stable,
    so the result is the one of insertion sort. *)
Fixpoint insert_by_index (x : taskResult) (xs : list taskResult)
  : list taskResult :=
  match xs with
  | [] => [x]
  | y :: xs' =>
      if index x <=? index y then x :: y :: xs'
      else y :: insert_by_index x xs'
  end.

Fixpoint sort_by_index (xs : list taskResult) : list taskResult :=
  match xs with
  | [] => []
  | x :: xs' => insert_by_index x (sort_by_index xs')
  end.

(** The template literal of one entry. *)
Definition entry (r : taskResult) : string :=
  "Task: " +:+ taskDescription r +:+ Js.nl +:+ "Result: "
    +:+ (if Js.typeof_object (result r) then Js.JSON_stringify (result r)
         else Js.to_string (result r))
    +:+ Js.nl.

(** [deriveContextFromLogs(logs, currentTaskId)]; [None] is a thrown
    TypeError. *)
Definition deriveContextFromLogs (logs : list Log.t)
    (currentTaskId : string) (state : State.t) : option string :=
  let tasks := State.tasks state in
  let currentTaskIndex := findIndex (Task.has_id currentTaskId) tasks in
  if currentTaskIndex =? -1 then Some ""
  else
    match collect_all tasks currentTaskIndex [] logs with
    | None => None
    | Some taskResults =>
        Some (Js.join Js.nl
                (List.map entry
                   (sort_by_index (List.map snd taskResults))))
    end.

(** *** Setters, the internal memory and clearAll *)

Definition setName (name : string) (state : State.t) : State.t :=
  State.set_name name state.

Definition setEnv (env : JsValue) (state : State.t) : State.t :=
  State.set_env env state.

(** [{ ...state.workflowInternalMemory, ...updates }] *)
Definition updateWorkflowInternalMemory (updates : JsValue) (state : State.t)
  : State.t :=
  State.set_workflowInternalMemory
    (JsObj (Js.extend (Js.spread (State.workflowInternalMemory state))
                      (Js.spread updates)))
    state.

Definition clearWorkflowInternalMemory (state : State.t) : State.t :=
  State.set_workflowInternalMemory (JsObj []) state.

Definition setTeamWorkflowStatus (status : WORKFLOW_STATUS_enum.t)
    (state : State.t) : State.t :=
  State.set_teamWorkflowStatus status state.

(** [clearAll()] names seven properties; the others keep their values. *)
Definition clearAll (state : State.t) : State.t :=
  State.mk WORKFLOW_STATUS_enum.INITIAL JsNull (State.name state)
           [] [] [] (JsObj []) ""
           (State.workflowInternalMemory state) (State.env state)
           (State.logLevel state) (State.flowType state)
           (State.workflowExecutionStrategy state)
           (State.workflowController state) (State.maxConcurrency state)
           (State.managerWithLLM state) (State.taskQueue state).

End TeamStore.

(** ** The sequential strategy
    (managers/executionStrategies/sequentialExecutionStrategy.js) *)

Module SequentialExecutionStrategy.

(** The strategy object and the store it is bound to. [taskQueue] lists
    the tasks handed to the fastq queue, oldest first; the queue (an
    external library, one worker) runs [_executeTask] on them. *)
Record t := mk {
  useTeamStore : State.t;
  taskQueue : list Task.t;
}.

Definition _updateTaskStatus (taskId : string) (status : TASK_STATUS_enum.t)
    (this : t) : t :=
  mk (TeamStore.updateTaskStatus taskId status (useTeamStore this))
     (taskQueue this).

(** The body of the [for ... of changedTasks] loop. *)
Definition handle (allTasks : list Task.t) (this : t) (changedTask : Task.t)
  : t :=
  match Task.status changedTask with
  | TASK_STATUS_enum.DOING =>
      mk (useTeamStore this) (taskQueue this ++ [changedTask])
  | TASK_STATUS_enum.REVISE =>
      let taskIndex :=
        findIndex (Task.has_id (Task.id changedTask)) allTasks in
      (* for (let i = taskIndex + 1; i < allTasks.length; i++) *)
      let this1 :=
        fold_left
          (fun acc task =>
             _updateTaskStatus (Task.id task) TASK_STATUS_enum.TODO acc)
          (skipn (Z.to_nat (taskIndex + 1)) allTasks) this in
      _updateTaskStatus (Task.id changedTask) TASK_STATUS_enum.DOING this1
  | TASK_STATUS_enum.DONE =>
      let tasks := State.tasks (useTeamStore this) in
      match List.find (Task.has_status TASK_STATUS_enum.TODO) tasks with
      | Some nextTask =>
          _updateTaskStatus (Task.id nextTask) TASK_STATUS_enum.DOING this
      | None => this
      end
  | _ => this
  end.

Definition execute (changedTasks allTasks : list Task.t) (this : t) : t :=
  fold_left (handle allTasks) changedTasks this.

End SequentialExecutionStrategy.

(** ** The hierarchical strategy
    (managers/executionStrategies/hierarchyExecutionStrategy.js) *)

Module HierarchyExecutionStrategy.

(** The constructor fills a dependency graph ([this.graph]) with the nodes
    and edges of the tasks; no method reads it, and it has no part below. *)

(** [isAgentBusy(agent, tasks)], the method of this class: [tasks.some]
    stops at the first task that holds; [None] is the TypeError of
    [t.agent.id] on a task without an agent. *)
Fixpoint isAgentBusy (agent : Agent.t) (tasks : list Task.t) : option bool :=
  match tasks with
  | [] => Some false
  | t :: tasks' =>
      match Task.agent t with
      | None => None
      | Some a =>
          if String.eqb (Agent.id a) (Agent.id agent)
             && Task.has_status TASK_STATUS_enum.DOING t
          then Some true
          else isAgentBusy agent tasks'
      end
  end.

(** *** The selection functions, on the task objects as values *)

Definition getTaskDependencies (task : Task.t) (allTasks : list Task.t)
  : list Task.t :=
  match Task.dependsOn task with
  | None => []
  | Some [] => []
  | Some dependsOn =>
      List.filter (fun t => includes dependsOn (Task.id t)) allTasks
  end.

Definition getAllTasksDependingOn (task : Task.t) (allTasks : list Task.t)
  : list Task.t :=
  List.filter
    (fun t => match Task.dependsOn t with
              | Some dependsOn => includes dependsOn (Task.id task)
              | None => false
              end)
    allTasks.

(** The callback of the filter in [getReadyTasks]; [execute] repeats it. *)
Definition ready (allTasks : list Task.t) (task : Task.t) : bool :=
  if negb (Task.has_status TASK_STATUS_enum.TODO task) then false
  else
    let deps := getTaskDependencies task allTasks in
    (Nat.eqb (length deps) 0)
    || forallb (Task.has_status TASK_STATUS_enum.DONE) deps.

Definition getReadyTasks (allTasks : list Task.t) : list Task.t :=
  List.filter (ready allTasks) allTasks.

(** *** Task objects by reference

    [workOnTask] assigns to properties of the task object it is given,
    and that object is an element of [allTasks] which the store may still
    hold. A task object is therefore a position in [objects]; the
    [tasks] array of the store is [taskRefs]. An object is never removed,
    and [{ ...task, status }] makes a new one. *)

Abbreviation ref := nat.

Record World := mkWorld {
  objects : list Task.t;
  taskRefs : list ref;
  (** the other properties of the store; its [tasks] are not read *)
  rest : State.t;
}.

Definition deref (w : World) (r : ref) : option Task.t := objects w !! r.

(** The objects behind an array of references. *)
Definition derefs (w : World) (rs : list ref) : list Task.t :=
  omap (deref w) rs.

(** [get()]: the store state that the world stands for. *)
Definition get (w : World) : State.t :=
  State.set_tasks (derefs w (taskRefs w)) (rest w).

(** The world of a store state none of whose tasks is shared yet, and the
    references of its [tasks]. *)
Definition enter (state : State.t) : World :=
  mkWorld (State.tasks state) (seq 0 (length (State.tasks state))) state.

Definition refs_of (state : State.t) : list ref :=
  seq 0 (length (State.tasks state)).

(** [tasks.map((task) => p(task) ? { ...task, status } : task)] *)
Fixpoint remap (p : Task.t -> bool) (status : TASK_STATUS_enum.t)
    (objs : list Task.t) (rs : list ref) : list Task.t * list ref :=
  match rs with
  | [] => (objs, [])
  | r :: rs' =>
      match objs !! r with
      | Some task =>
          if p task then
            let '(objs', out) :=
              remap p status (objs ++ [Task.set_status status task]) rs' in
            (objs', length objs :: out)
          else
            let '(objs', out) := remap p status objs rs' in (objs', r :: out)
      | None =>
          let '(objs', out) := remap p status objs rs' in (objs', r :: out)
      end
  end.

(** [useTeamStore.getState().updateTaskStatus(taskId, status)] *)
Definition updateTaskStatus (taskId : string) (status : TASK_STATUS_enum.t)
    (w : World) : World :=
  let '(objs', refs') :=
    remap (Task.has_id taskId) status (objects w) (taskRefs w) in
  mkWorld objs' refs' (rest w).

(** [task.p = v] on the object behind [r]. *)
Definition assign (r : ref) (f : Task.t -> Task.t) (w : World) : World :=
  mkWorld (alter f r (objects w)) (taskRefs w) (rest w).

Definition append_log (log : Log.t) (w : World) : World :=
  mkWorld (objects w) (taskRefs w)
          (State.set_workflowLogs (State.workflowLogs (rest w) ++ [log])
                                  (rest w)).

(** Which method of the agent [workOnTask] ends in. *)
Inductive agentMethod := WorkOnTask | WorkOnFeedback.

(** A call [agent.workOnTask(task, ...)] or [agent.workOnFeedback(task,
    ...)] made by the store action [workOnTask]. *)
Record workItem := mkItem {
  item_agent : Agent.t;
  item_task : ref;
  item_method : agentMethod;
}.

(** How far a call of an async function got before its first suspension:
    it made no agent call, it threw, or it reached the agent. *)
Inductive started :=
| Nothing
| Threw
| Called (item : workItem).

Section Tick.

(** Helpers of utils/ that are not among the source files. *)
Variable getTaskTitleForLogs : Task.t -> string.
Variable interpolateTaskDescription : string -> JsValue -> string.
Variable cloneAgent : Agent.t -> Agent.t.

(** [_isAgentBusy(agent, tasks)] of the base class *)
Definition _isAgentBusy (agent : Agent.t) (tasks : list Task.t) : bool :=
  existsb
    (fun t => match Task.agent t with
              | Some a => String.eqb (Agent.id a) (Agent.id agent)
                          && Task.has_status TASK_STATUS_enum.DOING t
              | None => false
              end)
    tasks.

(** The store action [workOnTask(agent, task)] up to the call of the
    agent: the task object becomes DOING, the start is logged, inputs
    and the interpolated description are stored on the object. Reading
    [task.feedbackHistory.filter] of a task without history throws. *)
Definition workOnTask (now : Z) (agent : Agent.t) (r : ref) (w : World)
  : World * started :=
  match deref w r with
  | None => (w, Nothing)
  | Some task =>
      let w1 := assign r (Task.set_status TASK_STATUS_enum.DOING) w in
      let task1 := Task.set_status TASK_STATUS_enum.DOING task in
      let newLog :=
        TeamStore.prepareNewLog getTaskTitleForLogs now (Some agent)
          (Some task1)
          ("Task: " +:+ getTaskTitleForLogs task1 +:+ " started.")
          Log.no_metadata Log.TaskStatusUpdate in
      let w2 := append_log newLog w1 in
      let inputs := State.inputs (rest w2) in
      let w3 := assign r (Task.set_inputs inputs) w2 in
      let w4 :=
        assign r (Task.set_interpolatedTaskDescription
                    (Some (interpolateTaskDescription
                             (Task.description task1) inputs)))
               w3 in
      match Task.feedbackHistory task1 with
      | None => (w4, Threw)
      | Some feedbackHistory =>
          let pendingFeedbacks :=
            List.filter
              (fun f => bool_decide
                          (Feedback.status f = FEEDBACK_STATUS_enum.PENDING))
              feedbackHistory in
          if (0 <? length pendingFeedbacks)%nat
          then (w4, Called (mkItem agent r WorkOnFeedback))
          else (w4, Called (mkItem agent r WorkOnTask))
      end
  end.

(** [_executeTask(task)] of the base class, up to the call of the
    agent. With [task.agent] undefined, [agent.id] throws as soon as
    some task of the store has an agent; otherwise [workOnTask] is
    called without an agent and does nothing. *)
Definition _executeTask (now : Z) (r : ref) (w : World) : World * started :=
  match deref w r with
  | None => (w, Threw)
  | Some task =>
      let tasks := State.tasks (get w) in
      match Task.agent task with
      | None =>
          if existsb (fun t => bool_decide (is_Some (Task.agent t))) tasks
          then (w, Threw) else (w, Nothing)
      | Some a =>
          let agent := if _isAgentBusy a tasks then cloneAgent a else a in
          workOnTask now agent r w
      end
  end.

(** The work of the agent on an item, from the call to the settling of
    its promise: the world it leaves, or [None] when the promise
    rejects. The agent loop is not part of these files. *)
Variable agentWork : workItem -> World -> option World.

(** The clock reading of the n-th call of [_executeTask] in a tick. *)
Variable now : nat -> Z.

(** What a call of [execute] has done when its synchronous part ends:
    the world, the agent calls made so far (oldest first), and whether
    the promise of [execute] is still on the way to resolve. *)
Record result := mkResult {
  world : World;
  calls : list workItem;
  resolved : bool;
}.

(** The REVISE case: block the tasks that depend on the changed one. *)
Definition blockDependents (changedTask : Task.t) (allTasks : list Task.t)
    (w : World) : World :=
  let dependentTasks := getAllTasksDependingOn changedTask allTasks in
  fold_left
    (fun acc task =>
       updateTaskStatus (Task.id task) TASK_STATUS_enum.BLOCKED acc)
    dependentTasks w.

(** The loop over [changedTasks]; [await super._executeTask(...)] waits
    for the agent, and a rejection ends [execute]. *)
Fixpoint handleChanged (changedTasks allTasks : list ref) (w : World)
    (made : list workItem) : result :=
  match changedTasks with
  | [] => mkResult w made true
  | r :: changedTasks' =>
      match deref w r with
      | None => mkResult w made false
      | Some changedTask =>
          match Task.status changedTask with
          | TASK_STATUS_enum.DOING =>
              match _executeTask (now (length made)) r w with
              | (w1, Called item) =>
                  match agentWork item w1 with
                  | Some w2 =>
                      handleChanged changedTasks' allTasks w2
                                    (made ++ [item])
                  | None => mkResult w1 (made ++ [item]) false
                  end
              | (w1, Nothing) =>
                  handleChanged changedTasks' allTasks w1 made
              | (w1, Threw) => mkResult w1 made false
              end
          | TASK_STATUS_enum.REVISE =>
              handleChanged changedTasks' allTasks
                (blockDependents changedTask (derefs w allTasks) w)
                made
          | _ => handleChanged changedTasks' allTasks w made
          end
      end
  end.

(** [executableTasks.forEach((task) => { super._executeTask(task); })]:
    the calls are not awaited, each runs up to the call of its agent, and
    a throw inside one leaves the others alone. What the agents do after
    they are called happens after [execute] and is not part of its
    result. *)
Fixpoint dispatch (executableTasks : list ref) (w : World)
    (made : list workItem) : World * list workItem :=
  match executableTasks with
  | [] => (w, made)
  | r :: executableTasks' =>
      match _executeTask (now (length made)) r w with
      | (w1, Called item) => dispatch executableTasks' w1 (made ++ [item])
      | (w1, _) => dispatch executableTasks' w1 made
      end
  end.

(** [execute(changedTasks, allTasks)] *)
Definition execute (changedTasks allTasks : list ref) (w : World)
  : result :=
  let handled := handleChanged changedTasks allTasks w [] in
  if resolved handled then
    let w1 := world handled in
    let all := derefs w1 allTasks in
    let executableTasks :=
      List.filter
        (fun r => match deref w1 r with
                  | Some task => ready all task
                  | None => false
                  end)
        allTasks in
    let '(w2, made) := dispatch executableTasks w1 (calls handled) in
    mkResult w2 made true
  else handled.

End Tick.

End HierarchyExecutionStrategy.

(** ** The cleaned snapshot ([getCleanedState] of the team store)

    [getCleanedState] copies objects property by property and overwrites
    some of them, whatever else the objects carry, so agents, tasks and logs
    are [JsValue]s here. [None] is a thrown TypeError. *)

Module Snapshot.

Definition REDACTED : JsValue := JsStr "[REDACTED]".

(** The state properties that the function reads. *)
Record state := mkState {
  teamWorkflowStatus : JsValue;
  workflowResult : JsValue;
  name : JsValue;
  agents : list JsValue;
  tasks : list JsValue;
  workflowLogs : list JsValue;
  inputs : JsValue;
  workflowContext : JsValue;
  logLevel : JsValue;
}.

(** [x.llmConfig ? { ...x.llmConfig, apiKey: '[REDACTED]' } : {}] *)
Definition cleanLlmConfig (x : JsValue) : JsValue :=
  let llmConfig := Js.prop "llmConfig" x in
  if Js.truthy llmConfig
  then JsObj (Js.extend (Js.spread llmConfig) [("apiKey", REDACTED)])
  else JsObj [].

Definition cleanAgent (agent : JsValue) : option JsValue :=
  if Js.nullish agent then None
  else
      let agentInstance := Js.prop "agentInstance" agent in
      let cleanedAgentInstance := agentInstance in
      Some (JsObj (Js.extend (Js.spread agent)
        [("id", REDACTED);
         ("env", REDACTED);
         ("llmConfig", cleanLlmConfig agent);
         ("agentInstance",
           if Js.truthy cleanedAgentInstance
           then JsObj (Js.extend (Js.spread cleanedAgentInstance)
                  [("id", REDACTED);
                   ("env", REDACTED);
                   ("llmConfig", cleanLlmConfig cleanedAgentInstance)])
           else JsObj [])])).

(** [{ ...feedback, timestamp: '[REDACTED]' }] *)
Definition cleanFeedback (feedback : JsValue) : JsValue :=
  JsObj (Js.extend (Js.spread feedback) [("timestamp", REDACTED)]).

Definition cleanTask (task : JsValue) : option JsValue :=
  if Js.nullish task then None
  else
      let allowParallelExecution :=
        match Js.prop "allowParallelExecution" task with
        | JsUndefined => JsBool false
        | v => v
        end in
      let referenceId := Js.prop "referenceId" task in
      let rest :=
        Js.omit ["allowParallelExecution"; "referenceId"; "hooks";
                 "workflowInternalMemory"]
                (Js.spread task) in
      agent' ← (if Js.truthy (Js.prop "agent" task)
                then cleanAgent (Js.prop "agent" task)
                else Some JsNull);
      feedbackHistory' ←
        (let feedbackHistory := Js.prop "feedbackHistory" task in
         if Js.truthy feedbackHistory then
           match feedbackHistory with
           | JsArr fs => Some (JsArr (List.map cleanFeedback fs))
           | _ => None
           end
         else Some (JsArr []));
      let cleanedTask :=
        Js.extend rest
          [("id", REDACTED);
           ("agent", agent');
           ("duration", REDACTED);
           ("endTime", REDACTED);
           ("startTime", REDACTED);
           ("feedbackHistory", feedbackHistory')] in
      let cleanedTask1 :=
        if Js.truthy allowParallelExecution
        then Js.set "allowParallelExecution" allowParallelExecution
                    cleanedTask
        else cleanedTask in
      let cleanedTask2 :=
        if Js.truthy referenceId
        then Js.set "referenceId" referenceId cleanedTask1
        else cleanedTask1 in
      Some (JsObj cleanedTask2).

Definition cleanMetadata (metadata : JsValue) : JsValue :=
  JsObj (Js.extend (Js.spread metadata)
    [("duration", REDACTED);
     ("endTime", REDACTED);
     ("startTime", REDACTED);
     ("feedback",
       if Js.truthy (Js.prop "feedback" metadata)
       then cleanFeedback (Js.prop "feedback" metadata)
       else JsObj [])]).

(** The callback of [cleanedState.workflowLogs.map]. *)
Definition cleanLog (log : JsValue) : option JsValue :=
  if Js.nullish log then None
  else
      agent' ← (if Js.truthy (Js.prop "agent" log)
                then cleanAgent (Js.prop "agent" log)
                else Some JsNull);
      task' ← (if Js.truthy (Js.prop "task" log)
               then cleanTask (Js.prop "task" log)
               else Some JsNull);
      Some (JsObj (Js.extend (Js.spread log)
        [("agent", agent');
         ("task", task');
         ("timestamp", REDACTED);
         ("metadata",
           if Js.truthy (Js.prop "metadata" log)
           then cleanMetadata (Js.prop "metadata" log)
           else JsObj [])])).

Definition getCleanedState (s : state) : option (list (string * JsValue)) :=
  cleanedAgents ← mapM cleanAgent (agents s);
  cleanedTasks ← mapM cleanTask (tasks s);
  cleanedWorkflowLogs ← mapM cleanLog (workflowLogs s);
  Some [("teamWorkflowStatus", teamWorkflowStatus s);
        ("workflowResult", workflowResult s);
        ("name", name s);
        ("agents", JsArr cleanedAgents);
        ("tasks", JsArr cleanedTasks);
        ("workflowLogs", JsArr cleanedWorkflowLogs);
        ("inputs", inputs s);
        ("workflowContext", workflowContext s);
        ("logLevel", logLevel s)].

End Snapshot.

(** ** Statistics and the end of a workflow
    ([getWorkflowStats], [finishWorkflowAction] and the three error
    handlers of the team store)

    These actions read, in the logs, the usage figures that the agents
    record, and they write logs whose metadata carry the statistics.
    [Log.t] has neither, so the logs have a record of their own here, with
    the properties that these actions read or write, and the state is the
    part of the store that they touch. *)

Module Workflow.

(** [log.metadata.output.llmUsageStats] of a log written by an agent. *)
Record Usage := mkUsage {
  usage_inputTokens : Z;
  usage_outputTokens : Z;
}.

Record LlmUsageStats := mkLlmUsageStats {
  inputTokens : Z;
  outputTokens : Z;
  callsCount : Z;
  callsErrorCount : Z;
  parsingErrors : Z;
}.

(** A value of the object [modelUsageStats], which is keyed by model. *)
Record ModelUsage := mkModelUsage {
  model_inputTokens : Z;
  model_outputTokens : Z;
  model_callsCount : Z;
}.

Section WithCost.

(** [calculateTotalWorkflowCost] of utils/llmCostCalculator and the
    values it returns, and [agent.llmConfig.model] ([None] when reading
    it throws, for want of an [llmConfig]); the calculator and the Agent
    class are not among the source files. *)
Variable CostDetails : Type.
Variable calculateTotalWorkflowCost : list (string * ModelUsage) -> CostDetails.
Variable llmModel : Agent.t -> option string.

(** What [getWorkflowStats] returns. [duration] is the quotient
    [(endTime - startTime) / 1000] as a rational number. *)
Record Stats := mkStats {
  startTime : Z;
  endTime : Z;
  duration : QArith_base.Q;
  llmUsageStats : LlmUsageStats;
  iterationCount : Z;
  costDetails : CostDetails;
  taskCount : Z;
  agentCount : Z;
  teamName : string;
}.

(** A log entry. [usage] is [metadata.output.llmUsageStats] ([None] when
    reading it throws, for want of [metadata.output]); [result], [error]
    and [stats] are the metadata that the actions below write: [result]
    or [error], followed by the properties of the statistics. *)
Record log := mkLog {
  task : option Task.t;
  agent : option Agent.t;
  timestamp : Z;
  logDescription : string;
  workflowStatus : option WORKFLOW_STATUS_enum.t;
  logType : Log.LogType;
  agentStatus : option AGENT_STATUS_enum.t;
  usage : option Usage;
  result : option JsValue;
  error : option JsValue;
  stats : option Stats;
}.

Record state := mkState {
  teamWorkflowStatus : WORKFLOW_STATUS_enum.t;
  workflowResult : JsValue;
  name : string;
  agents : list Agent.t;
  tasks : list Task.t;
  workflowLogs : list log;
}.

(** The callback of [find] in [getWorkflowStats]. *)
Definition is_running_update (l : log) : bool :=
  bool_decide (logType l = Log.WorkflowStatusUpdate)
  && bool_decide (workflowStatus l = Some WORKFLOW_STATUS_enum.RUNNING).

(** [if (!modelUsageStats[modelCode]) { modelUsageStats[modelCode] = { 0,
    0, 0 } }] followed by the three [+=] on that entry: an entry that
    exists keeps its place, a new one goes last. *)
Fixpoint add_call (modelCode : string) (u : Usage)
    (modelUsageStats : list (string * ModelUsage))
  : list (string * ModelUsage) :=
  match modelUsageStats with
  | [] =>
      [(modelCode,
        mkModelUsage (0 + usage_inputTokens u) (0 + usage_outputTokens u)
                     (0 + 1))]
  | (k, v) :: rest =>
      if String.eqb k modelCode
      then (k, mkModelUsage (model_inputTokens v + usage_inputTokens u)
                            (model_outputTokens v + usage_outputTokens u)
                            (model_callsCount v + 1)) :: rest
      else (k, v) :: add_call modelCode u rest
  end.

(** The three variables that the loop over the logs updates. *)
Record counters := mkCounters {
  modelUsageStats : list (string * ModelUsage);
  usageStats : LlmUsageStats;
  iterations : Z;
}.

Definition no_counts : counters :=
  mkCounters [] (mkLlmUsageStats 0 0 0 0 0) 0.

(** The callback of [workflowLogs.forEach]; [None] is a TypeError. *)
Definition count (startTime : Z) (c : counters) (l : log) : option counters :=
  if bool_decide (logType l = Log.AgentStatusUpdate)
     && (startTime <=? timestamp l)
  then
    let s := usageStats c in
    match agentStatus l with
    | Some AGENT_STATUS_enum.THINKING_END =>
        a ← agent l;
        modelCode ← llmModel a;
        u ← usage l;
        Some (mkCounters
                (add_call modelCode u (modelUsageStats c))
                (mkLlmUsageStats (inputTokens s + usage_inputTokens u)
                                 (outputTokens s + usage_outputTokens u)
                                 (callsCount s + 1)
                                 (callsErrorCount s) (parsingErrors s))
                (iterations c))
    | Some AGENT_STATUS_enum.THINKING_ERROR =>
        Some (mkCounters (modelUsageStats c)
                (mkLlmUsageStats (inputTokens s) (outputTokens s)
                                 (callsCount s) (callsErrorCount s + 1)
                                 (parsingErrors s))
                (iterations c))
    | Some AGENT_STATUS_enum.ISSUES_PARSING_LLM_OUTPUT =>
        Some (mkCounters (modelUsageStats c)
                (mkLlmUsageStats (inputTokens s) (outputTokens s)
                                 (callsCount s) (callsErrorCount s)
                                 (parsingErrors s + 1))
                (iterations c))
    | Some AGENT_STATUS_enum.ITERATION_END =>
        Some (mkCounters (modelUsageStats c) s (iterations c + 1))
    | _ => Some c
    end
  else Some c.

Fixpoint count_all (startTime : Z) (c : counters) (logs : list log)
  : option counters :=
  match logs with
  | [] => Some c
  | l :: logs' =>
      match count startTime c l with
      | None => None
      | Some c' => count_all startTime c' logs'
      end
  end.

(** The start of the time window: the timestamp of the last RUNNING
    update, or the clock. *)
Definition window_start (now' : Z) (logs : list log) : Z :=
  match List.find is_running_update (List.rev logs) with
  | Some lastWorkflowRunningLog => timestamp lastWorkflowRunningLog
  | None => now'
  end.

(** [getWorkflowStats()]. [now] is the reading of the clock that gives
    [endTime], [now'] the one that is taken when no RUNNING update is
    found; [None] is a thrown TypeError. *)
Definition getWorkflowStats (now now' : Z) (s : state) : option Stats :=
  let endTime := now in
  let workflowLogs := workflowLogs s in
  let startTime := window_start now' workflowLogs in
  let duration := QArith_base.Qmake (endTime - startTime) 1000 in
  c ← count_all startTime no_counts workflowLogs;
  let costDetails := calculateTotalWorkflowCost (modelUsageStats c) in
  Some (mkStats startTime endTime duration (usageStats c) (iterations c)
                costDetails
                (Z.of_nat (length (tasks s)))
                (Z.of_nat (length (agents s)))
                (name s)).

(** [finishWorkflowAction()]; [t] is the timestamp of the new log.
    [tasks[tasks.length - 1].result] throws on a store without tasks. *)
Definition finishWorkflowAction (now now' t : Z) (s : state) : option state :=
  stats ← getWorkflowStats now now' s;
  let tasks := tasks s in
  let deliverableTask := List.find Task.isDeliverable (List.rev tasks) in
  lastTask ← at_index tasks (Z.of_nat (length tasks) - 1);
  let lastTaskResult := Task.result lastTask in
  let result :=
    match deliverableTask with
    | Some deliverableTask => Task.result deliverableTask
    | None => lastTaskResult
    end in
  let newLog :=
    mkLog None None t
          ("Workflow finished with result: " +:+ Js.to_string result)
          (Some WORKFLOW_STATUS_enum.FINISHED) Log.WorkflowStatusUpdate
          None None (Some result) None (Some stats) in
  Some (mkState WORKFLOW_STATUS_enum.FINISHED result (name s) (agents s)
                tasks (workflowLogs s ++ [newLog])).

(** The log and the state that the three error handlers have in common:
    [status] is the workflow status, [logDescription] the text before
    [error.message], [reported] what goes into [metadata.error]. Reading
    [error.message] throws on a missing error. In
    [handleWorkflowBlocked] and [handleWorkflowAborted] the metadata end
    with [teamName], [taskCount] and [agentCount], which hold what the
    statistics before them hold. *)
Definition fail_with (status : WORKFLOW_STATUS_enum.t)
    (logDescription : string) (reported : JsValue -> JsValue)
    (now now' t : Z) (task : Task.t) (error : JsValue) (s : state)
  : option state :=
  if Js.nullish error then None
  else
    let message := Js.prop "message" error in
    stats ← getWorkflowStats now now' s;
    let newLog :=
      mkLog (Some task) (Task.agent task) t
            (logDescription +:+ Js.to_string message)
            (Some status) Log.WorkflowStatusUpdate
            None None None (Some (reported error)) (Some stats) in
    Some (mkState status (workflowResult s) (name s) (agents s) (tasks s)
                  (workflowLogs s ++ [newLog])).

Definition handleWorkflowError : Z -> Z -> Z -> Task.t -> JsValue -> state
                                 -> option state :=
  fail_with WORKFLOW_STATUS_enum.ERRORED "Workflow error encountered: "
            (fun error => error).

Definition handleWorkflowBlocked : Z -> Z -> Z -> Task.t -> JsValue -> state
                                   -> option state :=
  fail_with WORKFLOW_STATUS_enum.BLOCKED "Workflow blocked: "
            (Js.prop "message").

Definition handleWorkflowAborted : Z -> Z -> Z -> Task.t -> JsValue -> state
                                   -> option state :=
  fail_with WORKFLOW_STATUS_enum.STOPPED "Workflow aborted: "
            (Js.prop "message").

End WithCost.

Arguments mkStats {CostDetails} _ _ _ _ _ _ _ _ _.
Arguments startTime {CostDetails} _.
Arguments endTime {CostDetails} _.
Arguments duration {CostDetails} _.
Arguments llmUsageStats {CostDetails} _.
Arguments iterationCount {CostDetails} _.
Arguments costDetails {CostDetails} _.
Arguments taskCount {CostDetails} _.
Arguments agentCount {CostDetails} _.
Arguments teamName {CostDetails} _.
Arguments mkLog {CostDetails} _ _ _ _ _ _ _ _ _ _ _.
Arguments task {CostDetails} _.
Arguments agent {CostDetails} _.
Arguments timestamp {CostDetails} _.
Arguments logDescription {CostDetails} _.
Arguments workflowStatus {CostDetails} _.
Arguments logType {CostDetails} _.
Arguments agentStatus {CostDetails} _.
Arguments usage {CostDetails} _.
Arguments result {CostDetails} _.
Arguments error {CostDetails} _.
Arguments stats {CostDetails} _.
Arguments mkState {CostDetails} _ _ _ _ _ _.
Arguments teamWorkflowStatus {CostDetails} _.
Arguments workflowResult {CostDetails} _.
Arguments name {CostDetails} _.
Arguments agents {CostDetails} _.
Arguments tasks {CostDetails} _.
Arguments workflowLogs {CostDetails} _.
Arguments is_running_update {CostDetails} _.
Arguments window_start {CostDetails} _ _.

End Workflow.

(** ** The state-threaded base class
    (workflowExecution/executionStrategies/workflowExecutionStrategy.js) *)

Module WorkflowExecutionStrategy.

(** [_isTaskAgentBusy(currentTask, tasks)]: a task of [tasks] holds when it
    has an agent, is not the current task, has the agent of the current
    task and is DOING. [None] is the TypeError of [currentTask.agent.id]
    on a current task without an agent, which is read only for a task
    that passed the first two tests. *)
Fixpoint _isTaskAgentBusy (currentTask : Task.t) (tasks : list Task.t)
  : option bool :=
  match tasks with
  | [] => Some false
  | t :: tasks' =>
      match Task.agent t with
      | None => _isTaskAgentBusy currentTask tasks'
      | Some a =>
          if negb (String.eqb (Task.id t) (Task.id currentTask)) then
            match Task.agent currentTask with
            | None => None
            | Some current =>
                if String.eqb (Agent.id a) (Agent.id current)
                   && Task.has_status TASK_STATUS_enum.DOING t
                then Some true
                else _isTaskAgentBusy currentTask tasks'
            end
          else _isTaskAgentBusy currentTask tasks'
      end
  end.

Definition getQueueConcurrency : Z := 1.

(** The arguments of the call [teamStoreState.addTaskToExecutionQueue(agent,
    task, context)]; the action is not among the source files. *)
Record queued (Context : Type) := mkQueued {
  queued_agent : option Agent.t;
  queued_task : Task.t;
  queued_context : Context;
}.
Arguments mkQueued {Context} _ _ _.
Arguments queued_agent {Context} _.
Arguments queued_task {Context} _.
Arguments queued_context {Context} _.

Section Execute.

(** [cloneAgent] of utils/agents, and [getContextForTask] of the concrete
    strategy ([None] when it throws, as the one of this class does). *)
Variable cloneAgent : Agent.t -> Agent.t.
Variable Context : Type.
Variable getContextForTask : State.t -> Task.t -> option Context.

(** [_executeTask(teamStoreState, task)]: the call it ends in, or [None]
    when it throws before. *)
Definition _executeTask (teamStoreState : State.t) (task : Task.t)
  : option (queued Context) :=
  shouldClone ← _isTaskAgentBusy task (State.tasks teamStoreState);
  let agent :=
    if shouldClone : bool then option_map cloneAgent (Task.agent task)
    else Task.agent task in
  context ← getContextForTask teamStoreState task;
  Some (mkQueued agent task context).

End Execute.

End WorkflowExecutionStrategy.

(** ** The Jina tool (tools/jinaUrlToMarkdown) *)

Module JinaUrlToMarkdown.

(** The properties that the constructor sets on the tool, apart from the
    zod schema and the ky client. *)
Record t := mk {
  name : string;
  apiKey : JsValue;
  options : JsValue;
  description : string;
  headers : list (string * JsValue);
}.

(** [constructor(fields)], after the constructor of the base class Tool
    (not among the source files); [None] is the TypeError of
    [fields.apiKey] on a missing [fields]. *)
Definition constructor (fields : JsValue) : option t :=
  if Js.nullish fields then None
  else
    let apiKey := Js.prop "apiKey" fields in
    let options :=
      if Js.truthy (Js.prop "options" fields) then Js.prop "options" fields
      else JsObj [] in
    let headers := [("Content-Type", JsStr "application/json")] in
    let headers :=
      if Js.truthy apiKey
      then Js.set "Authorization"
                  (JsStr ("Bearer " +:+ Js.to_string apiKey)) headers
      else headers in
    Some (mk "jina-url-to-markdown" apiKey options
             ("Fetches web content from a specified URL and returns it in Markdown format. Input should be a JSON object with a "
                +:+ String Js.dquote "url" +:+ String Js.dquote ".")
             headers).

(** The request [httpClient.post(endpoint, { json, headers })]. *)
Record request := mkRequest {
  endpoint : string;
  json : list (string * JsValue);
  request_headers : list (string * JsValue);
}.

(** What [httpClient.post(...).json()] rejects with: an [HTTPError] whose
    response has the given status, or any other value. *)
Inductive thrown :=
| HTTPError (status : Z)
| OtherError (error : JsValue).

(** How [httpClient.post(...).json()] settles. *)
Inductive outcome :=
| Resolves (response : JsValue)
| Rejects (error : thrown).

(** The request that [_call] builds for an input that is an object. *)
Definition request_of (this : t) (input : JsValue) : request :=
  mkRequest "https://r.jina.ai/"
            (Js.extend [("url", Js.prop "url" input)]
                       (Js.spread (options this)))
            (headers this).

(** The [catch] block; [None] when it throws itself, on an error without
    properties ([null], [undefined]). *)
Definition caught (error : thrown) : option JsValue :=
  match error with
  | HTTPError statusCode =>
      let errorType :=
        if (400 <=? statusCode) && (statusCode <? 500) then "Client Error"
        else if 500 <=? statusCode then "Server Error"
        else "Unknown" in
      Some (JsStr ("API request failed: " +:+ errorType +:+ " ("
                     +:+ Js.string_of_Z statusCode +:+ ")"))
  | OtherError error =>
      if Js.nullish error then None
      else Some (JsStr ("An unexpected error occurred: "
                          +:+ Js.to_string (Js.prop "message" error)))
  end.

Section Call.

(** The ky client, and the message of the TypeError that the engine
    throws for [input.url] on a missing input. *)
Variable post : request -> outcome.
Variable typeErrorMessage : string.

(** [_call(input)]: what the promise resolves to; [None] when it
    rejects. *)
Definition _call (this : t) (input : JsValue) : option JsValue :=
  if Js.nullish input
  then caught (OtherError (JsObj [("message", JsStr typeErrorMessage)]))
  else
    match post (request_of this input) with
    | Resolves response =>
        let data :=
          if Js.nullish response then JsUndefined
          else Js.prop "data" response in
        Some (if Js.truthy data then data
              else JsStr "The API returned an empty response.")
    | Rejects error => caught error
    end.

End Call.

End JinaUrlToMarkdown.

(** ** The website search tool (tools/websiteSearch) *)

Module WebsiteSearch.

(** How a promise of the RAG toolkit settles. *)
Inductive settled :=
| Fulfilled (value : JsValue)
| Rejected (error : JsValue).

(** [v === ''] *)
Definition is_empty_string (v : JsValue) : bool :=
  match v with
  | JsStr EmptyString => true
  | _ => false
  end.

Definition ERROR_MISSING_URL : string :=
  "ERROR_MISSING_URL: No url was provided for analysis. Agent should provide valid url in the 'url' field.".

Definition ERROR_MISSING_QUERY : string :=
  "ERROR_MISSING_QUERY: No question was provided. Agent should provide a question in the 'query' field.".

Section Call.

(** The RAG toolkit (not among the source files): its state, and its two
    methods, each giving the toolkit after the call and how the promise
    settled. [addDocuments] receives the [source] of the one document
    [{ source, type: 'web' }]. *)
Variable Toolkit : Type.
Variable addDocuments : JsValue -> Toolkit -> Toolkit * settled.
Variable askQuestion : JsValue -> Toolkit -> Toolkit * settled.

(** The two properties of the tool that [_call] uses. *)
Record t := mk {
  url : JsValue;
  ragToolkit : Toolkit;
}.

(** The [catch] block; [None] when reading [error.message] throws. *)
Definition caught (error : JsValue) : option JsValue :=
  if Js.nullish error then None
  else Some (JsStr ("ERROR_WEBSITE_SEARCH_PROCESSING: An unexpected error occurred: in WebsiteSearch tool. Details: "
                      +:+ Js.to_string (Js.prop "message" error)
                      +:+ ". Agent should verify content format and query validity.")).

(** [_call(input)]: the tool after the call, and what the promise
    resolves to ([None] when it rejects). Destructuring a missing input
    throws before anything is done. *)
Definition _call (this : t) (input : JsValue) : t * option JsValue :=
  if Js.nullish input then (this, None)
  else
    let url' := Js.prop "url" input in
    let query := Js.prop "query" input in
    let this1 :=
      if Js.truthy url' && negb (is_empty_string url')
      then mk url' (ragToolkit this) else this in
    if negb (Js.truthy (url this1)) || is_empty_string (url this1)
    then (this1, Some (JsStr ERROR_MISSING_URL))
    else if negb (Js.truthy query) || is_empty_string query
    then (this1, Some (JsStr ERROR_MISSING_QUERY))
    else
      match addDocuments (url this1) (ragToolkit this1) with
      | (k1, Rejected error) => (mk (url this1) k1, caught error)
      | (k1, Fulfilled _) =>
          match askQuestion query k1 with
          | (k2, Rejected error) => (mk (url this1) k2, caught error)
          | (k2, Fulfilled response) => (mk (url this1) k2, Some response)
          end
      end.

End Call.

Arguments mk {Toolkit} _ _.
Arguments url {Toolkit} _.
Arguments ragToolkit {Toolkit} _.

End WebsiteSearch.

(** * Vocabulary of the statements *)

(** ** Sample inputs *)

(** A task without an agent and without a [dependsOn] list. *)
Definition sample_task (i : string) (s : TASK_STATUS_enum.t) : Task.t :=
  Task.mk i ("describe " +:+ i) s None None false JsUndefined (Some [])
          JsUndefined None.

(** An agent that has not worked yet; the object is named as its id. *)
Definition sample_agent (i name : string) : Agent.t :=
  Agent.mk i name AGENT_STATUS_enum.INITIAL [] None 0 i.

(** A clone of an agent: another object with the id and the status of the
    agent, and nothing done yet. *)
Definition sample_clone (a : Agent.t) : Agent.t :=
  Agent.mk (Agent.id a) "clone" (Agent.status a) [] None 0
           ("clone of " +:+ Agent.self a).

(** A task with an agent of its own and a list of prerequisites. *)
Definition dependent_task (i : string) (s : TASK_STATUS_enum.t)
    (dependsOn : list string) : Task.t :=
  Task.mk i ("describe " +:+ i) s (Some dependsOn)
          (Some (sample_agent ("agent-" +:+ i) i))
          false JsUndefined (Some []) JsUndefined None.

(** A fresh store of the team "team" with one task to do. *)
Definition sample_state : State.t :=
  State.set_tasks [sample_task "t1" TASK_STATUS_enum.TODO]
    (TeamStore.createTeamStore
       (State.mkInitial None None (Some "team") None None None None None None
                        None None None None None)).

(** A state in which the workflow runs: one task is done, one log is
    written. *)
Definition running_state : State.t :=
  State.set_teamWorkflowStatus WORKFLOW_STATUS_enum.RUNNING
    (State.set_workflowLogs [TeamStore.initialLog 7 "team" JsUndefined]
       (State.set_tasks [sample_task "t1" TASK_STATUS_enum.DONE]
                        sample_state)).

(** A state in which task [t1] waits for its validation and [t2] is still
    to do. *)
Definition awaiting_state : State.t :=
  State.set_tasks [sample_task "t1" TASK_STATUS_enum.AWAITING_VALIDATION;
                   sample_task "t2" TASK_STATUS_enum.TODO]
                  running_state.

(** Four tasks: [A] is done, [B] waits for [A], [C] waits for [B], and [D]
    declares no prerequisites. *)
Definition four_tasks : list Task.t :=
  [dependent_task "A" TASK_STATUS_enum.DONE [];
   dependent_task "B" TASK_STATUS_enum.TODO ["A"];
   dependent_task "C" TASK_STATUS_enum.TODO ["B"];
   sample_task "D" TASK_STATUS_enum.TODO].


(** The chain A <- B <- C with every task done and A sent back for
    revision. *)
Definition revised_chain : list Task.t :=
  [dependent_task "A" TASK_STATUS_enum.REVISE [];
   dependent_task "B" TASK_STATUS_enum.DONE ["A"];
   dependent_task "C" TASK_STATUS_enum.DONE ["B"]].

(** Six tasks without prerequisites, each with its own agent, in a store
    that keeps the default [maxConcurrency]. *)
Definition six_tasks : list Task.t :=
  List.map (fun i => dependent_task i TASK_STATUS_enum.TODO [])
           ["t1"; "t2"; "t3"; "t4"; "t5"; "t6"].

(** The store of the six tasks. *)
Definition six_tasks_state : State.t :=
  State.set_tasks six_tasks sample_state.

(** A DONE log of a task with its result, as the agent writes it. *)
Definition done_log (task : Task.t) (result : JsValue) : Log.t :=
  Log.mk 0 (Some task) (Task.agent task) None None "Task completed."
         (Log.Known TASK_STATUS_enum.DONE) Log.Absent None
         (Some (Log.mkMetadata None JsUndefined None result))
         Log.TaskStatusUpdate.

(** Three tasks in a row; the first two are done, with a string and an
    object for results. *)
Definition finished_row : list Task.t :=
  [sample_task "first" TASK_STATUS_enum.DONE;
   sample_task "second" TASK_STATUS_enum.DONE;
   sample_task "third" TASK_STATUS_enum.TODO].

(** The DONE logs of the first two tasks of [finished_row]. *)
Definition finished_logs : list Log.t :=
  [done_log (sample_task "first" TASK_STATUS_enum.DONE) (JsStr "one");
   done_log (sample_task "second" TASK_STATUS_enum.DONE)
            (JsObj [("n", JsNum (Js.number 2))])].

(** An agent with an API key and an environment. *)
Definition secret_agent : JsValue :=
  JsObj [("id", JsStr "agent-1"); ("name", JsStr "Ada");
         ("env", JsObj [("OPENAI_API_KEY", JsStr "sk-secret")]);
         ("llmConfig", JsObj [("model", JsStr "m"); ("apiKey", JsStr "sk-secret")]);
         ("agentInstance",
          JsObj [("id", JsStr "agent-1");
                 ("llmConfig", JsObj [("apiKey", JsStr "sk-secret")])])].

(** A task of that agent, with times, hooks and a feedback record. *)
Definition timed_task : JsValue :=
  JsObj [("id", JsStr "task-1"); ("description", JsStr "write");
         ("agent", secret_agent);
         ("startTime", JsNum (Js.number 1700000000));
         ("duration", JsNum (Js.number 12)); ("hooks", JsObj []);
         ("feedbackHistory",
          JsArr [JsObj [("content", JsStr "redo");
                        ("timestamp", JsNum (Js.number 5))]])].

(** A log about that task and that agent. *)
Definition timed_log : JsValue :=
  JsObj [("timestamp", JsNum (Js.number 1700000001)); ("task", timed_task);
         ("agent", secret_agent);
         ("metadata", JsObj [("duration", JsNum (Js.number 3));
                             ("feedback",
                              JsObj [("timestamp", JsNum (Js.number 5))])]);
         ("logType", JsStr "TaskStatusUpdate")].

(** An agent without an [llmConfig], and a log about it without
    metadata. *)
Definition bare_agent : JsValue :=
  JsObj [("id", JsStr "agent-2"); ("name", JsStr "Bob")].

Definition bare_log : JsValue :=
  JsObj [("timestamp", JsNum (Js.number 1700000002)); ("agent", bare_agent);
         ("logType", JsStr "AgentStatusUpdate")].

(** A store state with that agent and that log. *)
Definition bare_state : Snapshot.state :=
  Snapshot.mkState (JsStr "RUNNING") JsNull (JsStr "team")
                   [bare_agent] [] [bare_log]
                   (JsObj []) (JsStr "") JsUndefined.

(** A finished store state with that agent, that task and that log. *)
Definition secret_state : Snapshot.state :=
  Snapshot.mkState (JsStr "FINISHED") (JsStr "done") (JsStr "team")
                   [secret_agent] [timed_task] [timed_log]
                   (JsObj []) (JsStr "") JsUndefined.

(** ** Status updates *)

(** [new] has every property of [old] except, possibly, the status. *)
Definition same_but_status (old new : Task.t) : Prop :=
  Task.id new = Task.id old
  /\ Task.description new = Task.description old
  /\ Task.dependsOn new = Task.dependsOn old
  /\ Task.agent new = Task.agent old
  /\ Task.isDeliverable new = Task.isDeliverable old
  /\ Task.result new = Task.result old
  /\ Task.feedbackHistory new = Task.feedbackHistory old
  /\ Task.inputs new = Task.inputs old
  /\ Task.interpolatedTaskDescription new
     = Task.interpolatedTaskDescription old.

(** The relation between a task before and after an update that sets the
    status of exactly the tasks selected by [P]: a selected task has the
    status [status] and is otherwise what it was, any other task is the
    old one. *)
Definition status_set_where (P : Task.t -> Prop) (status : TASK_STATUS_enum.t)
    (old new : Task.t) : Prop :=
  (P old -> Task.status new = status /\ same_but_status old new)
  /\ (~ P old -> new = old).

(** What the REVISE of a task with id [revisedId] makes of a task of the
    store under the sequential strategy, [later] being the ids of the
    tasks listed after the revised one: a task with the id of the revised
    one is DOING, another task with one of the later ids is TODO, both
    otherwise what they were, and any other task is the old one. *)
Definition revised_where (revisedId : string) (later : list string)
    (old new : Task.t) : Prop :=
  (Task.id old = revisedId ->
   Task.status new = TASK_STATUS_enum.DOING /\ same_but_status old new)
  /\ (Task.id old <> revisedId -> In (Task.id old) later ->
      Task.status new = TASK_STATUS_enum.TODO /\ same_but_status old new)
  /\ (Task.id old <> revisedId -> ~ In (Task.id old) later -> new = old).


(** ** The reset of the workflow *)

(** [new] is the agent object [old] after its reset: INITIAL, with an
    empty history, no feedback message and no iterations made. *)
Definition agent_reset (old new : Agent.t) : Prop :=
  Agent.status new = AGENT_STATUS_enum.INITIAL
  /\ Agent.interactionsHistory new = []
  /\ Agent.lastFeedbackMessage new = None
  /\ Agent.currentIterations new = 0
  /\ Agent.id new = Agent.id old
  /\ Agent.name new = Agent.name old
  /\ Agent.self new = Agent.self old.

(** The agent object [a] is one of the agents of the store. *)
Definition agent_of_store (agents : list Agent.t) (a : Agent.t) : Prop :=
  In (Agent.self a) (List.map Agent.self agents).

(** [new] is the task [old] after a reset of the workflow of a store that
    holds [agents]: it is TODO; its agent, when it is one of the agents of
    the store, has been reset with them, and is otherwise as it was; the
    other properties are those of [old]. *)
Definition task_reset (agents : list Agent.t) (old new : Task.t) : Prop :=
  Task.status new = TASK_STATUS_enum.TODO
  /\ match Task.agent old with
     | None => Task.agent new = None
     | Some a =>
         exists a',
           Task.agent new = Some a'
           /\ (agent_of_store agents a -> agent_reset a a')
           /\ (~ agent_of_store agents a -> a' = a)
     end
  /\ Task.id new = Task.id old
  /\ Task.description new = Task.description old
  /\ Task.dependsOn new = Task.dependsOn old
  /\ Task.isDeliverable new = Task.isDeliverable old
  /\ Task.result new = Task.result old
  /\ Task.feedbackHistory new = Task.feedbackHistory old
  /\ Task.inputs new = Task.inputs old
  /\ Task.interpolatedTaskDescription new
     = Task.interpolatedTaskDescription old.

(** The relation between a task before and after an update that replaces
    the tasks with id [taskId] by [updatedTask]. *)
Definition replaced_where (taskId : string) (updatedTask old new : Task.t)
  : Prop :=
  (Task.id old = taskId -> new = updatedTask)
  /\ (Task.id old <> taskId -> new = old).

(** ** Dependencies and task objects *)

(** [task] names [on] in its [dependsOn]. *)
Definition depends_directly (task on : Task.t) : Prop :=
  exists dependsOn,
    Task.dependsOn task = Some dependsOn /\ In (Task.id on) dependsOn.

(** [task] reaches [on] through a chain of [dependsOn] references inside
    [tasks]. *)
Inductive depends_transitively (tasks : list Task.t) (task on : Task.t)
  : Prop :=
| depends_here :
    depends_directly task on -> depends_transitively tasks task on
| depends_through (via : Task.t) :
    In via tasks ->
    depends_directly task via ->
    depends_transitively tasks via on ->
    depends_transitively tasks task on.

(** A task of the store shares its id with a task of [all] that names
    [revised] in its [dependsOn]: a direct dependent of [revised]. *)
Definition directly_dependent (revised : Task.t) (all : list Task.t)
    (task : Task.t) : Prop :=
  exists dependent,
    In dependent all
    /\ Task.id dependent = Task.id task
    /\ depends_directly dependent revised.

(** Every reference of [rs] points to an object. *)
Definition valid_refs (objs : list Task.t)
    (rs : list HierarchyExecutionStrategy.ref) : Prop :=
  Forall (fun r => (r < length objs)%nat) rs.

(** A world in which the store's tasks and the array [allTasks] point to
    objects. *)
Definition valid_world (w : HierarchyExecutionStrategy.World)
    (allTasks : list HierarchyExecutionStrategy.ref) : Prop :=
  valid_refs (HierarchyExecutionStrategy.objects w)
             (HierarchyExecutionStrategy.taskRefs w)
  /\ valid_refs (HierarchyExecutionStrategy.objects w) allTasks.

(** The relation that [remap] establishes between a reference of the old
    array and the reference at the same place of the new one: [n] is the
    number of objects before the call, [objs'] the objects after it. *)
Definition remapped (p : Task.t -> bool) (status : TASK_STATUS_enum.t)
    (n : nat) (objs' : list Task.t)
    (r q : HierarchyExecutionStrategy.ref) : Prop :=
  exists task,
    objs' !! r = Some task
    /\ ((p task = false /\ q = r)
        \/ (p task = true /\ (n <= q)%nat
            /\ objs' !! q = Some (Task.set_status status task))).

(** Every task of the store whose id satisfies [P] is an object made after
    the first [n0] ones, and is BLOCKED. *)
Definition blocked_fresh (n0 : nat) (P : string -> Prop)
    (w : HierarchyExecutionStrategy.World) : Prop :=
  forall q task,
    In q (HierarchyExecutionStrategy.taskRefs w) ->
    HierarchyExecutionStrategy.objects w !! q = Some task ->
    P (Task.id task) ->
    (n0 <= q)%nat /\ Task.status task = TASK_STATUS_enum.BLOCKED.

(** What a tick without changed tasks makes of a task of the store whose
    ready tasks are [ready]: a ready task is DOING, with the id and the
    agent it had, any other task is the old one. *)
Definition started_where (ready : list Task.t) (old new : Task.t) : Prop :=
  (In old ready ->
   Task.status new = TASK_STATUS_enum.DOING
   /\ Task.id new = Task.id old
   /\ Task.agent new = Task.agent old)
  /\ (~ In old ready -> new = old).

(** The object behind [r] is not DOING. *)
Definition not_doing (w : HierarchyExecutionStrategy.World)
    (r : HierarchyExecutionStrategy.ref) : Prop :=
  exists task,
    HierarchyExecutionStrategy.deref w r = Some task
    /\ Task.status task <> TASK_STATUS_enum.DOING.

(** The object behind [r] can be handed to its agent: it has an agent and a
    feedback history. *)
Definition runnable (w : HierarchyExecutionStrategy.World)
    (r : HierarchyExecutionStrategy.ref) : Prop :=
  exists task a h,
    HierarchyExecutionStrategy.deref w r = Some task
    /\ Task.agent task = Some a
    /\ Task.feedbackHistory task = Some h.

(** [w'] has the store array and the objects of [w], up to the objects
    behind [rs], which keep their ids, and to the other store
    properties. *)
Definition same_except (rs : list HierarchyExecutionStrategy.ref)
    (w w' : HierarchyExecutionStrategy.World) : Prop :=
  HierarchyExecutionStrategy.taskRefs w' = HierarchyExecutionStrategy.taskRefs w
  /\ length (HierarchyExecutionStrategy.objects w')
     = length (HierarchyExecutionStrategy.objects w)
  /\ (forall q, ~ In q rs ->
        HierarchyExecutionStrategy.objects w' !! q
        = HierarchyExecutionStrategy.objects w !! q)
  /\ (forall q task',
        HierarchyExecutionStrategy.objects w' !! q = Some task' ->
        exists task,
          HierarchyExecutionStrategy.objects w !! q = Some task
          /\ Task.id task = Task.id task').

(** ** The derived context, as the specification words it *)

(** A log of kind TaskStatusUpdate that records the status DONE. *)
Definition is_done_update (log : Log.t) : bool :=
  bool_decide (Log.logType log = Log.TaskStatusUpdate)
  && match Log.taskStatus log with
     | Log.Known TASK_STATUS_enum.DONE => true
     | _ => false
     end.

(** A DONE log of the task with id [i]. *)
Definition done_for (i : string) (log : Log.t) : bool :=
  is_done_update log
  && match Log.task log with
     | Some logTask => String.eqb (Task.id logTask) i
     | None => false
     end.

(** The latest DONE log of the task with id [i]. *)
Fixpoint latest_done (i : string) (logs : list Log.t) : option Log.t :=
  match logs with
  | [] => None
  | log :: logs' =>
      match latest_done i logs' with
      | Some later => Some later
      | None => if done_for i log then Some log else None
      end
  end.

(** What a task at position [k] contributes: nothing when it never was
    DONE, else the description and the result of its latest DONE log. *)
Definition contribution (logs : list Log.t) (k : nat) (task : Task.t)
  : list TeamStore.taskResult :=
  match latest_done (Task.id task) logs with
  | Some log =>
      match Log.task log, Log.metadata log with
      | Some logTask, Some metadata =>
          [TeamStore.mkTaskResult (Task.description logTask)
                                  (Log.result metadata) (Z.of_nat k)]
      | _, _ => []
      end
  | None => []
  end.

(** The contributions of the tasks [tasks], the first of which is at
    position [k], in declaration order. *)
Fixpoint contributions (logs : list Log.t) (k : nat) (tasks : list Task.t)
  : list TeamStore.taskResult :=
  match tasks with
  | [] => []
  | task :: tasks' =>
      contribution logs k task ++ contributions logs (S k) tasks'
  end.

(** The entry of a finished task, as C8 words it:
    "Task: {description}\nResult: {result}\n", a result of type object
    (an object, an array or [null]) being serialized as JSON and any other
    result printed as a template literal prints it. *)
Definition entry_text (r : TeamStore.taskResult) : string :=
  "Task: " +:+ TeamStore.taskDescription r +:+ Js.nl
    +:+ "Result: "
    +:+ match TeamStore.result r with
        | JsNull | JsArr _ | JsObj _ => Js.JSON_stringify (TeamStore.result r)
        | other => Js.to_string other
        end
    +:+ Js.nl.

(** The context that C8 words: the entries of the tasks before position
    [n], one after the other. *)
Definition concatenated_context (logs : list Log.t) (tasks : list Task.t)
    (n : nat) : string :=
  String.concat "" (List.map entry_text
                      (contributions logs 0 (firstn n tasks))).

(** The context with the line feed of [join] between the entries. *)
Definition joined_context (logs : list Log.t) (tasks : list Task.t)
    (n : nat) : string :=
  Js.join Js.nl (List.map entry_text
                   (contributions logs 0 (firstn n tasks))).

(** [m.get(k)] on the [taskResults] map. *)
Fixpoint Map_get (k : string) (m : list (string * TeamStore.taskResult))
  : option TeamStore.taskResult :=
  match m with
  | [] => None
  | (k', v) :: m' => if String.eqb k' k then Some v else Map_get k m'
  end.

(** The id [i] is the id of a task before position [n]. *)
Definition before (tasks : list Task.t) (n : Z) (i : string) : bool :=
  let taskIndex := findIndex (Task.has_id i) tasks in
  negb (taskIndex =? -1) && (taskIndex <? n).

(** A log entry that the derivation of the context for the task at
    position [n] cannot read: a DONE update without a task, or a DONE
    update of a task before position [n] without metadata. *)
Definition unreadable (tasks : list Task.t) (n : Z) (log : Log.t) : Prop :=
  is_done_update log = true
  /\ (Log.task log = None
      \/ exists logTask,
           Log.task log = Some logTask
           /\ before tasks n (Task.id logTask) = true
           /\ Log.metadata log = None).

(** The map value that a DONE log gives rise to. *)
Definition result_of (tasks : list Task.t) (i : string) (log : Log.t)
  : option TeamStore.taskResult :=
  match Log.task log, Log.metadata log with
  | Some logTask, Some metadata =>
      Some (TeamStore.mkTaskResult (Task.description logTask)
                                   (Log.result metadata)
                                   (findIndex (Task.has_id i) tasks))
  | _, _ => None
  end.

(** Strictly earlier in declaration order. *)
Definition earlier (a b : TeamStore.taskResult) : Prop :=
  TeamStore.index a < TeamStore.index b.

(** ** Redaction in the cleaned snapshot *)

(** The property [k] of [v] holds the sentinel. *)
Definition redacted (k : string) (v : JsValue) : Prop :=
  Js.prop k v = Snapshot.REDACTED.

(** [cleaned] stands for the [llmConfig] [original] in the snapshot: an
    object whose [apiKey] is the sentinel when there is an [llmConfig], the
    empty object when there is none. *)
Definition llmConfig_cleaned (original cleaned : JsValue) : Prop :=
  if Js.truthy original then redacted "apiKey" cleaned
  else cleaned = JsObj [].

(** [cleaned] stands for the agent [original] in the snapshot: [id] and
    [env] are the sentinel, the [llmConfig] is cleaned, and so are the three
    of the [agentInstance], which is the empty object when the agent has
    none. *)
Definition agent_cleaned (original cleaned : JsValue) : Prop :=
  redacted "id" cleaned
  /\ redacted "env" cleaned
  /\ llmConfig_cleaned (Js.prop "llmConfig" original)
                       (Js.prop "llmConfig" cleaned)
  /\ (if Js.truthy (Js.prop "agentInstance" original)
      then redacted "id" (Js.prop "agentInstance" cleaned)
           /\ redacted "env" (Js.prop "agentInstance" cleaned)
           /\ llmConfig_cleaned
                (Js.prop "llmConfig" (Js.prop "agentInstance" original))
                (Js.prop "llmConfig" (Js.prop "agentInstance" cleaned))
      else Js.prop "agentInstance" cleaned = JsObj []).

(** The [agent] of a task or of a log in the snapshot: the cleaned agent,
    or [null] when there is none. *)
Definition agent_of_cleaned (original cleaned : JsValue) : Prop :=
  if Js.truthy (Js.prop "agent" original)
  then agent_cleaned (Js.prop "agent" original) (Js.prop "agent" cleaned)
  else Js.prop "agent" cleaned = JsNull.

(** [cleaned] stands for the task [original] in the snapshot: [id] and
    the three times are the sentinel, the feedback records are as many as
    they were (none for a task without history) and have the sentinel for
    [timestamp], and the agent is cleaned. *)
Definition task_cleaned (original cleaned : JsValue) : Prop :=
  redacted "id" cleaned
  /\ redacted "duration" cleaned
  /\ redacted "startTime" cleaned
  /\ redacted "endTime" cleaned
  /\ (exists fs,
        Js.prop "feedbackHistory" cleaned = JsArr fs
        /\ Forall (redacted "timestamp") fs
        /\ length fs = match Js.prop "feedbackHistory" original with
                       | JsArr originals => length originals
                       | _ => 0%nat
                       end)
  /\ agent_of_cleaned original cleaned.

(** [cleaned] stands for the metadata [original] of a log in the
    snapshot: the three times are the sentinel and so is the [timestamp]
    of the feedback, which is the empty object when there is none; a log
    without metadata has the empty object. *)
Definition metadata_cleaned (original cleaned : JsValue) : Prop :=
  if Js.truthy original
  then redacted "duration" cleaned
       /\ redacted "startTime" cleaned
       /\ redacted "endTime" cleaned
       /\ (if Js.truthy (Js.prop "feedback" original)
           then redacted "timestamp" (Js.prop "feedback" cleaned)
           else Js.prop "feedback" cleaned = JsObj [])
  else cleaned = JsObj [].

(** [cleaned] stands for the log [original] in the snapshot. *)
Definition log_cleaned (original cleaned : JsValue) : Prop :=
  redacted "timestamp" cleaned
  /\ agent_of_cleaned original cleaned
  /\ (if Js.truthy (Js.prop "task" original)
      then task_cleaned (Js.prop "task" original) (Js.prop "task" cleaned)
      else Js.prop "task" cleaned = JsNull)
  /\ metadata_cleaned (Js.prop "metadata" original)
                      (Js.prop "metadata" cleaned).

(** The shape of a task on which [getCleanedState] does not throw: it is
    not [null] or [undefined], and its [feedbackHistory], if there is one,
    is an array. *)
Definition task_shaped (t : JsValue) : Prop :=
  Js.nullish t = false
  /\ (Js.truthy (Js.prop "feedbackHistory" t) = true ->
      exists fs, Js.prop "feedbackHistory" t = JsArr fs).

(** A log that is an object, with a task of that shape if it has one. *)
Definition log_shaped (l : JsValue) : Prop :=
  Js.nullish l = false
  /\ (Js.truthy (Js.prop "task" l) = true -> task_shaped (Js.prop "task" l)).

(** A state whose agents, tasks and logs have these shapes. *)
Definition state_shaped (s : Snapshot.state) : Prop :=
  Forall (fun a => Js.nullish a = false) (Snapshot.agents s)
  /\ Forall task_shaped (Snapshot.tasks s)
  /\ Forall log_shaped (Snapshot.workflowLogs s).

(** A snapshot of the state [s]: the nine fields, with the agents, the
    tasks and the logs cleaned one by one and the six plain fields
    copied. *)
Definition snapshot_redacted (s : Snapshot.state)
    (snapshot : list (string * JsValue)) : Prop :=
  Js.keys snapshot
  = ["teamWorkflowStatus"; "workflowResult"; "name"; "agents"; "tasks";
     "workflowLogs"; "inputs"; "workflowContext"; "logLevel"]
  /\ (exists cleanedAgents cleanedTasks cleanedWorkflowLogs,
        Js.lookup "agents" snapshot = Some (JsArr cleanedAgents)
        /\ Forall2 agent_cleaned (Snapshot.agents s) cleanedAgents
        /\ Js.lookup "tasks" snapshot = Some (JsArr cleanedTasks)
        /\ Forall2 task_cleaned (Snapshot.tasks s) cleanedTasks
        /\ Js.lookup "workflowLogs" snapshot
           = Some (JsArr cleanedWorkflowLogs)
        /\ Forall2 log_cleaned (Snapshot.workflowLogs s)
                   cleanedWorkflowLogs)
  /\ Js.lookup "teamWorkflowStatus" snapshot
     = Some (Snapshot.teamWorkflowStatus s)
  /\ Js.lookup "workflowResult" snapshot = Some (Snapshot.workflowResult s)
  /\ Js.lookup "name" snapshot = Some (Snapshot.name s)
  /\ Js.lookup "inputs" snapshot = Some (Snapshot.inputs s)
  /\ Js.lookup "workflowContext" snapshot
     = Some (Snapshot.workflowContext s)
  /\ Js.lookup "logLevel" snapshot = Some (Snapshot.logLevel s).

(** ** Feedback *)

(** The feedback record that [provideFeedback] makes at the clock reading
    [t1]. *)
Definition feedback_of (t1 : Z) (feedbackContent : string) : Feedback.t :=
  Feedback.mk feedbackContent FEEDBACK_STATUS_enum.PENDING t1.

(** The copy of [task] that [provideFeedback] puts in the store: REVISE,
    with [f] at the end of the history. *)
Definition with_feedback (f : Feedback.t) (task : Task.t) : Task.t :=
  Task.set_status TASK_STATUS_enum.REVISE
    (Task.set_feedbackHistory
       (Some (default [] (Task.feedbackHistory task) ++ [f])) task).

(** ** Usage figures *)

(** The sum of one figure over the rows of [modelUsageStats]. *)
Definition total (figure : Workflow.ModelUsage -> Z)
    (modelUsageStats : list (string * Workflow.ModelUsage)) : Z :=
  fold_right (fun row sum => figure (snd row) + sum) 0 modelUsageStats.

(** An AgentStatusUpdate log with the given agent status and a timestamp
    from [startTime] on. *)
Definition counted {CostDetails : Type} (startTime : Z)
    (status : AGENT_STATUS_enum.t) (l : Workflow.log CostDetails)
  : bool :=
  bool_decide (Workflow.logType l = Log.AgentStatusUpdate)
  && (startTime <=? Workflow.timestamp l)
  && bool_decide (Workflow.agentStatus l = Some status).

(** The sum of one figure of the usage over the logs of finished calls
    in the window. *)
Definition used {CostDetails : Type} (startTime : Z)
    (figure : Workflow.Usage -> Z)
    (logs : list (Workflow.log CostDetails)) : Z :=
  fold_right
    (fun l sum =>
       (if counted startTime AGENT_STATUS_enum.THINKING_END l
        then match Workflow.usage l with
             | Some u => figure u
             | None => 0
             end
        else 0) + sum)
    0 logs.

(** The state with other logs. *)
Definition with_logs {CostDetails : Type}
    (logs : list (Workflow.log CostDetails))
    (s : Workflow.state CostDetails)
  : Workflow.state CostDetails :=
  Workflow.mkState (Workflow.teamWorkflowStatus s) (Workflow.workflowResult s)
                   (Workflow.name s) (Workflow.agents s) (Workflow.tasks s)
                   logs.

(** What the loop over [logs] adds to the counters [c], giving [c']: each
    total and the rows of the table grow by the figures of the logs in the
    window, and the table keeps one row for each model. *)
Definition figures_grow_by {CostDetails : Type}
    (logs : list (Workflow.log CostDetails)) (startTime : Z)
    (c c' : Workflow.counters) : Prop :=
  (NoDup (List.map fst (Workflow.modelUsageStats c)) ->
   NoDup (List.map fst (Workflow.modelUsageStats c')))
  /\ total Workflow.model_inputTokens (Workflow.modelUsageStats c')
     = total Workflow.model_inputTokens (Workflow.modelUsageStats c)
       + used startTime Workflow.usage_inputTokens logs
  /\ Workflow.inputTokens (Workflow.usageStats c')
     = Workflow.inputTokens (Workflow.usageStats c)
       + used startTime Workflow.usage_inputTokens logs
  /\ total Workflow.model_outputTokens (Workflow.modelUsageStats c')
     = total Workflow.model_outputTokens (Workflow.modelUsageStats c)
       + used startTime Workflow.usage_outputTokens logs
  /\ Workflow.outputTokens (Workflow.usageStats c')
     = Workflow.outputTokens (Workflow.usageStats c)
       + used startTime Workflow.usage_outputTokens logs
  /\ total Workflow.model_callsCount (Workflow.modelUsageStats c')
     = total Workflow.model_callsCount (Workflow.modelUsageStats c)
       + Z.of_nat (length (List.filter
                             (counted startTime AGENT_STATUS_enum.THINKING_END)
                             logs))
  /\ Workflow.callsCount (Workflow.usageStats c')
     = Workflow.callsCount (Workflow.usageStats c)
       + Z.of_nat (length (List.filter
                             (counted startTime AGENT_STATUS_enum.THINKING_END)
                             logs))
  /\ Workflow.callsErrorCount (Workflow.usageStats c')
     = Workflow.callsErrorCount (Workflow.usageStats c)
       + Z.of_nat (length (List.filter
                             (counted startTime
                                      AGENT_STATUS_enum.THINKING_ERROR)
                             logs))
  /\ Workflow.parsingErrors (Workflow.usageStats c')
     = Workflow.parsingErrors (Workflow.usageStats c)
       + Z.of_nat (length (List.filter
                             (counted startTime
                                AGENT_STATUS_enum.ISSUES_PARSING_LLM_OUTPUT)
                             logs))
  /\ Workflow.iterations c'
     = Workflow.iterations c
       + Z.of_nat (length (List.filter
                             (counted startTime AGENT_STATUS_enum.ITERATION_END)
                             logs)).


(** * Properties *)

(** ** Arrays *)

Section ArrayFacts.
Context {A : Type}.

Lemma findIndex_from_ge (p : A -> bool) (xs : list A) (i : Z) :
  findIndex_from p xs i = -1 \/ i <= findIndex_from p xs i.
Proof.
  revert i. induction xs as [|x xs IH]; intros i; simpl; [now left|].
  destruct (p x); [right; lia|].
  destruct (IH (i + 1)) as [H|H]; [now left | right; lia].
Qed.

Lemma findIndex_from_none (p : A -> bool) (xs : list A) (i : Z) :
  0 <= i ->
  (findIndex_from p xs i = -1 <-> Forall (fun x => p x = false) xs).
Proof.
  revert i. induction xs as [|x xs IH]; intros i Hi; simpl.
  - split; [constructor | reflexivity].
  - destruct (p x) eqn:Hp.
    + split; [lia | intros H; inversion H; congruence].
    + rewrite (IH (i + 1)) by lia. split.
      * intros H; now constructor.
      * intros H; now inversion H.
Qed.

Lemma findIndex_none (p : A -> bool) (xs : list A) :
  findIndex p xs = -1 <-> Forall (fun x => p x = false) xs.
Proof. apply findIndex_from_none; lia. Qed.

(** [findIndex] returns the first position that satisfies [p]. *)
Lemma findIndex_from_first (p : A -> bool) (xs pre post : list A) (x : A)
    (i : Z) :
  xs = pre ++ x :: post ->
  Forall (fun y => p y = false) pre ->
  p x = true ->
  findIndex_from p xs i = i + Z.of_nat (length pre).
Proof.
  intros -> Hpre Hx. revert i.
  induction pre as [|y pre IH]; intros i; simpl.
  - rewrite Hx. lia.
  - inversion Hpre as [|? ? Hy Hpre']; subst. rewrite Hy.
    rewrite IH by assumption. lia.
Qed.

Lemma findIndex_first (p : A -> bool) (pre post : list A) (x : A) :
  Forall (fun y => p y = false) pre ->
  p x = true ->
  findIndex p (pre ++ x :: post) = Z.of_nat (length pre).
Proof.
  intros Hpre Hx. unfold findIndex.
  now rewrite (findIndex_from_first p _ pre post x 0 eq_refl Hpre Hx).
Qed.

Lemma find_none_iff (p : A -> bool) (xs : list A) :
  List.find p xs = None <-> Forall (fun x => p x = false) xs.
Proof.
  induction xs as [|x xs IH]; simpl.
  - split; [constructor | reflexivity].
  - destruct (p x) eqn:Hp.
    + split; [discriminate | intros H; inversion H; congruence].
    + rewrite IH. split; [now constructor | now inversion 1].
Qed.
End ArrayFacts.

Lemma includes_In (ids : list string) (i : string) :
  includes ids i = true <-> In i ids.
Proof.
  unfold includes. rewrite existsb_exists. split.
  - intros [x [Hx Heq]]. apply String.eqb_eq in Heq. now subst.
  - intros H. exists i. split; [assumption | apply String.eqb_refl].
Qed.

Lemma has_id_true (i : string) (k : Task.t) :
  Task.has_id i k = true <-> Task.id k = i.
Proof. unfold Task.has_id. apply String.eqb_eq. Qed.

Lemma has_id_false (i : string) (k : Task.t) :
  Task.has_id i k = false <-> Task.id k <> i.
Proof. unfold Task.has_id. apply String.eqb_neq. Qed.

Lemma has_status_true (s : TASK_STATUS_enum.t) (k : Task.t) :
  Task.has_status s k = true <-> Task.status k = s.
Proof. unfold Task.has_status. apply bool_decide_eq_true. Qed.

Lemma has_status_false (s : TASK_STATUS_enum.t) (k : Task.t) :
  Task.has_status s k = false <-> Task.status k <> s.
Proof. unfold Task.has_status. apply bool_decide_eq_false. Qed.

(** ** Numbers in text *)

(** Number::toString on some Numbers: integers print with all their
    digits below [10^21] and with an exponent from there on, fractions
    print with the fewest digits that identify them. *)
Example number_to_string_samples :
  List.map Js.number_to_string
    [Js.number 0; Js.number (-12); Js.number 1700000000;
     Js.number (10 ^ 21 - 1000000); Js.number (10 ^ 21); Js.number (2 ^ 70);
     Js.dyadic 1 (-1); Js.dyadic 7205759403792794 (-56);
     Js.dyadic 1 (-1074); S754_zero true; S754_nan; S754_infinity true]
  = ["0"; "-12"; "1700000000"; "999999999999999000000"; "1e+21";
     "1.1805916207174113e+21"; "0.5"; "0.1"; "5e-324"; "0"; "NaN";
     "-Infinity"].
Proof. vm_compute. reflexivity. Qed.

(** ** Status updates of the store *)

Lemma createTeamStore_default_maxConcurrency (initialState : State.initial) :
  State.i_maxConcurrency initialState = None ->
  State.maxConcurrency (TeamStore.createTeamStore initialState) = 5.
Proof. intros H. unfold TeamStore.createTeamStore. simpl. now rewrite H. Qed.

(** [{ ...task, status }] has the given status and is otherwise the
    task. *)
Lemma set_status_sets (status : TASK_STATUS_enum.t) (task : Task.t) :
  Task.status (Task.set_status status task) = status
  /\ same_but_status task (Task.set_status status task).
Proof. destruct task. repeat split. Qed.

Lemma map_status_set_where (P : Task.t -> Prop) (p : Task.t -> bool)
    (status : TASK_STATUS_enum.t) (tasks : list Task.t) :
  (forall k, p k = true <-> P k) ->
  Forall2 (status_set_where P status) tasks
    (List.map (fun task => if p task then Task.set_status status task
                           else task) tasks).
Proof.
  intros Hp. induction tasks as [|k tasks IH]; simpl; constructor; [|exact IH].
  unfold status_set_where. destruct (p k) eqn:E.
  - split; [intros _; apply set_status_sets|].
    intros HN. exfalso. apply HN. now apply Hp.
  - split; [|reflexivity]. intros HP. apply Hp in HP. congruence.
Qed.

(** C3, as the claim states it, fails: a status update leaves
    [workflowLogs] as it is, so no log entry is appended for the
    transition. *)
Lemma updateTaskStatus_appends_no_log :
  In "t1" (List.map Task.id (State.tasks sample_state))
  /\ State.workflowLogs
       (TeamStore.updateTaskStatus "t1" TASK_STATUS_enum.DOING sample_state)
     = State.workflowLogs sample_state
  /\ ~ (exists log,
          State.workflowLogs
            (TeamStore.updateTaskStatus "t1" TASK_STATUS_enum.DOING
                                        sample_state)
          = State.workflowLogs sample_state ++ [log]).
Proof.
  split; [simpl; now left|]. split; [reflexivity|].
  intros [log H]. simpl in H. discriminate H.
Qed.

(** C3 (amended): [updateTaskStatus(id, status)] commits one new state in
    which every task with that id has the given status and is otherwise
    the task it was, and [updateStatusOfMultipleTasks(ids, status)] does so
    for every task whose id is listed; the tasks whose id is not given are
    unchanged, and so is every other property of the state, [workflowLogs]
    included: no log entry is written. *)
Theorem update_status_sets_status_only
    (taskId : string) (taskIds : list string) (status : TASK_STATUS_enum.t)
    (state : State.t) :
  let one := TeamStore.updateTaskStatus taskId status state in
  let many := TeamStore.updateStatusOfMultipleTasks taskIds status state in
  Forall2 (status_set_where (fun task => Task.id task = taskId) status)
          (State.tasks state) (State.tasks one)
  /\ Forall2 (status_set_where (fun task => In (Task.id task) taskIds) status)
             (State.tasks state) (State.tasks many)
  /\ State.workflowLogs one = State.workflowLogs state
  /\ State.workflowLogs many = State.workflowLogs state
  /\ State.set_tasks (State.tasks state) one = state
  /\ State.set_tasks (State.tasks state) many = state.
Proof.
  simpl. repeat split.
  - destruct state; simpl. apply map_status_set_where.
    intros k. apply has_id_true.
  - destruct state; simpl. apply map_status_set_where.
    intros k. apply includes_In.
  - destruct state; reflexivity.
  - destruct state; reflexivity.
Qed.

(** ** startWorkflow *)

(** C4, as the claim states it, fails: in a state whose workflow is RUNNING,
    [startWorkflow] resets the tasks and the logs, writes a new RUNNING log
    and goes on to start the strategy. *)
Lemma startWorkflow_restarts_while_running :
  State.teamWorkflowStatus running_state = WORKFLOW_STATUS_enum.RUNNING
  /\ List.map Task.status (State.tasks running_state) = [TASK_STATUS_enum.DONE]
  /\ (let '(state', strategy) :=
        TeamStore.startWorkflow (fun _ _ => 1) 42 JsUndefined running_state in
      state' <> running_state
      /\ List.map Task.status (State.tasks state') = [TASK_STATUS_enum.TODO]
      /\ State.workflowLogs state' = [TeamStore.initialLog 42 "team" JsUndefined]
      /\ strategy = DeterministicExecutionStrategy).
Proof.
  split; [reflexivity|]. split; [reflexivity|]. simpl.
  split; [|repeat split]. intros H. discriminate H.
Qed.

Lemma holds_one_of_iff (agents : list Agent.t) (task : Task.t) (a : Agent.t) :
  Task.agent task = Some a ->
  TeamStore.holds_one_of agents task = true <-> agent_of_store agents a.
Proof.
  intros Ha. unfold TeamStore.holds_one_of, agent_of_store. rewrite Ha.
  rewrite existsb_exists, List.in_map_iff. split.
  - intros [b [Hb E]]. apply String.eqb_eq in E. now exists b.
  - intros [b [E Hb]]. exists b. split; [exact Hb | now apply String.eqb_eq].
Qed.

Lemma resetAgent_resets (agent : Agent.t) :
  agent_reset agent (TeamStore.resetAgent agent).
Proof. destruct agent. repeat split. Qed.

(** The tasks after a reset, one by one. *)
Lemma resetWorkflowStateAction_tasks (state : State.t) :
  Forall2 (task_reset (State.agents state)) (State.tasks state)
          (State.tasks (TeamStore.resetWorkflowStateAction state)).
Proof.
  unfold TeamStore.resetWorkflowStateAction. cbn [State.tasks].
  rewrite List.map_map. generalize (State.agents state) as agents.
  intros agents. induction (State.tasks state) as [|task tasks IH];
    simpl; constructor; [|exact IH].
  unfold task_reset.
  destruct (Task.agent task) as [a|] eqn:Ha.
  - assert (Ha' : Task.agent (Task.set_status TASK_STATUS_enum.TODO task)
                  = Some a) by (now destruct task).
    pose proof (holds_one_of_iff agents _ a Ha') as Hiff.
    destruct (TeamStore.holds_one_of agents _) eqn:E;
      destruct task; simpl in *; subst;
      (split; [reflexivity|]); (split; [|repeat split]);
      eexists; (split; [reflexivity|]); split.
    + intros _. apply resetAgent_resets.
    + intros Hn. exfalso. apply Hn. now apply Hiff.
    + intros Hin. apply Hiff in Hin. discriminate Hin.
    + reflexivity.
  - assert (E : TeamStore.holds_one_of agents
                  (Task.set_status TASK_STATUS_enum.TODO task) = false).
    { unfold TeamStore.holds_one_of. destruct task; simpl in *. now rewrite Ha. }
    rewrite E. destruct task; simpl in *. repeat split. exact Ha.
Qed.

(** C4 (amended): [startWorkflow] has no guard on the workflow status. In
    every state, RUNNING included, it resets the workflow (every task back
    to TODO, every agent of the store reset, also where a task holds it,
    logs, context and internal memory emptied, result cleared), stores the
    inputs when some are given, writes exactly one RUNNING log, marks the
    workflow RUNNING, picks the strategy and calls its [startExecution] on
    the new state. *)
Theorem startWorkflow_always_restarts
    (getConcurrencyForTaskQueue : Strategy -> State.t -> Z)
    (now : Z) (inputs : JsValue) (state : State.t) :
  let '(state', strategy) :=
    TeamStore.startWorkflow getConcurrencyForTaskQueue now inputs state in
  Forall2 (task_reset (State.agents state))
          (State.tasks state) (State.tasks state')
  /\ Forall2 agent_reset (State.agents state) (State.agents state')
  /\ State.workflowLogs state'
     = [TeamStore.initialLog now (State.name state) inputs]
  /\ State.teamWorkflowStatus state' = WORKFLOW_STATUS_enum.RUNNING
  /\ State.workflowResult state' = JsNull
  /\ State.workflowContext state' = ""
  /\ State.workflowInternalMemory state' = JsObj []
  /\ State.inputs state'
     = (if Js.truthy inputs then inputs else State.inputs state)
  /\ strategy = TeamStore.createWorkflowExecutionStrategy state
  /\ State.workflowExecutionStrategy state' = Some strategy
  /\ State.taskQueue state'
     = Some (getConcurrencyForTaskQueue strategy
               (State.set_taskQueue (State.taskQueue state) state')).
Proof.
  assert (Hagents : forall agents,
            Forall2 agent_reset agents (List.map TeamStore.resetAgent agents)).
  { induction agents; simpl; constructor;
      [apply resetAgent_resets | assumption]. }
  specialize (Hagents (State.agents state)).
  pose proof (resetWorkflowStateAction_tasks state) as Htasks.
  unfold TeamStore.startWorkflow.
  destruct state; destruct (Js.truthy inputs); simpl in *;
    (split; [exact Htasks|]); (split; [exact Hagents|]); repeat split.
Qed.

(** ** provideFeedback *)

(** C10: when no task of the store has the given id, [provideFeedback]
    returns the state as it is: no feedback entry, no log, no status
    change, the workflow status untouched. *)
Theorem provideFeedback_unknown_task
    (getTaskTitleForLogs : Task.t -> string) (t1 t2 t3 : Z)
    (taskId feedbackContent : string) (state : State.t) :
  Forall (fun task => Task.id task <> taskId) (State.tasks state) ->
  TeamStore.provideFeedback getTaskTitleForLogs t1 t2 t3 taskId
                            feedbackContent state
  = state.
Proof.
  intros Hnone. unfold TeamStore.provideFeedback.
  assert (Hidx : findIndex (Task.has_id taskId) (State.tasks state) = -1).
  { apply findIndex_none. eapply Forall_impl; [exact Hnone|].
    intros k Hk. now apply has_id_false. }
  now rewrite Hidx.
Qed.

Lemma provideFeedback_unknown_task_witness :
  Forall (fun task => Task.id task <> "missing") (State.tasks running_state)
  /\ TeamStore.provideFeedback Task.description 1 2 3 "missing" "redo"
                               running_state
     = running_state.
Proof.
  assert (H : Forall (fun task => Task.id task <> "missing")
                     (State.tasks running_state)).
  { repeat constructor. simpl. discriminate. }
  split; [exact H|].
  exact (provideFeedback_unknown_task Task.description 1 2 3 "missing" "redo"
                                      running_state H).
Defined.

(** With a known id the action does write: the feedback is appended, the
    task goes to REVISE and two logs are added. *)
Example provideFeedback_known_task :
  let state' :=
    TeamStore.provideFeedback Task.description 1 2 3 "t1" "redo"
                              running_state in
  List.map Task.status (State.tasks state') = [TASK_STATUS_enum.REVISE]
  /\ List.map Task.feedbackHistory (State.tasks state')
     = [Some [Feedback.mk "redo" FEEDBACK_STATUS_enum.PENDING 1]]
  /\ length (State.workflowLogs state') = 3%nat.
Proof. repeat split. Qed.

(** ** validateTask *)

Lemma map_replaced_where (taskId : string) (updatedTask : Task.t)
    (tasks : list Task.t) :
  Forall2 (replaced_where taskId updatedTask) tasks
    (List.map (fun t => if Task.has_id taskId t then updatedTask else t)
              tasks).
Proof.
  induction tasks as [|k tasks IH]; simpl; constructor; [|exact IH].
  unfold replaced_where. destruct (Task.has_id taskId k) eqn:E.
  - split; [reflexivity|]. apply has_id_true in E. congruence.
  - split; [|reflexivity]. apply has_id_false in E. congruence.
Qed.

(** C7: [validateTask(taskId)] goes through only when the task with that id
    is AWAITING_VALIDATION. Then it replaces the task by its VALIDATED
    copy, appends a RUNNING workflow log and a task log, marks the workflow
    RUNNING and calls [handleTaskCompleted] with the validated task and its
    result. When no task has the id, or the task is in any other status,
    it returns null, makes no call and leaves the state as it was. *)
Theorem validateTask_requires_awaiting_validation
    (getTaskTitleForLogs : Task.t -> string) (t1 t2 : Z) (taskId : string)
    (state : State.t) :
  let found := List.find (Task.has_id taskId) (State.tasks state) in
  let outcome :=
    TeamStore.validateTask getTaskTitleForLogs t1 t2 taskId state in
  (Forall (fun task => Task.id task <> taskId) (State.tasks state) ->
   outcome = (TeamStore.ReturnsNull, state, None))
  /\ (forall task,
        found = Some task ->
        Task.status task <> TASK_STATUS_enum.AWAITING_VALIDATION ->
        outcome = (TeamStore.ReturnsNull, state, None))
  /\ (forall task,
        found = Some task ->
        Task.status task = TASK_STATUS_enum.AWAITING_VALIDATION ->
        let updatedTask := Task.set_status TASK_STATUS_enum.VALIDATED task in
        exists workflowLog taskLog state',
          outcome
          = (TeamStore.ReturnsUndefined, state',
             Some (TeamStore.mkCompleted (Task.agent task) updatedTask
                                         (Task.result task)))
          /\ Forall2 (replaced_where taskId updatedTask)
                     (State.tasks state) (State.tasks state')
          /\ State.workflowLogs state'
             = State.workflowLogs state ++ [workflowLog; taskLog]
          /\ Log.logType workflowLog = Log.WorkflowStatusUpdate
          /\ Log.workflowStatus workflowLog
             = Some WORKFLOW_STATUS_enum.RUNNING
          /\ Log.task workflowLog = Some updatedTask
          /\ Log.logType taskLog = Log.TaskStatusUpdate
          /\ Log.taskStatus taskLog = Log.Known TASK_STATUS_enum.VALIDATED
          /\ Log.task taskLog = Some updatedTask
          /\ State.teamWorkflowStatus state' = WORKFLOW_STATUS_enum.RUNNING
          /\ State.set_teamWorkflowStatus (State.teamWorkflowStatus state)
               (State.set_workflowLogs (State.workflowLogs state)
                  (State.set_tasks (State.tasks state) state'))
             = state).
Proof.
  simpl. unfold TeamStore.validateTask. repeat split.
  - intros Hnone.
    assert (E : List.find (Task.has_id taskId) (State.tasks state) = None).
    { apply find_none_iff. eapply Forall_impl; [exact Hnone|].
      intros k Hk. now apply has_id_false. }
    now rewrite E.
  - intros task -> Hstatus.
    apply has_status_false in Hstatus. now rewrite Hstatus.
  - intros task -> Hstatus.
    pose proof Hstatus as Hb. apply has_status_true in Hb. rewrite Hb. simpl.
    eexists _, _, _. split; [reflexivity|].
    split; [apply map_replaced_where|].
    destruct state; simpl. repeat split.
Qed.

Lemma validateTask_requires_awaiting_validation_witness :
  (Forall (fun task => Task.id task <> "t9") (State.tasks awaiting_state)
   /\ TeamStore.validateTask Task.description 1 2 "t9" awaiting_state
      = (TeamStore.ReturnsNull, awaiting_state, None))
  /\ (Task.status (sample_task "t2" TASK_STATUS_enum.TODO)
      <> TASK_STATUS_enum.AWAITING_VALIDATION
      /\ TeamStore.validateTask Task.description 1 2 "t2" awaiting_state
         = (TeamStore.ReturnsNull, awaiting_state, None))
  /\ (exists workflowLog taskLog state',
        TeamStore.validateTask Task.description 1 2 "t1" awaiting_state
        = (TeamStore.ReturnsUndefined, state',
           Some (TeamStore.mkCompleted None
                   (sample_task "t1" TASK_STATUS_enum.VALIDATED)
                   JsUndefined))
        /\ State.workflowLogs state'
           = State.workflowLogs awaiting_state ++ [workflowLog; taskLog]
        /\ State.teamWorkflowStatus state' = WORKFLOW_STATUS_enum.RUNNING).
Proof.
  pose proof (validateTask_requires_awaiting_validation
                Task.description 1 2 "t9" awaiting_state) as [H9 _].
  pose proof (validateTask_requires_awaiting_validation
                Task.description 1 2 "t2" awaiting_state) as [_ [H2 _]].
  pose proof (validateTask_requires_awaiting_validation
                Task.description 1 2 "t1" awaiting_state) as [_ [_ H1]].
  assert (Hnone : Forall (fun task => Task.id task <> "t9")
                         (State.tasks awaiting_state)).
  { repeat constructor; simpl; discriminate. }
  assert (Hother : Task.status (sample_task "t2" TASK_STATUS_enum.TODO)
                   <> TASK_STATUS_enum.AWAITING_VALIDATION).
  { simpl. discriminate. }
  split; [split; [exact Hnone | exact (H9 Hnone)]|].
  split; [split; [exact Hother | exact (H2 _ eq_refl Hother)]|].
  destruct (H1 _ eq_refl eq_refl)
    as [workflowLog [taskLog [state' [Hout [_ [Hlogs [_ [_ [_ [_ [_ [_ [Hrun _]]]]]]]]]]]]].
  exists workflowLog, taskLog, state'.
  split; [exact Hout|]. split; [exact Hlogs | exact Hrun].
Defined.

(** ** Ready tasks of the hierarchical strategy *)

Lemma getTaskDependencies_In (task dep : Task.t) (allTasks : list Task.t) :
  In dep (HierarchyExecutionStrategy.getTaskDependencies task allTasks)
  <-> In dep allTasks
      /\ exists dependsOn,
           Task.dependsOn task = Some dependsOn
           /\ In (Task.id dep) dependsOn.
Proof.
  unfold HierarchyExecutionStrategy.getTaskDependencies.
  destruct (Task.dependsOn task) as [[|d ds]|].
  - split; [intros [] | intros [_ [x [H Hin]]]; inversion H; subst; inversion Hin].
  - rewrite List.filter_In, includes_In. split.
    + intros [H1 H2]. split; [exact H1|]. now exists (d :: ds).
    + intros [H1 [x [H2 H3]]]. inversion H2; subst. now split.
  - split; [intros [] | intros [_ [x [H _]]]; discriminate H].
Qed.

Lemma ready_true (allTasks : list Task.t) (task : Task.t) :
  HierarchyExecutionStrategy.ready allTasks task = true
  <-> Task.status task = TASK_STATUS_enum.TODO
      /\ forall dep,
           In dep (HierarchyExecutionStrategy.getTaskDependencies task allTasks) ->
           Task.status dep = TASK_STATUS_enum.DONE.
Proof.
  unfold HierarchyExecutionStrategy.ready.
  destruct (Task.has_status TASK_STATUS_enum.TODO task) eqn:E; simpl.
  - apply has_status_true in E.
    rewrite orb_true_iff, List.forallb_forall. split.
    + intros [H|H]; (split; [exact E|]).
      * apply Nat.eqb_eq in H.
        destruct (HierarchyExecutionStrategy.getTaskDependencies task allTasks);
          [intros dep [] | discriminate H].
      * intros dep Hdep. now apply has_status_true, H.
    + intros [_ H]. right. intros dep Hdep. now apply has_status_true, H.
  - apply has_status_false in E. split; [discriminate | intros [H _]; contradiction].
Qed.

(** C5: under the hierarchical strategy a task is selected as ready exactly
    when it is TODO and every task of the list that its [dependsOn] names is
    DONE; with [dependsOn] absent or empty, exactly when it is TODO. *)
Theorem getReadyTasks_selects (allTasks : list Task.t) (task : Task.t) :
  (In task (HierarchyExecutionStrategy.getReadyTasks allTasks)
   <-> In task allTasks
       /\ Task.status task = TASK_STATUS_enum.TODO
       /\ forall dep dependsOn,
            Task.dependsOn task = Some dependsOn ->
            In dep allTasks ->
            In (Task.id dep) dependsOn ->
            Task.status dep = TASK_STATUS_enum.DONE)
  /\ (Task.dependsOn task = None \/ Task.dependsOn task = Some [] ->
      (In task (HierarchyExecutionStrategy.getReadyTasks allTasks)
       <-> In task allTasks /\ Task.status task = TASK_STATUS_enum.TODO)).
Proof.
  assert (Hiff :
    In task (HierarchyExecutionStrategy.getReadyTasks allTasks)
    <-> In task allTasks
        /\ Task.status task = TASK_STATUS_enum.TODO
        /\ forall dep dependsOn,
             Task.dependsOn task = Some dependsOn ->
             In dep allTasks ->
             In (Task.id dep) dependsOn ->
             Task.status dep = TASK_STATUS_enum.DONE).
  { unfold HierarchyExecutionStrategy.getReadyTasks.
    rewrite List.filter_In, ready_true. split.
    - intros [Hin [Hst Hdeps]]. repeat split; [exact Hin | exact Hst |].
      intros dep dependsOn Hd Hdin Hid. apply Hdeps.
      apply getTaskDependencies_In. split; [exact Hdin|]. now exists dependsOn.
    - intros [Hin [Hst Hdeps]]. repeat split; [exact Hin | exact Hst |].
      intros dep Hdep. apply getTaskDependencies_In in Hdep.
      destruct Hdep as [Hdin [dependsOn [Hd Hid]]]. now apply (Hdeps dep dependsOn). }
  split; [exact Hiff|].
  intros Hnone. rewrite Hiff. split.
  - intros [Hin [Hst _]]. now split.
  - intros [Hin Hst]. repeat split; [exact Hin | exact Hst |].
    intros dep dependsOn Hd _ Hid.
    destruct Hnone as [Hn|Hn]; rewrite Hn in Hd; [discriminate|].
    inversion Hd; subst. inversion Hid.
Qed.

Lemma getReadyTasks_selects_witness :
  (Task.dependsOn (sample_task "D" TASK_STATUS_enum.TODO) = None
   \/ Task.dependsOn (sample_task "D" TASK_STATUS_enum.TODO) = Some [])
  /\ In (sample_task "D" TASK_STATUS_enum.TODO)
        (HierarchyExecutionStrategy.getReadyTasks four_tasks)
  /\ List.map Task.id (HierarchyExecutionStrategy.getReadyTasks four_tasks)
     = ["B"; "D"].
Proof.
  assert (H : Task.dependsOn (sample_task "D" TASK_STATUS_enum.TODO) = None
              \/ Task.dependsOn (sample_task "D" TASK_STATUS_enum.TODO)
                 = Some []).
  { left. reflexivity. }
  split; [exact H|]. split; [|reflexivity].
  apply (proj2 (getReadyTasks_selects four_tasks
                  (sample_task "D" TASK_STATUS_enum.TODO)) H).
  split; [simpl; tauto | reflexivity].
Defined.

(** ** Folding single updates *)

Lemma set_tasks_set_tasks (u v : list Task.t) (s : State.t) :
  State.set_tasks v (State.set_tasks u s) = State.set_tasks v s.
Proof. destruct s; reflexivity. Qed.

Lemma set_tasks_same (s : State.t) : State.set_tasks (State.tasks s) s = s.
Proof. destruct s; reflexivity. Qed.

Lemma tasks_set_tasks (v : list Task.t) (s : State.t) :
  State.tasks (State.set_tasks v s) = v.
Proof. destruct s; reflexivity. Qed.

Lemma set_status_set_status (a b : TASK_STATUS_enum.t) (k : Task.t) :
  Task.set_status a (Task.set_status b k) = Task.set_status a k.
Proof. destruct k; reflexivity. Qed.

(** Updating the tasks of a list of ids one id at a time is the update of
    all of them at once. *)
Lemma fold_updateTaskStatus (ids : list string) (status : TASK_STATUS_enum.t)
    (state : State.t) :
  fold_left (fun acc i => TeamStore.updateTaskStatus i status acc) ids state
  = TeamStore.updateStatusOfMultipleTasks ids status state.
Proof.
  revert state. induction ids as [|i ids IH]; intros state; simpl.
  - unfold TeamStore.updateStatusOfMultipleTasks. simpl.
    rewrite List.map_id. now rewrite set_tasks_same.
  - rewrite IH. unfold TeamStore.updateStatusOfMultipleTasks,
      TeamStore.updateTaskStatus.
    rewrite tasks_set_tasks, set_tasks_set_tasks, List.map_map. f_equal.
    apply List.map_ext. intros k. unfold includes, Task.has_id. simpl.
    rewrite (String.eqb_sym (Task.id k) i).
    destruct (String.eqb i (Task.id k)); simpl.
    + destruct (existsb _ ids); [apply set_status_set_status | reflexivity].
    + reflexivity.
Qed.

(** ** The sequential strategy on REVISE *)

Section SequentialRevise.
Import SequentialExecutionStrategy.

Lemma fold__updateTaskStatus (status : TASK_STATUS_enum.t)
    (tasks : list Task.t) (this : t) :
  fold_left (fun acc task => _updateTaskStatus (Task.id task) status acc)
            tasks this
  = mk (TeamStore.updateStatusOfMultipleTasks (List.map Task.id tasks) status
          (useTeamStore this))
       (taskQueue this).
Proof.
  rewrite <- fold_updateTaskStatus. revert this.
  induction tasks as [|k tasks IH]; intros this; simpl.
  - now destruct this.
  - now rewrite IH.
Qed.

Lemma map_unselected (p : Task.t -> bool) (f : Task.t -> Task.t)
    (tasks : list Task.t) :
  Forall (fun k => p k = false) tasks ->
  List.map (fun k => if p k then f k else k) tasks = tasks.
Proof.
  induction 1 as [|k tasks Hk _ IH]; simpl; [reflexivity|].
  now rewrite Hk, IH.
Qed.



End SequentialRevise.

(** The REVISE step on the store, task by task. *)
Lemma handle_revise_where (allTasks : list Task.t) (revised : Task.t)
    (this : SequentialExecutionStrategy.t) :
  Task.status revised = TASK_STATUS_enum.REVISE ->
  let later :=
    List.map Task.id
      (skipn (Z.to_nat (findIndex (Task.has_id (Task.id revised)) allTasks
                        + 1))
             allTasks) in
  let this' := SequentialExecutionStrategy.execute [revised] allTasks this in
  Forall2 (revised_where (Task.id revised) later)
          (State.tasks (SequentialExecutionStrategy.useTeamStore this))
          (State.tasks (SequentialExecutionStrategy.useTeamStore this'))
  /\ SequentialExecutionStrategy.taskQueue this'
     = SequentialExecutionStrategy.taskQueue this
  /\ State.set_tasks
       (State.tasks (SequentialExecutionStrategy.useTeamStore this))
       (SequentialExecutionStrategy.useTeamStore this')
     = SequentialExecutionStrategy.useTeamStore this.
Proof.
  intros Hstatus. cbv zeta.
  unfold SequentialExecutionStrategy.execute. cbn [fold_left].
  unfold SequentialExecutionStrategy.handle. rewrite Hstatus.
  rewrite fold__updateTaskStatus.
  unfold SequentialExecutionStrategy._updateTaskStatus.
  cbn [SequentialExecutionStrategy.useTeamStore
         SequentialExecutionStrategy.taskQueue].
  unfold TeamStore.updateTaskStatus, TeamStore.updateStatusOfMultipleTasks.
  rewrite !tasks_set_tasks, !set_tasks_set_tasks, set_tasks_same.
  split; [|split; reflexivity].
  set (later := List.map Task.id _).
  induction (State.tasks (SequentialExecutionStrategy.useTeamStore this))
    as [|k tasks IH]; simpl; constructor; [|exact IH].
  unfold revised_where.
  destruct (includes later (Task.id k)) eqn:Hlater.
  - assert (Hid : Task.has_id (Task.id revised)
                    (Task.set_status TASK_STATUS_enum.TODO k)
                  = Task.has_id (Task.id revised) k) by (now destruct k).
    rewrite Hid. destruct (Task.has_id (Task.id revised) k) eqn:E.
    + apply has_id_true in E. split; [|split]; [|contradiction..].
      intros _. rewrite set_status_set_status. apply set_status_sets.
    + apply has_id_false in E. split; [contradiction|]. split.
      * intros _ _. apply set_status_sets.
      * intros _ Hn. exfalso. apply Hn. now apply includes_In.
  - destruct (Task.has_id (Task.id revised) k) eqn:E.
    + apply has_id_true in E. split; [|split]; [|contradiction..].
      intros _. apply set_status_sets.
    + apply has_id_false in E. split; [contradiction|]. split.
      * intros _ Hin. apply includes_In in Hin. congruence.
      * reflexivity.
Qed.




(** ** The hierarchical strategy on REVISE *)

Section HierarchyFacts.
Import HierarchyExecutionStrategy.

Lemma valid_refs_app (objs news : list Task.t) (rs : list ref) :
  valid_refs objs rs -> valid_refs (objs ++ news) rs.
Proof.
  unfold valid_refs. intros H. eapply Forall_impl; [exact H|].
  intros r Hr. simpl in Hr. rewrite length_app. lia.
Qed.

Lemma remapped_weaken p status (n m : nat) objs' r q :
  (n <= m)%nat -> remapped p status m objs' r q -> remapped p status n objs' r q.
Proof.
  intros Hnm [task [Hr H]]. exists task. split; [exact Hr|].
  destruct H as [H|[H1 [H2 H3]]]; [now left | right].
  repeat split; [exact H1 | lia | exact H3].
Qed.

Lemma remap_rel (p : Task.t -> bool) (status : TASK_STATUS_enum.t)
    (rs : list ref) :
  forall objs objs' out,
    valid_refs objs rs ->
    remap p status objs rs = (objs', out) ->
    (exists news, objs' = objs ++ news)
    /\ valid_refs objs' out
    /\ Forall2 (remapped p status (length objs) objs') rs out.
Proof.
  induction rs as [|r rs IH]; intros objs objs' out Hvalid Hremap.
  - simpl in Hremap. inversion Hremap; subst. split; [|split].
    + exists []. now rewrite app_nil_r.
    + constructor.
    + constructor.
  - apply Forall_cons in Hvalid. destruct Hvalid as [Hr Hvalid].
    destruct (lookup_lt_is_Some_2 objs r Hr) as [task Htask].
    cbn [remap] in Hremap. rewrite Htask in Hremap. destruct (p task) eqn:Hp.
    + destruct (remap p status (objs ++ [Task.set_status status task]) rs)
        as [objs1 out1] eqn:E.
      inversion Hremap; subst objs' out. clear Hremap.
      destruct (IH _ _ _ (valid_refs_app _ _ _ Hvalid) E)
        as [[news ->] [Hout Hrel]].
      split; [|split].
      * exists (Task.set_status status task :: news).
        now rewrite <- app_assoc.
      * constructor; [|exact Hout]. rewrite !length_app. simpl. lia.
      * constructor.
        -- exists task. split.
           ++ rewrite <- app_assoc. now rewrite lookup_app_l.
           ++ right. repeat split; [exact Hp | lia |].
              rewrite <- app_assoc. simpl. now apply list_lookup_middle.
        -- eapply Forall2_impl; [exact Hrel|]. intros a b.
           apply remapped_weaken. rewrite length_app. lia.
    + destruct (remap p status objs rs) as [objs1 out1] eqn:E.
      inversion Hremap; subst objs' out. clear Hremap.
      destruct (IH _ _ _ Hvalid E) as [[news ->] [Hout Hrel]].
      split; [|split].
      * now exists news.
      * constructor; [|exact Hout]. rewrite length_app. lia.
      * constructor; [|exact Hrel].
        exists task. split; [now rewrite lookup_app_l|]. now left.
Qed.

Lemma omap_lookup_app (objs news : list Task.t) (rs : list ref) :
  valid_refs objs rs ->
  omap (fun r => (objs ++ news) !! r) rs = omap (fun r => objs !! r) rs.
Proof.
  induction 1 as [|r rs Hr _ IH]; [reflexivity|].
  cbn [omap list_omap]. rewrite lookup_app_l by exact Hr.
  destruct (objs !! r); [f_equal|]; exact IH.
Qed.

Lemma omap_remapped p status n objs' (rs out : list ref) :
  Forall2 (remapped p status n objs') rs out ->
  omap (fun r => objs' !! r) out
  = List.map (fun task => if p task then Task.set_status status task
                          else task)
             (omap (fun r => objs' !! r) rs).
Proof.
  induction 1 as [|r q rs out [task [Hr H]] _ IH]; [reflexivity|].
  cbn [omap list_omap]. rewrite Hr. simpl.
  destruct H as [[Hp ->]|[Hp [_ Hq]]].
  - rewrite Hr, Hp. f_equal. exact IH.
  - rewrite Hq, Hp. f_equal. exact IH.
Qed.

(** The update of the store by reference is the update of the store by
    value. *)
Lemma get_updateTaskStatus (taskId : string) (status : TASK_STATUS_enum.t)
    (w : World) :
  valid_refs (objects w) (taskRefs w) ->
  let w' := updateTaskStatus taskId status w in
  get w' = TeamStore.updateTaskStatus taskId status (get w)
  /\ valid_refs (objects w') (taskRefs w')
  /\ (exists news, objects w' = objects w ++ news)
  /\ rest w' = rest w
  /\ Forall2 (remapped (Task.has_id taskId) status (length (objects w))
                       (objects w'))
             (taskRefs w) (taskRefs w').
Proof.
  intros Hvalid. unfold updateTaskStatus.
  destruct (remap (Task.has_id taskId) status (objects w) (taskRefs w))
    as [objs' out] eqn:E.
  destruct (remap_rel _ _ _ _ _ _ Hvalid E) as [[news Hnews] [Hout Hrel]].
  simpl. repeat split; try assumption; [|now exists news].
  unfold get, derefs, deref, TeamStore.updateTaskStatus. simpl.
  rewrite set_tasks_set_tasks. f_equal.
  rewrite (omap_remapped _ _ _ _ _ _ Hrel). f_equal.
  subst objs'. now apply omap_lookup_app.
Qed.

Lemma updateTaskStatus_blocked_fresh (n0 : nat) (P : string -> Prop)
    (taskId : string) (w : World) :
  valid_refs (objects w) (taskRefs w) ->
  (n0 <= length (objects w))%nat ->
  blocked_fresh n0 P w ->
  blocked_fresh n0 (fun i => P i \/ i = taskId)
                (updateTaskStatus taskId TASK_STATUS_enum.BLOCKED w).
Proof.
  intros Hvalid Hn0 Hinv.
  destruct (get_updateTaskStatus taskId TASK_STATUS_enum.BLOCKED w Hvalid)
    as [_ [_ [[news Hnews] [_ Hrel]]]].
  intros q task Hq Htask HP.
  apply list_elem_of_In, list_elem_of_lookup_1 in Hq. destruct Hq as [k Hk].
  destruct (Forall2_lookup_r _ _ _ _ _ Hrel Hk) as [r [Hr [task0 [Hr0 Hcase]]]].
  destruct Hcase as [[Hp ->]|[Hp [Hge Hnew]]].
  - rewrite Htask in Hr0. inversion Hr0; subst task0. clear Hr0.
    apply has_id_false in Hp. destruct HP as [HP|HP]; [|contradiction].
    apply (Hinv r task); [|  |exact HP].
    + apply list_elem_of_In. eapply list_elem_of_lookup_2. exact Hr.
    + rewrite Hnews in Htask. rewrite lookup_app_l in Htask; [exact Htask|].
      unfold valid_refs in Hvalid. rewrite Forall_forall in Hvalid.
      apply Hvalid. eapply list_elem_of_lookup_2. exact Hr.
  - rewrite Htask in Hnew. inversion Hnew; subst task. split; [lia|].
    now destruct task0.
Qed.

Lemma fold_updateTaskStatus_world (tasks : list Task.t) :
  forall (n0 : nat) (P : string -> Prop) (w : World),
    valid_refs (objects w) (taskRefs w) ->
    (n0 <= length (objects w))%nat ->
    blocked_fresh n0 P w ->
    let w' :=
      fold_left
        (fun acc task =>
           updateTaskStatus (Task.id task) TASK_STATUS_enum.BLOCKED acc)
        tasks w in
    get w'
    = fold_left
        (fun acc i =>
           TeamStore.updateTaskStatus i TASK_STATUS_enum.BLOCKED acc)
        (List.map Task.id tasks) (get w)
    /\ valid_refs (objects w') (taskRefs w')
    /\ (exists news, objects w' = objects w ++ news)
    /\ blocked_fresh n0 (fun i => P i \/ In i (List.map Task.id tasks)) w'.
Proof.
  induction tasks as [|k tasks IH]; intros n0 P w Hvalid Hn0 Hinv.
  - simpl. split; [reflexivity|]. split; [exact Hvalid|].
    split; [exists []; now rewrite app_nil_r|].
    intros q task Hq Htask [HP|[]]. now apply (Hinv q task).
  - cbn [fold_left List.map].
    destruct (get_updateTaskStatus (Task.id k) TASK_STATUS_enum.BLOCKED w Hvalid)
      as [Hget [Hvalid1 [[news1 Hnews1] _]]].
    pose proof (updateTaskStatus_blocked_fresh n0 P (Task.id k) w Hvalid Hn0 Hinv)
      as Hinv1.
    assert (Hn1 : (n0 <= length (objects (updateTaskStatus (Task.id k)
                            TASK_STATUS_enum.BLOCKED w)))%nat).
    { rewrite Hnews1, length_app. lia. }
    destruct (IH n0 _ _ Hvalid1 Hn1 Hinv1) as [Hget2 [Hvalid2 [[news2 Hnews2] Hinv2]]].
    cbv zeta. rewrite Hget2, Hget. split; [reflexivity|].
    split; [exact Hvalid2|]. split.
    + exists (news1 ++ news2). rewrite Hnews2, Hnews1. now rewrite app_assoc.
    + intros q task Hq Htask HP. apply (Hinv2 q task Hq Htask).
      simpl in HP. destruct HP as [HP|[HP|HP]]; auto.
Qed.

Section Tick.
Variable getTaskTitleForLogs : Task.t -> string.
Variable interpolateTaskDescription : string -> JsValue -> string.
Variable cloneAgent : Agent.t -> Agent.t.
Variable agentWork : workItem -> World -> option World.
Variable now : nat -> Z.

Lemma same_except_refl (rs : list ref) (w : World) : same_except rs w w.
Proof.
  repeat split. intros q task' H. now exists task'.
Qed.

Lemma same_except_trans (rs : list ref) (w1 w2 w3 : World) :
  same_except rs w1 w2 -> same_except rs w2 w3 -> same_except rs w1 w3.
Proof.
  intros [A1 [B1 [C1 D1]]] [A2 [B2 [C2 D2]]].
  split; [congruence|]. split; [congruence|]. split.
  - intros q Hq. rewrite C2, C1; auto.
  - intros q task3 H3. destruct (D2 q task3 H3) as [task2 [H2 E2]].
    destruct (D1 q task2 H2) as [task1 [H1 E1]].
    exists task1. split; [exact H1 | congruence].
Qed.

Lemma same_except_mono (rs rs' : list ref) (w w' : World) :
  (forall q, In q rs -> In q rs') -> same_except rs w w' -> same_except rs' w w'.
Proof.
  intros Hsub [A [B [C D]]]. split; [exact A|]. split; [exact B|].
  split; [|exact D]. intros q Hq. apply C. auto.
Qed.

Lemma assign_same_except (r : ref) (f : Task.t -> Task.t) (w : World) :
  (forall task, Task.id (f task) = Task.id task) ->
  same_except [r] w (assign r f w).
Proof.
  intros Hid. unfold assign. split; [reflexivity|].
  split; [apply length_alter|]. simpl. split.
  - intros q Hq. apply list_lookup_alter_ne. intros ->. apply Hq. now left.
  - intros q task' H. destruct (decide (r = q)) as [->|Hne].
    + rewrite list_lookup_alter_eq in H.
      destruct (objects w !! q) as [task|]; [|discriminate H].
      simpl in H. inversion H; subst. exists task. now rewrite Hid.
    + rewrite list_lookup_alter_ne in H by exact Hne. now exists task'.
Qed.

Lemma append_log_same_except (rs : list ref) (log : Log.t) (w : World) :
  same_except rs w (append_log log w).
Proof.
  repeat split. intros q task' H. now exists task'.
Qed.

Lemma workOnTask_same_except (t : Z) (agent : Agent.t) (r : ref) (w : World) :
  same_except [r] w
    (fst (workOnTask getTaskTitleForLogs interpolateTaskDescription t agent r w)).
Proof.
  unfold workOnTask. destruct (deref w r) as [task|]; [|apply same_except_refl].
  match goal with
  | |- context [assign r ?f3 (assign r ?f2 (append_log ?l (assign r ?f1 w)))] =>
      assert (H : same_except [r] w
                    (assign r f3 (assign r f2 (append_log l (assign r f1 w)))))
  end.
  { eapply same_except_trans; [|apply assign_same_except; now intros []].
    eapply same_except_trans; [|apply assign_same_except; now intros []].
    eapply same_except_trans; [|apply append_log_same_except].
    apply assign_same_except. now intros []. }
  destruct (Task.feedbackHistory _); [|exact H].
  destruct (_ <? _)%nat; exact H.
Qed.

Lemma _executeTask_same_except (t : Z) (r : ref) (w : World) :
  same_except [r] w
    (fst (_executeTask getTaskTitleForLogs interpolateTaskDescription
                       cloneAgent t r w)).
Proof.
  unfold _executeTask. destruct (deref w r) as [task|]; [|apply same_except_refl].
  destruct (Task.agent task) as [a|].
  - apply workOnTask_same_except.
  - destruct (existsb _ _); apply same_except_refl.
Qed.

Lemma dispatch_same_except (executableTasks : list ref) :
  forall (w : World) (made : list workItem),
    same_except executableTasks w
      (fst (dispatch getTaskTitleForLogs interpolateTaskDescription cloneAgent
                     now executableTasks w made)).
Proof.
  induction executableTasks as [|r rs IH]; intros w made.
  - apply same_except_refl.
  - cbn [dispatch].
    pose proof (_executeTask_same_except (now (length made)) r w) as H1.
    destruct (_executeTask _ _ _ _ r w) as [w1 st]. simpl in H1.
    assert (H1' : same_except (r :: rs) w w1).
    { eapply same_except_mono; [|exact H1]. intros q [->|[]]. now left. }
    destruct st; (eapply same_except_trans; [exact H1'|]);
      (eapply same_except_mono; [|apply IH]); intros q Hq; now right.
Qed.

Lemma omap_lookup_seq (pre l : list Task.t) :
  omap (fun r => (pre ++ l) !! r) (seq (length pre) (length l)) = l.
Proof.
  revert pre. induction l as [|x l IH]; intros pre; [reflexivity|].
  cbn [length seq omap list_omap].
  rewrite list_lookup_middle by reflexivity. f_equal.
  replace (pre ++ x :: l) with ((pre ++ [x]) ++ l)
    by (now rewrite <- app_assoc).
  replace (S (length pre)) with (length (pre ++ [x]))
    by (rewrite length_app; simpl; lia).
  apply IH.
Qed.

Lemma derefs_enter (state : State.t) :
  derefs (enter state) (refs_of state) = State.tasks state.
Proof.
  unfold derefs, deref, enter, refs_of. cbn [objects].
  exact (omap_lookup_seq [] (State.tasks state)).
Qed.

Lemma filter_refs_length (f : Task.t -> bool) (pre l : list Task.t) :
  length (List.filter (fun r => match (pre ++ l) !! r with
                                | Some task => f task
                                | None => false
                                end)
                      (seq (length pre) (length l)))
  = length (List.filter f l).
Proof.
  revert pre. induction l as [|x l IH]; intros pre; [reflexivity|].
  cbn [length seq List.filter].
  rewrite list_lookup_middle by reflexivity.
  replace (pre ++ x :: l) with ((pre ++ [x]) ++ l)
    by (now rewrite <- app_assoc).
  replace (S (length pre)) with (length (pre ++ [x]))
    by (rewrite length_app; simpl; lia).
  destruct (f x); cbn [length]; now rewrite IH.
Qed.

Lemma getAllTasksDependingOn_In (task dependent : Task.t)
    (allTasks : list Task.t) :
  In dependent (getAllTasksDependingOn task allTasks)
  <-> In dependent allTasks /\ depends_directly dependent task.
Proof.
  unfold getAllTasksDependingOn, depends_directly.
  rewrite List.filter_In. split.
  - intros [Hin H]. split; [exact Hin|].
    destruct (Task.dependsOn dependent) as [ds|]; [|discriminate H].
    exists ds. split; [reflexivity|]. now apply includes_In.
  - intros [Hin [ds [Hds H]]]. split; [exact Hin|].
    rewrite Hds. now apply includes_In.
Qed.

(** The loop over the changed tasks goes through a list piece by piece,
    as long as it does not throw. *)
Lemma handleChanged_app (pre post allTasks : list ref) :
  forall (w : World) (made : list workItem),
    let before :=
      handleChanged getTaskTitleForLogs interpolateTaskDescription cloneAgent
                    agentWork now pre allTasks w made in
    handleChanged getTaskTitleForLogs interpolateTaskDescription cloneAgent
                  agentWork now (pre ++ post) allTasks w made
    = if resolved before
      then handleChanged getTaskTitleForLogs interpolateTaskDescription
                         cloneAgent agentWork now post allTasks
                         (world before) (calls before)
      else before.
Proof.
  induction pre as [|r pre IH]; intros w made; [reflexivity|].
  cbv zeta. cbn [app handleChanged].
  destruct (deref w r) as [changedTask|]; [|reflexivity].
  destruct (Task.status changedTask); try apply IH.
  destruct (_executeTask _ _ _ _ r w) as [w1 [| |item]];
    [apply IH | reflexivity |].
  destruct (agentWork item w1); [apply IH | reflexivity].
Qed.

Lemma blocked_fresh_weaken (n0 : nat) (P Q : string -> Prop) (w : World) :
  (forall i, Q i -> P i) -> blocked_fresh n0 P w -> blocked_fresh n0 Q w.
Proof. intros Himpl H q task Hq Htask HQ. apply (H q task); auto. Qed.

(** Changed tasks that are not DOING leave the blocked tasks blocked: the
    loop calls no agent, and a further REVISE only blocks more. *)
Lemma handleChanged_quiet (n0 : nat) (P : string -> Prop)
    (post allTasks : list ref) :
  forall (w : World) (made : list workItem),
    valid_refs (objects w) (taskRefs w) ->
    (n0 <= length (objects w))%nat ->
    blocked_fresh n0 P w ->
    Forall (not_doing w) post ->
    let res :=
      handleChanged getTaskTitleForLogs interpolateTaskDescription cloneAgent
                    agentWork now post allTasks w made in
    resolved res = true
    /\ calls res = made
    /\ valid_refs (objects (world res)) (taskRefs (world res))
    /\ (exists news, objects (world res) = objects w ++ news)
    /\ blocked_fresh n0 P (world res).
Proof.
  induction post as [|q post IH]; intros w made Hvalid Hn0 Hinv Hpost.
  - cbn [handleChanged resolved calls world].
    split; [reflexivity|]. split; [reflexivity|]. split; [exact Hvalid|].
    split; [exists []; now rewrite app_nil_r | exact Hinv].
  - apply Forall_cons in Hpost. destruct Hpost as [[t [Hq Hstatus]] Hpost].
    cbv zeta. cbn [handleChanged]. rewrite Hq.
    destruct (Task.status t) eqn:Hst; try (now apply IH); [contradiction|].
    unfold blockDependents.
    destruct (fold_updateTaskStatus_world
                (getAllTasksDependingOn t (derefs w allTasks))
                n0 P w Hvalid Hn0 Hinv)
      as [_ [Hvalid1 [[news1 Hnews1] Hinv1]]].
    set (w1 := fold_left _ _ w) in *.
    assert (Hpost1 : Forall (not_doing w1) post).
    { eapply Forall_impl; [exact Hpost|]. intros q' [t' [Hq' Hst']].
      exists t'. split; [|exact Hst']. unfold deref in *. rewrite Hnews1.
      rewrite lookup_app_l; [exact Hq'|].
      apply lookup_lt_is_Some. now exists t'. }
    assert (Hn1 : (n0 <= length (objects w1))%nat).
    { rewrite Hnews1, length_app. lia. }
    destruct (IH w1 made Hvalid1 Hn1
                (blocked_fresh_weaken n0 _ P w1 (fun i H => or_introl H) Hinv1)
                Hpost1)
      as [Hres [Hcalls [Hvalid2 [[news2 Hnews2] Hinv2]]]].
    split; [exact Hres|]. split; [exact Hcalls|]. split; [exact Hvalid2|].
    split; [|exact Hinv2].
    exists (news1 ++ news2). rewrite Hnews2, Hnews1. now rewrite app_assoc.
Qed.

Lemma status_set_where_iff (P Q : Task.t -> Prop)
    (status : TASK_STATUS_enum.t) (olds news : list Task.t) :
  (forall k, P k <-> Q k) ->
  Forall2 (status_set_where P status) olds news ->
  Forall2 (status_set_where Q status) olds news.
Proof.
  intros Hiff H. eapply Forall2_impl; [exact H|].
  intros old new [Hset Hkeep]. split.
  - intros HQ. apply Hset. now apply Hiff.
  - intros HQ. apply Hkeep. intros HP. apply HQ. now apply Hiff.
Qed.

(** C1 (amended): under the hierarchical strategy, when the loop of
    [execute] over the changed tasks reaches a task that is REVISE (no
    earlier changed task having thrown or been rejected by its agent), it
    sets to BLOCKED every task of the store whose id is the id of a task
    of [allTasks] that names the revised task in its own [dependsOn], and
    changes nothing else: a task that reaches the revised one only
    through a chain of [dependsOn] references is left as it is. When no
    changed task after the revised one is DOING, [execute] resolves, and
    nothing that follows in the call (a further REVISE, the dispatch of
    the ready tasks) takes the BLOCKED status from these tasks of the
    store. *)
Theorem revise_blocks_direct_dependents
    (pre post : list ref) (r : ref) (allTasks : list ref) (w0 : World)
    (revised : Task.t) :
  let before :=
    handleChanged getTaskTitleForLogs interpolateTaskDescription cloneAgent
                  agentWork now pre allTasks w0 [] in
  let w := world before in
  resolved before = true ->
  valid_world w allTasks ->
  deref w r = Some revised ->
  Task.status revised = TASK_STATUS_enum.REVISE ->
  Forall (not_doing w) post ->
  let all := derefs w allTasks in
  let step :=
    handleChanged getTaskTitleForLogs interpolateTaskDescription cloneAgent
                  agentWork now [r] allTasks w (calls before) in
  let res :=
    execute getTaskTitleForLogs interpolateTaskDescription cloneAgent
            agentWork now (pre ++ r :: post) allTasks w0 in
  Forall2 (status_set_where (directly_dependent revised all)
                            TASK_STATUS_enum.BLOCKED)
          (State.tasks (get w)) (State.tasks (get (world step)))
  /\ rest (world step) = rest w
  /\ calls step = calls before
  /\ resolved res = true
  /\ forall task,
       In task (State.tasks (get (world res))) ->
       directly_dependent revised all task ->
       Task.status task = TASK_STATUS_enum.BLOCKED.
Proof.
  intros before w Hbefore [Hstore Hall] Hr Hstatus Hpost all step res.
  assert (Hids : forall task,
            directly_dependent revised all task
            <-> In (Task.id task)
                   (List.map Task.id (getAllTasksDependingOn revised all))).
  { intros task. rewrite List.in_map_iff. split.
    - intros [d [Hd [Hid Hdirect]]]. exists d. split; [exact Hid|].
      apply getAllTasksDependingOn_In. now split.
    - intros [d [Hid Hd]]. apply getAllTasksDependingOn_In in Hd.
      destruct Hd as [Hd Hdirect]. now exists d. }
  destruct (fold_updateTaskStatus_world
              (getAllTasksDependingOn revised all)
              (length (objects w)) (fun _ => False) w Hstore (le_n _))
    as [Hget [Hvalid1 [[news1 Hnews1] Hinv1]]].
  { intros q task _ _ []. }
  fold (blockDependents revised all w) in Hget, Hvalid1, Hnews1, Hinv1.
  set (wb := blockDependents revised all w) in *.
  assert (Hstep : step = mkResult wb (calls before) true).
  { subst step. cbn [handleChanged]. now rewrite Hr, Hstatus. }
  rewrite Hstep. cbn [world calls resolved].
  split; [|split; [|split; [reflexivity|]]].
  - rewrite Hget, fold_updateTaskStatus.
    unfold TeamStore.updateStatusOfMultipleTasks. rewrite tasks_set_tasks.
    apply (status_set_where_iff
             (fun task => In (Task.id task)
                             (List.map Task.id
                                (getAllTasksDependingOn revised all)))).
    + intros k. symmetry. apply Hids.
    + apply map_status_set_where. intros k. apply includes_In.
  - subst wb. unfold blockDependents.
    generalize (getAllTasksDependingOn revised all) as ds. intros ds.
    generalize w as w'. induction ds as [|d ds IH]; intros w';
      [reflexivity|].
    cbn [fold_left]. rewrite IH. unfold updateTaskStatus.
    now destruct (remap _ _ _ _).
  - assert (Hpost1 : Forall (not_doing wb) post).
    { eapply Forall_impl; [exact Hpost|]. intros q' [t' [Hq' Hst']].
      exists t'. split; [|exact Hst']. unfold deref in *. rewrite Hnews1.
      rewrite lookup_app_l; [exact Hq'|].
      apply lookup_lt_is_Some. now exists t'. }
    assert (Hn1 : (length (objects w) <= length (objects wb))%nat).
    { rewrite Hnews1, length_app. lia. }
    destruct (handleChanged_quiet (length (objects w)) _ post allTasks wb
                (calls before) Hvalid1 Hn1 Hinv1 Hpost1)
      as [Hres [Hcalls [Hvalid2 [[news2 Hnews2] Hinv2]]]].
    assert (Hhandled :
      handleChanged getTaskTitleForLogs interpolateTaskDescription cloneAgent
                    agentWork now (pre ++ r :: post) allTasks w0 []
      = handleChanged getTaskTitleForLogs interpolateTaskDescription
                      cloneAgent agentWork now post allTasks wb
                      (calls before)).
    { rewrite handleChanged_app. fold before. rewrite Hbefore. fold w.
      cbn [handleChanged]. now rewrite Hr, Hstatus. }
    subst res. unfold execute. rewrite Hhandled, Hres.
    set (we := world (handleChanged _ _ _ _ _ post allTasks wb _)) in *.
    match goal with
    | |- context [dispatch _ _ _ _ ?exe we ?made] =>
        set (executableTasks := exe); set (made0 := made)
    end.
    pose proof (dispatch_same_except executableTasks we made0) as Hsame.
    destruct (dispatch _ _ _ _ executableTasks we made0) as [w2 made].
    cbn [fst] in Hsame. cbn [resolved world].
    split; [reflexivity|].
    intros task Htask Hdep.
    destruct Hsame as [Hrefs [_ [Hkeep Hsameids]]].
    unfold get, derefs, deref in Htask. rewrite tasks_set_tasks in Htask.
    apply list_elem_of_In, list_elem_of_omap in Htask.
    destruct Htask as [q [Hq Hlookup]]. rewrite Hrefs in Hq.
    destruct (Hsameids q task Hlookup) as [task0 [Hlookup0 Hid0]].
    assert (HP : False
                 \/ In (Task.id task0)
                       (List.map Task.id (getAllTasksDependingOn revised all))).
    { right. apply Hids. destruct Hdep as [d [Hd [Hid Hdirect]]].
      exists d. split; [exact Hd|]. split; [congruence | exact Hdirect]. }
    destruct (Hinv2 q task0 (proj1 (list_elem_of_In _ _) Hq) Hlookup0 HP)
      as [Hfresh Hblocked].
    rewrite Hkeep in Hlookup.
    + rewrite Hlookup0 in Hlookup. inversion Hlookup; subst. exact Hblocked.
    + intros Hin. apply List.filter_In in Hin. destruct Hin as [Hin _].
      unfold valid_refs in Hall. rewrite Forall_forall in Hall.
      apply list_elem_of_In, Hall in Hin. lia.
Qed.

End Tick.

End HierarchyFacts.

Lemma revise_blocks_direct_dependents_witness :
  let w := HierarchyExecutionStrategy.enter
             (State.set_tasks revised_chain sample_state) in
  let res :=
    HierarchyExecutionStrategy.execute
      Task.description (fun d _ => d) (fun a => a) (fun _ w' => Some w')
      Z.of_nat [2%nat; 0%nat; 1%nat] [0%nat; 1%nat; 2%nat] w in
  valid_world w [0%nat; 1%nat; 2%nat]
  /\ Forall (not_doing w) [1%nat]
  /\ HierarchyExecutionStrategy.resolved res = true
  /\ forall task,
       In task (State.tasks
                  (HierarchyExecutionStrategy.get
                     (HierarchyExecutionStrategy.world res))) ->
       Task.id task = "B" ->
       Task.status task = TASK_STATUS_enum.BLOCKED.
Proof.
  intros w res.
  assert (Hvalid : valid_world w [0%nat; 1%nat; 2%nat]).
  { split; repeat constructor. }
  assert (Hpost : Forall (not_doing w) [1%nat]).
  { repeat constructor. eexists. split; [reflexivity | discriminate]. }
  destruct (revise_blocks_direct_dependents
              Task.description (fun d _ => d) (fun a => a)
              (fun _ w' => Some w') Z.of_nat
              [2%nat] [1%nat] 0%nat [0%nat; 1%nat; 2%nat] w
              (dependent_task "A" TASK_STATUS_enum.REVISE [])
              eq_refl Hvalid eq_refl eq_refl Hpost)
    as [_ [_ [_ [Hresolved Hblocked]]]].
  split; [exact Hvalid|]. split; [exact Hpost|]. split; [exact Hresolved|].
  intros task Htask Hid.
  apply (Hblocked task Htask).
  exists (dependent_task "B" TASK_STATUS_enum.DONE ["A"]).
  split; [simpl; tauto|]. split; [now rewrite Hid|].
  exists ["A"]. split; [reflexivity | now left].
Defined.

(** C1, as the claim states it, fails: in the chain A <- B <- C, C depends
    on A through B, and after [execute] has processed the REVISE of A the
    store holds B as BLOCKED and C as DONE. *)
Lemma revise_leaves_indirect_dependent :
  let A := dependent_task "A" TASK_STATUS_enum.REVISE [] in
  let C := dependent_task "C" TASK_STATUS_enum.DONE ["B"] in
  let w := HierarchyExecutionStrategy.enter
             (State.set_tasks revised_chain sample_state) in
  let res :=
    HierarchyExecutionStrategy.execute
      Task.description (fun d _ => d) (fun a => a) (fun _ w' => Some w')
      Z.of_nat [0%nat] [0%nat; 1%nat; 2%nat] w in
  depends_transitively revised_chain C A
  /\ HierarchyExecutionStrategy.resolved res = true
  /\ List.map (fun task => (Task.id task, Task.status task))
       (State.tasks
          (HierarchyExecutionStrategy.get
             (HierarchyExecutionStrategy.world res)))
     = [("A", TASK_STATUS_enum.REVISE);
        ("B", TASK_STATUS_enum.BLOCKED);
        ("C", TASK_STATUS_enum.DONE)].
Proof.
  split; [|split; reflexivity].
  apply (depends_through _ _ _ (dependent_task "B" TASK_STATUS_enum.DONE ["A"])).
  - simpl. right. left. reflexivity.
  - exists ["B"]. split; [reflexivity | now left].
  - apply depends_here. exists ["A"]. split; [reflexivity | now left].
Qed.

(** ** The dispatch of the hierarchical strategy and [maxConcurrency] *)

(** C2, as the claim states it, fails: the dispatch of a tick starts every
    ready task, and [execute] never reads [maxConcurrency]. With the
    default bound of 5, no task in flight and six ready tasks, one call
    makes six agent calls and leaves six tasks DOING in the store, where
    the claim allows five. *)
Theorem hierarchical_tick_starts_six_of_five :
  let w := HierarchyExecutionStrategy.enter six_tasks_state in
  let res :=
    HierarchyExecutionStrategy.execute
      Task.description (fun d _ => d) (fun a => a) (fun _ w' => Some w')
      Z.of_nat [] (HierarchyExecutionStrategy.refs_of six_tasks_state) w in
  State.maxConcurrency six_tasks_state = 5
  /\ List.filter (Task.has_status TASK_STATUS_enum.DOING)
                 (State.tasks six_tasks_state) = []
  /\ length (HierarchyExecutionStrategy.calls res) = 6%nat
  /\ length (List.filter (Task.has_status TASK_STATUS_enum.DOING)
               (State.tasks
                  (HierarchyExecutionStrategy.get
                     (HierarchyExecutionStrategy.world res)))) = 6%nat.
Proof. repeat split. Qed.

(** ** The context derived from the logs *)

(** C8, as the claim states it, fails: with two finished tasks before the
    current one, [deriveContextFromLogs] puts a line feed between the two
    entries, so the context is not their concatenation. *)
Lemma derived_context_is_not_concatenation :
  let state := State.set_tasks finished_row sample_state in
  TeamStore.deriveContextFromLogs finished_logs "third" state
  = Some ("Task: describe first" +:+ Js.nl +:+ "Result: one" +:+ Js.nl
          +:+ Js.nl
          +:+ "Task: describe second" +:+ Js.nl
          +:+ "Result: {" +:+ String Js.dquote "n" +:+ String Js.dquote ":2}"
          +:+ Js.nl)
  /\ concatenated_context finished_logs finished_row 2
     = "Task: describe first" +:+ Js.nl +:+ "Result: one" +:+ Js.nl
       +:+ "Task: describe second" +:+ Js.nl
       +:+ "Result: {" +:+ String Js.dquote "n" +:+ String Js.dquote ":2}"
       +:+ Js.nl
  /\ TeamStore.deriveContextFromLogs finished_logs "third" state
     <> Some (concatenated_context finished_logs finished_row 2).
Proof.
  split; [reflexivity|]. split; [reflexivity|].
  intros H. vm_compute in H. discriminate H.
Qed.

Section SortByIndex.
Import TeamStore.

Lemma insert_by_index_In (x e : taskResult) (xs : list taskResult) :
  In e (insert_by_index x xs) <-> e = x \/ In e xs.
Proof.
  induction xs as [|y xs IH]; simpl.
  - intuition.
  - destruct (index x <=? index y); simpl; [intuition|].
    rewrite IH. intuition.
Qed.

Lemma sort_by_index_In (e : taskResult) (xs : list taskResult) :
  In e (sort_by_index xs) <-> In e xs.
Proof.
  induction xs as [|x xs IH]; simpl; [reflexivity|].
  rewrite insert_by_index_In, IH. intuition.
Qed.

Lemma insert_by_index_sorted (x : taskResult) (xs : list taskResult) :
  StronglySorted earlier xs ->
  (forall y, In y xs -> index y <> index x) ->
  StronglySorted earlier (insert_by_index x xs).
Proof.
  induction 1 as [|y xs Hsorted IH Hy]; intros Hfresh; simpl.
  - repeat constructor.
  - assert (Hxy : index y <> index x) by (apply Hfresh; now left).
    destruct (index x <=? index y) eqn:E.
    + apply Z.leb_le in E. constructor.
      * now constructor.
      * constructor; [unfold earlier; lia|].
        rewrite List.Forall_forall in Hy |- *. intros z Hz.
        specialize (Hy z Hz). unfold earlier in *. lia.
    + apply Z.leb_gt in E. constructor.
      * apply IH. intros z Hz. apply Hfresh. now right.
      * rewrite List.Forall_forall in Hy |- *. intros z Hz.
        apply insert_by_index_In in Hz. destruct Hz as [->|Hz].
        -- exact E.
        -- now apply Hy.
Qed.

Lemma sort_by_index_sorted (xs : list taskResult) :
  List.NoDup (List.map index xs) ->
  StronglySorted earlier (sort_by_index xs).
Proof.
  induction xs as [|x xs IH]; simpl; intros Hnodup; [constructor|].
  inversion Hnodup as [|? ? Hnotin Hrest]; subst.
  apply insert_by_index_sorted; [now apply IH|].
  intros y Hy E. apply Hnotin. rewrite <- E.
  apply List.in_map. exact (proj1 (sort_by_index_In y xs) Hy).
Qed.

(** Two lists in strictly increasing order with the same elements are
    the same list. *)
Lemma sorted_same_elements (xs ys : list taskResult) :
  StronglySorted earlier xs ->
  StronglySorted earlier ys ->
  (forall e, In e xs <-> In e ys) ->
  xs = ys.
Proof.
  intros Hxs. revert ys.
  induction Hxs as [|a xs Hsorted IH Ha]; intros ys Hys Hsame.
  - destruct ys as [|b ys]; [reflexivity|].
    exfalso. apply (Hsame b). now left.
  - destruct Hys as [|b ys Hsorted' Hb].
    + exfalso. apply (Hsame a). now left.
    + rewrite List.Forall_forall in Ha, Hb.
      assert (Hab : a = b).
      { destruct (proj1 (Hsame a) (or_introl eq_refl)) as [E|Hin]; [now subst|].
        destruct (proj2 (Hsame b) (or_introl eq_refl)) as [E|Hin']; [exact E|].
        specialize (Ha b Hin'). specialize (Hb a Hin).
        unfold earlier in *. lia. }
      subst b. f_equal. apply IH; [exact Hsorted'|].
      intros e. split; intros He.
      * destruct (proj1 (Hsame e) (or_intror He)) as [E|Hin]; [|exact Hin].
        subst e. specialize (Ha a He). unfold earlier in Ha. lia.
      * destruct (proj2 (Hsame e) (or_intror He)) as [E|Hin]; [|exact Hin].
        subst e. specialize (Hb a He). unfold earlier in Hb. lia.
Qed.

End SortByIndex.

Section TaskResultsMap.
Import TeamStore.

Lemma Map_get_set_eq (k : string) (v : taskResult)
    (m : list (string * taskResult)) :
  Map_get k (Map_set k v m) = Some v.
Proof.
  induction m as [|[k' v'] m IH]; simpl.
  - now rewrite String.eqb_refl.
  - destruct (String.eqb k' k) eqn:E; simpl; rewrite E; [reflexivity | exact IH].
Qed.

Lemma Map_get_set_ne (k k' : string) (v : taskResult)
    (m : list (string * taskResult)) :
  k <> k' -> Map_get k' (Map_set k v m) = Map_get k' m.
Proof.
  intros Hne. induction m as [|[k0 v0] m IH]; simpl.
  - apply String.eqb_neq in Hne. now rewrite Hne.
  - destruct (String.eqb k0 k) eqn:E; simpl.
    + apply String.eqb_eq in E. subst k0.
      apply String.eqb_neq in Hne. now rewrite Hne.
    + now rewrite IH.
Qed.

Lemma Map_set_keys (k k' : string) (v : taskResult)
    (m : list (string * taskResult)) :
  In k' (List.map fst (Map_set k v m)) <-> k' = k \/ In k' (List.map fst m).
Proof.
  induction m as [|[k0 v0] m IH]; simpl.
  - intuition.
  - destruct (String.eqb k0 k) eqn:E; simpl.
    + apply String.eqb_eq in E. subst k0. intuition.
    + rewrite IH. intuition.
Qed.

Lemma Map_set_NoDup (k : string) (v : taskResult)
    (m : list (string * taskResult)) :
  List.NoDup (List.map fst m) -> List.NoDup (List.map fst (Map_set k v m)).
Proof.
  induction m as [|[k0 v0] m IH]; simpl; intros Hnodup.
  - repeat constructor. intros [].
  - inversion Hnodup as [|? ? Hnotin Hrest]; subst.
    destruct (String.eqb k0 k) eqn:E; simpl.
    + now constructor.
    + constructor; [|now apply IH].
      rewrite Map_set_keys. intros [->|Hin]; [|contradiction].
      now rewrite String.eqb_refl in E.
Qed.

Lemma Map_get_In (i : string) (e : taskResult)
    (m : list (string * taskResult)) :
  List.NoDup (List.map fst m) ->
  (In (i, e) m <-> Map_get i m = Some e).
Proof.
  induction m as [|[k v] m IH]; simpl; intros Hnodup.
  - split; [intros [] | discriminate].
  - inversion Hnodup as [|? ? Hnotin Hrest]; subst.
    destruct (String.eqb k i) eqn:E.
    + apply String.eqb_eq in E. subst k. split.
      * intros [H|H]; [now inversion H|].
        exfalso. apply Hnotin. now apply (List.in_map fst) in H.
      * intros H. inversion H. now left.
    + rewrite <- (IH Hrest). split; [|now right].
      intros [H|H]; [|exact H]. inversion H; subst.
      now rewrite String.eqb_refl in E.
Qed.

End TaskResultsMap.

Lemma findIndex_from_found {A : Type} (p : A -> bool) (xs : list A) :
  forall i, findIndex_from p xs i <> -1 ->
    i <= findIndex_from p xs i
    /\ exists x,
         nth_error xs (Z.to_nat (findIndex_from p xs i - i)) = Some x
         /\ p x = true.
Proof.
  induction xs as [|x xs IH]; intros i Hfound; simpl in *; [contradiction|].
  destruct (p x) eqn:Hp.
  - split; [lia|]. rewrite Z.sub_diag. now exists x.
  - destruct (IH (i + 1) Hfound) as [Hle [y [Hy Hpy]]].
    split; [lia|]. exists y. split; [|exact Hpy].
    replace (Z.to_nat (findIndex_from p xs (i + 1) - i))
      with (S (Z.to_nat (findIndex_from p xs (i + 1) - (i + 1)))) by lia.
    exact Hy.
Qed.

Lemma findIndex_found {A : Type} (p : A -> bool) (xs : list A) :
  findIndex p xs <> -1 ->
  0 <= findIndex p xs
  /\ exists x, nth_error xs (Z.to_nat (findIndex p xs)) = Some x /\ p x = true.
Proof.
  intros H. destruct (findIndex_from_found p xs 0 H) as [Hle [x [Hx Hp]]].
  split; [exact Hle|]. exists x. split; [|exact Hp].
  unfold findIndex. now rewrite Z.sub_0_r in Hx.
Qed.

(** With distinct ids, the index found for the id of a task is the
    position of the task. *)
Lemma findIndex_of_id (tasks : list Task.t) (k : nat) (task : Task.t) :
  NoDup (List.map Task.id tasks) ->
  nth_error tasks k = Some task ->
  findIndex (Task.has_id (Task.id task)) tasks = Z.of_nat k.
Proof.
  intros Hnodup Hnth.
  destruct (List.nth_error_split tasks k Hnth) as [pre [post [-> Hlen]]].
  subst k. apply findIndex_first; [|apply has_id_true; reflexivity].
  rewrite List.map_app in Hnodup. simpl in Hnodup.
  apply List.Forall_forall. intros j Hj. apply has_id_false. intros E.
  apply NoDup_app in Hnodup. destruct Hnodup as [_ [Hdisj _]].
  apply (Hdisj (Task.id j)).
  - apply list_elem_of_In, List.in_map, Hj.
  - rewrite E. left.
Qed.

Lemma collect_skips (tasks : list Task.t) (n : Z)
    (acc : list (string * TeamStore.taskResult)) (log : Log.t) :
  is_done_update log = false -> TeamStore.collect tasks n acc log = Some acc.
Proof.
  intros H. unfold TeamStore.collect. unfold is_done_update in H. now rewrite H.
Qed.

Lemma collect_done (tasks : list Task.t) (n : Z)
    (acc : list (string * TeamStore.taskResult)) (log : Log.t) :
  is_done_update log = true ->
  TeamStore.collect tasks n acc log
  = match Log.task log with
    | None => None
    | Some logTask =>
        if before tasks n (Task.id logTask)
        then
          match Log.metadata log with
          | None => None
          | Some metadata =>
              Some (TeamStore.Map_set (Task.id logTask)
                      (TeamStore.mkTaskResult (Task.description logTask)
                         (Log.result metadata)
                         (findIndex (Task.has_id (Task.id logTask)) tasks))
                      acc)
          end
        else Some acc
    end.
Proof.
  intros H. unfold TeamStore.collect. unfold is_done_update in H. now rewrite H.
Qed.

(** The loop over the logs throws exactly on a list that holds an entry
    it cannot read. *)
Lemma collect_all_throws (tasks : list Task.t) (n : Z) (logs : list Log.t) :
  forall acc,
    TeamStore.collect_all tasks n acc logs = None
    <-> Exists (unreadable tasks n) logs.
Proof.
  induction logs as [|log logs IH]; intros acc; cbn [TeamStore.collect_all].
  - split; [discriminate | intros H; inversion H].
  - destruct (is_done_update log) eqn:Hdone.
    + rewrite (collect_done _ _ _ _ Hdone).
      destruct (Log.task log) as [logTask|] eqn:Htask.
      * destruct (before tasks n (Task.id logTask)) eqn:Hbefore;
          [destruct (Log.metadata log) as [metadata|] eqn:Hmd|].
        -- rewrite IH. split; [intros H; now right|].
           intros H. inversion H as [? ? [_ [Hn|[t [Ht [_ Hn]]]]]|]; subst;
             [congruence | congruence | assumption].
        -- split; [|reflexivity]. intros _. left.
           split; [exact Hdone|]. right. now exists logTask.
        -- rewrite IH. split; [intros H; now right|].
           intros H. inversion H as [? ? [_ [Hn|[t [Ht [Hb _]]]]]|]; subst;
             [congruence | | assumption].
           rewrite Htask in Ht. inversion Ht; subst t. congruence.
      * split; [|reflexivity]. intros _. left. split; [exact Hdone | now left].
    + rewrite (collect_skips _ _ _ _ Hdone), IH. split.
      * intros H. now right.
      * intros H. inversion H as [? ? [Hd _]|]; subst; [congruence | assumption].
Qed.

(** The template literal of the code prints an entry as C8 words it. *)
Lemma entry_entry_text (r : TeamStore.taskResult) :
  TeamStore.entry r = entry_text r.
Proof.
  unfold TeamStore.entry, entry_text. now destruct (TeamStore.result r).
Qed.

Section DerivedContext.
Import TeamStore.

Variable tasks : list Task.t.
Variable n : nat.

Lemma latest_done_task (i : string) (logs : list Log.t) (log : Log.t) :
  latest_done i logs = Some log ->
  In log logs
  /\ exists logTask, Log.task log = Some logTask /\ Task.id logTask = i.
Proof.
  induction logs as [|l logs IH]; simpl; [discriminate|].
  destruct (latest_done i logs) as [later|].
  - intros H. inversion H; subst later.
    destruct (IH eq_refl) as [Hin Htask]. split; [now right | exact Htask].
  - destruct (done_for i l) eqn:E; [|discriminate].
    intros H. inversion H; subst l. split; [now left|].
    unfold done_for in E. apply andb_true_iff in E. destruct E as [_ E].
    destruct (Log.task log) as [logTask|]; [|discriminate].
    exists logTask. split; [reflexivity | now apply String.eqb_eq].
Qed.

(** The map that the loop over the logs builds: the latest DONE log of
    every task before position [n]. *)
Lemma collect_all_get (logs : list Log.t) :
  Forall (fun log => ~ unreadable tasks (Z.of_nat n) log) logs ->
  forall acc, exists m,
    collect_all tasks (Z.of_nat n) acc logs = Some m
    /\ (List.NoDup (List.map fst acc) -> List.NoDup (List.map fst m))
    /\ forall i,
         Map_get i m
         = match (if before tasks (Z.of_nat n) i
                  then latest_done i logs else None) with
           | Some log => result_of tasks i log
           | None => Map_get i acc
           end.
Proof.
  induction 1 as [|log logs Hlog _ IH]; intros acc.
  - exists acc. split; [reflexivity|]. split; [auto|].
    intros i. simpl. now destruct (before tasks (Z.of_nat n) i).
  - cbn [collect_all].
    destruct (is_done_update log) eqn:Hdone.
    + rewrite (collect_done _ _ _ _ Hdone).
      destruct (Log.task log) as [logTask|] eqn:Htask;
        [|exfalso; apply Hlog; split; [exact Hdone | now left]].
      destruct (before tasks (Z.of_nat n) (Task.id logTask)) eqn:Hbefore.
      * destruct (Log.metadata log) as [metadata|] eqn:Hmd;
          [|exfalso; apply Hlog; split; [exact Hdone|]; right;
            now exists logTask].
        destruct (IH (Map_set (Task.id logTask)
                        (mkTaskResult (Task.description logTask)
                           (Log.result metadata)
                           (findIndex (Task.has_id (Task.id logTask)) tasks))
                        acc))
          as [m [Hm [Hnodup Hget]]].
        exists m. split; [exact Hm|]. split.
        -- intros Hacc. apply Hnodup. now apply Map_set_NoDup.
        -- intros i. rewrite Hget. cbn [latest_done].
           destruct (before tasks (Z.of_nat n) i) eqn:Hi.
           ++ destruct (latest_done i logs); [reflexivity|].
              unfold done_for. rewrite Hdone, Htask. simpl.
              destruct (String.eqb (Task.id logTask) i) eqn:E.
              ** apply String.eqb_eq in E. subst i.
                 rewrite Map_get_set_eq. unfold result_of.
                 now rewrite Htask, Hmd.
              ** apply String.eqb_neq in E. now apply Map_get_set_ne.
           ++ apply Map_get_set_ne. intros E. subst i. congruence.
      * destruct (IH acc) as [m [Hm [Hnodup Hget]]].
        exists m. split; [exact Hm|]. split; [exact Hnodup|].
        intros i. rewrite Hget. cbn [latest_done].
        destruct (before tasks (Z.of_nat n) i) eqn:Hi; [|reflexivity].
        destruct (latest_done i logs); [reflexivity|].
        unfold done_for. rewrite Hdone, Htask. simpl.
        destruct (String.eqb (Task.id logTask) i) eqn:E; [|reflexivity].
        apply String.eqb_eq in E. subst i. congruence.
    + rewrite (collect_skips _ _ _ _ Hdone).
      destruct (IH acc) as [m [Hm [Hnodup Hget]]].
      exists m. split; [exact Hm|]. split; [exact Hnodup|].
      intros i. rewrite Hget. cbn [latest_done].
      destruct (before tasks (Z.of_nat n) i) eqn:Hi; [|reflexivity].
      destruct (latest_done i logs); [reflexivity|].
      unfold done_for. now rewrite Hdone.
Qed.

Lemma contribution_In (logs : list Log.t) (k : nat) (task : Task.t)
    (e : taskResult) :
  In e (contribution logs k task)
  <-> exists log logTask metadata,
        latest_done (Task.id task) logs = Some log
        /\ Log.task log = Some logTask
        /\ Log.metadata log = Some metadata
        /\ e = mkTaskResult (Task.description logTask)
                            (Log.result metadata) (Z.of_nat k).
Proof.
  unfold contribution. split.
  - destruct (latest_done (Task.id task) logs) as [log|]; [|intros []].
    destruct (Log.task log) as [logTask|] eqn:E; [|intros []].
    destruct (Log.metadata log) as [metadata|] eqn:E'; [|intros []].
    intros [<-|[]]. now exists log, logTask, metadata.
  - intros [log [logTask [metadata [-> [H [H' ->]]]]]]. rewrite H, H'. now left.
Qed.

Lemma contributions_In (logs : list Log.t) (ts : list Task.t) (e : taskResult) :
  forall k,
    In e (contributions logs k ts)
    <-> exists j task,
          nth_error ts j = Some task
          /\ In e (contribution logs (k + j) task).
Proof.
  induction ts as [|t ts IH]; intros k; simpl.
  - split; [intros [] | intros [[|j] [task [H _]]]; discriminate H].
  - rewrite List.in_app_iff, IH. split.
    + intros [H|[j [task [Hj H]]]].
      * exists 0%nat, t. rewrite Nat.add_0_r. now split.
      * exists (S j), task. split; [exact Hj|].
        now replace (k + S j)%nat with (S k + j)%nat by lia.
    + intros [[|j] [task [Hj H]]].
      * left. simpl in Hj. inversion Hj; subst.
        now rewrite Nat.add_0_r in H.
      * right. exists j, task. split; [exact Hj|].
        now replace (S k + j)%nat with (k + S j)%nat by lia.
Qed.

Lemma contributions_sorted (logs : list Log.t) (ts : list Task.t) :
  forall k,
    StronglySorted earlier (contributions logs k ts)
    /\ Forall (fun e => Z.of_nat k <= index e) (contributions logs k ts).
Proof.
  induction ts as [|t ts IH]; intros k; simpl.
  - split; constructor.
  - destruct (IH (S k)) as [Hsorted Hlow].
    unfold contribution.
    assert (Hnone : StronglySorted earlier ([] ++ contributions logs (S k) ts)
                    /\ Forall (fun e => Z.of_nat k <= index e)
                              ([] ++ contributions logs (S k) ts)).
    { split; [exact Hsorted|].
      eapply Forall_impl; [exact Hlow|]. intros e He. simpl in *. lia. }
    destruct (latest_done (Task.id t) logs) as [log|]; [|exact Hnone].
    destruct (Log.task log) as [logTask|]; [|exact Hnone].
    destruct (Log.metadata log) as [metadata|]; [|exact Hnone].
    simpl. split.
    + constructor; [exact Hsorted|].
      eapply Forall_impl; [exact Hlow|].
      intros e He. unfold earlier. simpl in *. lia.
    + constructor; [simpl; lia|].
      eapply Forall_impl; [exact Hlow|]. intros e He. simpl in *. lia.
Qed.

Lemma NoDup_map_by (A B C : Type) (f : A -> B) (g : A -> C) (l : list A) :
  List.NoDup (List.map f l) ->
  (forall x y, In x l -> In y l -> g x = g y -> f x = f y) ->
  List.NoDup (List.map g l).
Proof.
  induction l as [|a l IH]; simpl; intros Hnodup Hinj; [constructor|].
  inversion Hnodup as [|? ? Hnotin Hrest]; subst. constructor.
  - intros Hin. apply List.in_map_iff in Hin. destruct Hin as [y [Hy Hyl]].
    apply Hnotin. rewrite <- (Hinj y a); [now apply List.in_map | now right
                                         | now left | exact Hy].
  - apply IH; [exact Hrest|]. intros x y Hx Hy. apply Hinj; now right.
Qed.

(** The values of the final map, sorted, are the contributions of the
    tasks before position [n]. *)
Lemma sorted_results_are_contributions (logs : list Log.t)
    (m : list (string * taskResult)) :
  NoDup (List.map Task.id tasks) ->
  List.NoDup (List.map fst m) ->
  (forall i,
     Map_get i m
     = match (if before tasks (Z.of_nat n) i
              then latest_done i logs else None) with
       | Some log => result_of tasks i log
       | None => None
       end) ->
  sort_by_index (List.map snd m) = contributions logs 0 (firstn n tasks).
Proof.
  intros Hids Hkeys Hget.
  assert (Hentry : forall i e,
            In (i, e) m ->
            before tasks (Z.of_nat n) i = true
            /\ exists log logTask metadata,
                 latest_done i logs = Some log
                 /\ Log.task log = Some logTask
                 /\ Log.metadata log = Some metadata
                 /\ e = mkTaskResult (Task.description logTask)
                                     (Log.result metadata)
                                     (findIndex (Task.has_id i) tasks)).
  { intros i e Hin. apply (Map_get_In i e m Hkeys) in Hin.
    rewrite Hget in Hin.
    destruct (before tasks (Z.of_nat n) i); [|discriminate Hin].
    split; [reflexivity|].
    destruct (latest_done i logs) as [log|]; [|discriminate Hin].
    unfold result_of in Hin.
    destruct (Log.task log) as [logTask|] eqn:E; [|discriminate Hin].
    destruct (Log.metadata log) as [metadata|] eqn:E'; [|discriminate Hin].
    inversion Hin; subst e. now exists log, logTask, metadata. }
  assert (Hfound : forall i,
            before tasks (Z.of_nat n) i = true ->
            exists task,
              nth_error tasks (Z.to_nat (findIndex (Task.has_id i) tasks))
              = Some task
              /\ Task.id task = i
              /\ 0 <= findIndex (Task.has_id i) tasks < Z.of_nat n).
  { intros i Hi. unfold before in Hi. apply andb_true_iff in Hi.
    destruct Hi as [Hne Hlt]. apply negb_true_iff, Z.eqb_neq in Hne.
    apply Z.ltb_lt in Hlt.
    destruct (findIndex_found _ _ Hne) as [Hge [task [Hnth Hp]]].
    exists task. split; [exact Hnth|]. split; [now apply has_id_true | lia]. }
  apply sorted_same_elements.
  - apply sort_by_index_sorted. rewrite List.map_map.
    apply (NoDup_map_by _ _ _ fst); [exact Hkeys|].
    intros [i1 e1] [i2 e2] H1 H2 E. simpl in *.
    destruct (Hentry i1 e1 H1) as [Hb1 [l1 [t1 [m1 [_ [_ [_ ->]]]]]]].
    destruct (Hentry i2 e2 H2) as [Hb2 [l2 [t2 [m2 [_ [_ [_ ->]]]]]]].
    simpl in E.
    destruct (Hfound i1 Hb1) as [x1 [Hx1 [<- _]]].
    destruct (Hfound i2 Hb2) as [x2 [Hx2 [<- _]]].
    rewrite E in Hx1. congruence.
  - apply contributions_sorted.
  - intros e. rewrite sort_by_index_In, contributions_In. split.
    + intros Hin. apply List.in_map_iff in Hin.
      destruct Hin as [[i e'] [He Hin]]. simpl in He. subst e'.
      destruct (Hentry i e Hin)
        as [Hb [log [logTask [metadata [Hlatest [Htask [Hmd ->]]]]]]].
      destruct (Hfound i Hb) as [x [Hx [Hid Hrange]]].
      exists (Z.to_nat (findIndex (Task.has_id i) tasks)), x. split.
      * rewrite List.nth_error_firstn.
        replace (Nat.ltb _ n) with true; [exact Hx|].
        symmetry. apply Nat.ltb_lt. lia.
      * apply contribution_In. exists log, logTask, metadata. rewrite Hid.
        split; [exact Hlatest|]. split; [exact Htask|]. split; [exact Hmd|].
        f_equal. simpl. lia.
    + intros [j [task [Hj Hin]]].
      rewrite List.nth_error_firstn in Hj.
      destruct (Nat.ltb j n) eqn:Hjn; [|discriminate Hj].
      apply Nat.ltb_lt in Hjn.
      apply contribution_In in Hin.
      destruct Hin as [log [logTask [metadata [Hlatest [Htask [Hmd ->]]]]]].
      pose proof (findIndex_of_id tasks j task Hids Hj) as Hidx.
      apply List.in_map_iff. exists (Task.id task, mkTaskResult
        (Task.description logTask) (Log.result metadata)
        (Z.of_nat (0 + j))).
      split; [reflexivity|]. apply (Map_get_In _ _ m Hkeys).
      rewrite Hget. unfold before. rewrite Hidx.
      replace (negb (Z.of_nat j =? -1) && (Z.of_nat j <? Z.of_nat n))
        with true.
      * rewrite Hlatest. unfold result_of. now rewrite Htask, Hmd, Hidx.
      * symmetry. apply andb_true_iff. split.
        -- apply negb_true_iff, Z.eqb_neq. lia.
        -- apply Z.ltb_lt. lia.
Qed.

End DerivedContext.

(** C8 (amended): for a task list with distinct ids and the task at
    position [n], [deriveContextFromLogs] throws when the logs hold a DONE
    entry without a task, or a DONE entry without metadata of a task
    before position [n]. On every other list of logs the derived context
    consists, in declaration order, of one entry
    "Task: {description}\nResult: {result}\n" for every task before
    position [n] that has a DONE log, taken from the latest such log, with
    a result of type object printed by [JSON.stringify]; the entries are
    joined with a line feed between them, not concatenated. Tasks at or
    after position [n] and tasks never DONE contribute nothing. *)
Theorem derived_context_joins_entries
    (logs : list Log.t) (state : State.t) (n : nat) (current : Task.t) :
  NoDup (List.map Task.id (State.tasks state)) ->
  nth_error (State.tasks state) n = Some current ->
  let derived :=
    TeamStore.deriveContextFromLogs logs (Task.id current) state in
  (Exists (unreadable (State.tasks state) (Z.of_nat n)) logs ->
   derived = None)
  /\ (Forall (fun log => ~ unreadable (State.tasks state) (Z.of_nat n) log)
             logs ->
      derived = Some (joined_context logs (State.tasks state) n)).
Proof.
  intros Hids Hcurrent. cbv zeta.
  unfold TeamStore.deriveContextFromLogs, joined_context.
  rewrite (findIndex_of_id _ _ _ Hids Hcurrent).
  replace (Z.of_nat n =? -1) with false by (symmetry; apply Z.eqb_neq; lia).
  split.
  - intros Hbad.
    apply (collect_all_throws (State.tasks state) (Z.of_nat n) logs []) in Hbad.
    now rewrite Hbad.
  - intros Hlogs.
    destruct (collect_all_get (State.tasks state) n logs Hlogs [])
      as [m [-> [Hkeys Hget]]].
    do 2 f_equal.
    rewrite (List.map_ext _ _ entry_entry_text). f_equal.
    apply sorted_results_are_contributions; [exact Hids | | ].
    + apply Hkeys. constructor.
    + intros i. rewrite Hget.
      now destruct (if before (State.tasks state) (Z.of_nat n) i
                    then latest_done i logs else None).
Qed.

Lemma derived_context_joins_entries_witness :
  let state := State.set_tasks finished_row sample_state in
  let bare :=
    Log.mk 0 (Some (sample_task "first" TASK_STATUS_enum.DONE)) None None None
           "Task completed." (Log.Known TASK_STATUS_enum.DONE) Log.Absent
           None None Log.TaskStatusUpdate in
  NoDup (List.map Task.id (State.tasks state))
  /\ Forall (fun log => ~ unreadable (State.tasks state) 2 log) finished_logs
  /\ TeamStore.deriveContextFromLogs finished_logs "third" state
     = Some (joined_context finished_logs finished_row 2)
  /\ Exists (unreadable (State.tasks state) 2) (finished_logs ++ [bare])
  /\ TeamStore.deriveContextFromLogs (finished_logs ++ [bare]) "third" state
     = None.
Proof.
  intros state bare.
  assert (Hids : NoDup (List.map Task.id (State.tasks state))).
  { simpl. repeat constructor; rewrite ?list_elem_of_In; simpl;
      intuition discriminate. }
  assert (Hlogs : Forall (fun log => ~ unreadable (State.tasks state) 2 log)
                         finished_logs).
  { repeat constructor; intros [_ [H|[t [_ [_ H]]]]]; discriminate H. }
  assert (Hbad : Exists (unreadable (State.tasks state) 2)
                        (finished_logs ++ [bare])).
  { apply Exists_exists. exists bare. split.
    - apply list_elem_of_In, List.in_or_app. right. now left.
    - split; [reflexivity|]. right. eexists. repeat split. }
  split; [exact Hids|]. split; [exact Hlogs|]. split.
  - exact (proj2 (derived_context_joins_entries finished_logs state 2
                    (sample_task "third" TASK_STATUS_enum.TODO)
                    Hids eq_refl) Hlogs).
  - split; [exact Hbad|].
    exact (proj1 (derived_context_joins_entries (finished_logs ++ [bare])
                    state 2 (sample_task "third" TASK_STATUS_enum.TODO)
                    Hids eq_refl) Hbad).
Defined.

(** ** The cleaned snapshot *)

Section SnapshotFacts.
Import Snapshot.

Lemma lookup_set (k k' : string) (v : JsValue) (ps : list (string * JsValue)) :
  Js.lookup k (Js.set k' v ps)
  = if String.eqb k' k then Some v else Js.lookup k ps.
Proof.
  induction ps as [|[k0 v0] ps IH]; simpl.
  - reflexivity.
  - destruct (String.eqb k0 k') eqn:E; simpl.
    + apply String.eqb_eq in E. subst k0.
      now destruct (String.eqb k' k).
    + rewrite IH. destruct (String.eqb k0 k) eqn:E0; [|reflexivity].
      apply String.eqb_eq in E0. subst k0.
      now rewrite String.eqb_sym, E.
Qed.

Lemma prop_set (k k' : string) (v : JsValue) (ps : list (string * JsValue)) :
  Js.prop k (JsObj (Js.set k' v ps))
  = if String.eqb k' k then v else Js.prop k (JsObj ps).
Proof.
  unfold Js.prop. rewrite lookup_set. now destruct (String.eqb k' k).
Qed.

(** Reads the properties of object literals written with [Js.extend]. *)
Ltac read_props :=
  unfold redacted, Js.extend; cbn [fold_left fst snd];
  repeat (rewrite prop_set; cbn [String.eqb Ascii.eqb Bool.eqb]);
  try reflexivity.

Lemma cleanLlmConfig_cleaned (x : JsValue) :
  llmConfig_cleaned (Js.prop "llmConfig" x) (cleanLlmConfig x).
Proof.
  unfold cleanLlmConfig, llmConfig_cleaned.
  destruct (Js.truthy (Js.prop "llmConfig" x)); [|reflexivity].
  read_props.
Qed.

Lemma cleanAgent_cleaned (agent cleaned : JsValue) :
  cleanAgent agent = Some cleaned -> agent_cleaned agent cleaned.
Proof.
  unfold cleanAgent. intros H.
  destruct (Js.nullish agent); [discriminate H|].
  inversion H as [E]. clear H E cleaned.
  unfold agent_cleaned.
  split; [read_props|]. split; [read_props|]. split.
  - read_props. apply cleanLlmConfig_cleaned.
  - destruct (Js.truthy (Js.prop "agentInstance" agent)); [|read_props].
    split; [read_props|]. split; [read_props|].
    read_props. apply cleanLlmConfig_cleaned.
Qed.

Lemma cleanFeedback_redacted (feedback : JsValue) :
  redacted "timestamp" (cleanFeedback feedback).
Proof. unfold cleanFeedback. read_props. Qed.

Lemma cleanTask_cleaned (task cleaned : JsValue) :
  cleanTask task = Some cleaned -> task_cleaned task cleaned.
Proof.
  unfold cleanTask. intros H.
  destruct (Js.nullish task); [discriminate H|].
  apply bind_Some in H. destruct H as [agent' [Hagent H]].
  apply bind_Some in H. destruct H as [feedbackHistory' [Hfeedback H]].
  inversion H as [E]. clear H E cleaned.
  assert (Hagent' : if Js.truthy (Js.prop "agent" task)
                    then agent_cleaned (Js.prop "agent" task) agent'
                    else agent' = JsNull).
  { destruct (Js.truthy (Js.prop "agent" task)).
    - now apply cleanAgent_cleaned.
    - now inversion Hagent. }
  assert (Hfeedback' :
    exists fs, feedbackHistory' = JsArr fs
               /\ Forall (redacted "timestamp") fs
               /\ length fs = match Js.prop "feedbackHistory" task with
                              | JsArr originals => length originals
                              | _ => 0%nat
                              end).
  { destruct (Js.truthy (Js.prop "feedbackHistory" task)) eqn:Htruthy.
    - destruct (Js.prop "feedbackHistory" task) as [| | | | |fs|];
        try discriminate Hfeedback.
      inversion Hfeedback. eexists. split; [reflexivity|]. split.
      + apply List.Forall_forall. intros f Hf. apply List.in_map_iff in Hf.
        destruct Hf as [f0 [<- _]]. apply cleanFeedback_redacted.
      + apply List.length_map.
    - inversion Hfeedback. exists []. split; [reflexivity|].
      split; [constructor|].
      now destruct (Js.prop "feedbackHistory" task). }
  clear Hagent Hfeedback.
  unfold task_cleaned, agent_of_cleaned.
  destruct (Js.truthy (Js.prop "referenceId" task));
    destruct (Js.truthy match Js.prop "allowParallelExecution" task with
                        | JsUndefined => JsBool false
                        | v => v
                        end);
    (split; [read_props|]); (split; [read_props|]); (split; [read_props|]);
    (split; [read_props|]); (split; read_props; assumption).
Qed.

Lemma cleanMetadata_cleaned (metadata : JsValue) :
  Js.truthy metadata = true ->
  metadata_cleaned metadata (cleanMetadata metadata).
Proof.
  intros Htruthy. unfold cleanMetadata, metadata_cleaned. rewrite Htruthy.
  split; [read_props|]. split; [read_props|]. split; [read_props|].
  destruct (Js.truthy (Js.prop "feedback" metadata)).
  - read_props. apply cleanFeedback_redacted.
  - read_props.
Qed.

Lemma cleanLog_cleaned (log cleaned : JsValue) :
  cleanLog log = Some cleaned -> log_cleaned log cleaned.
Proof.
  unfold cleanLog. intros H.
  destruct (Js.nullish log); [discriminate H|].
  apply bind_Some in H. destruct H as [agent' [Hagent H]].
  apply bind_Some in H. destruct H as [task' [Htask H]].
  inversion H as [E]. clear H E cleaned.
  assert (Hagent' : if Js.truthy (Js.prop "agent" log)
                    then agent_cleaned (Js.prop "agent" log) agent'
                    else agent' = JsNull).
  { destruct (Js.truthy (Js.prop "agent" log)).
    - now apply cleanAgent_cleaned.
    - now inversion Hagent. }
  assert (Htask' : if Js.truthy (Js.prop "task" log)
                   then task_cleaned (Js.prop "task" log) task'
                   else task' = JsNull).
  { destruct (Js.truthy (Js.prop "task" log)).
    - now apply cleanTask_cleaned.
    - now inversion Htask. }
  clear Hagent Htask. unfold log_cleaned, agent_of_cleaned.
  split; [read_props|]. split; [read_props; assumption|].
  split; [read_props; assumption|]. read_props.
  destruct (Js.truthy (Js.prop "metadata" log)) eqn:Hmetadata.
  - now apply cleanMetadata_cleaned.
  - unfold metadata_cleaned. now rewrite Hmetadata.
Qed.

Lemma mapM_Forall2 (f : JsValue -> option JsValue)
    (P : JsValue -> JsValue -> Prop) (xs ys : list JsValue) :
  (forall x y, f x = Some y -> P x y) ->
  mapM f xs = Some ys -> Forall2 P xs ys.
Proof.
  intros HP H. apply mapM_Some in H.
  induction H as [|x y xs ys Hxy _ IH]; constructor; [|exact IH].
  now apply HP.
Qed.

Lemma truthy_not_nullish (v : JsValue) :
  Js.truthy v = true -> Js.nullish v = false.
Proof. now destruct v. Qed.

Lemma cleanAgent_returns (agent : JsValue) :
  Js.nullish agent = false -> is_Some (cleanAgent agent).
Proof. intros H. unfold cleanAgent. rewrite H. eauto. Qed.

Lemma cleanTask_returns (task : JsValue) :
  task_shaped task -> is_Some (cleanTask task).
Proof.
  intros [Hnull Hfeedback]. unfold cleanTask. rewrite Hnull.
  assert (Hagent : is_Some (if Js.truthy (Js.prop "agent" task)
                            then cleanAgent (Js.prop "agent" task)
                            else Some JsNull)).
  { destruct (Js.truthy (Js.prop "agent" task)) eqn:E; [|eauto].
    now apply cleanAgent_returns, truthy_not_nullish. }
  destruct Hagent as [agent' ->]. cbn [mbind option_bind].
  destruct (Js.truthy (Js.prop "feedbackHistory" task)) eqn:E.
  - destruct (Hfeedback eq_refl) as [fs ->]. cbn. eauto.
  - cbn. eauto.
Qed.

Lemma cleanLog_returns (log : JsValue) :
  log_shaped log -> is_Some (cleanLog log).
Proof.
  intros [Hnull Htask]. unfold cleanLog. rewrite Hnull.
  assert (Hagent : is_Some (if Js.truthy (Js.prop "agent" log)
                            then cleanAgent (Js.prop "agent" log)
                            else Some JsNull)).
  { destruct (Js.truthy (Js.prop "agent" log)) eqn:E; [|eauto].
    now apply cleanAgent_returns, truthy_not_nullish. }
  destruct Hagent as [agent' ->]. cbn [mbind option_bind].
  assert (Htask' : is_Some (if Js.truthy (Js.prop "task" log)
                            then cleanTask (Js.prop "task" log)
                            else Some JsNull)).
  { destruct (Js.truthy (Js.prop "task" log)) eqn:E; [|eauto].
    now apply cleanTask_returns, Htask. }
  destruct Htask' as [task' ->]. cbn. eauto.
Qed.

Lemma mapM_returns (f : JsValue -> option JsValue) (P : JsValue -> Prop)
    (xs : list JsValue) :
  (forall x, P x -> is_Some (f x)) ->
  Forall P xs -> is_Some (mapM f xs).
Proof.
  intros HP H. apply mapM_is_Some. eapply Forall_impl; [exact H|].
  intros x Hx. now apply HP.
Qed.

Lemma getCleanedState_snapshot
    (s : state) (snapshot : list (string * JsValue)) :
  getCleanedState s = Some snapshot -> snapshot_redacted s snapshot.
Proof.
  unfold getCleanedState, snapshot_redacted. intros H.
  apply bind_Some in H. destruct H as [cleanedAgents [Hagents H]].
  apply bind_Some in H. destruct H as [cleanedTasks [Htasks H]].
  apply bind_Some in H. destruct H as [cleanedWorkflowLogs [Hlogs H]].
  inversion H as [E]. clear H E snapshot.
  split; [reflexivity|]. split; [|repeat split].
  exists cleanedAgents, cleanedTasks, cleanedWorkflowLogs.
  split; [reflexivity|].
  split; [exact (mapM_Forall2 _ _ _ _ cleanAgent_cleaned Hagents)|].
  split; [reflexivity|].
  split; [exact (mapM_Forall2 _ _ _ _ cleanTask_cleaned Htasks)|].
  split; [reflexivity|].
  exact (mapM_Forall2 _ _ _ _ cleanLog_cleaned Hlogs).
Qed.

(** C9, as the claim states it, fails for an agent without [llmConfig]
    and for a log without metadata: the snapshot gives the agent an empty
    [llmConfig], so its [llmConfig.apiKey] is undefined and not the
    sentinel, and gives the log an empty [metadata], which has no
    redacted times. *)
Lemma snapshot_of_bare_agent_has_no_apiKey :
  exists cleanedAgent cleanedLog snapshot,
    getCleanedState bare_state = Some snapshot
    /\ Js.lookup "agents" snapshot = Some (JsArr [cleanedAgent])
    /\ Js.lookup "workflowLogs" snapshot = Some (JsArr [cleanedLog])
    /\ Js.prop "llmConfig" cleanedAgent = JsObj []
    /\ Js.prop "apiKey" (Js.prop "llmConfig" cleanedAgent) = JsUndefined
    /\ ~ redacted "apiKey" (Js.prop "llmConfig" cleanedAgent)
    /\ Js.prop "metadata" cleanedLog = JsObj []
    /\ ~ redacted "duration" (Js.prop "metadata" cleanedLog).
Proof.
  eexists _, _, _. split; [reflexivity|].
  split; [reflexivity|]. split; [reflexivity|].
  split; [reflexivity|]. split; [reflexivity|].
  split; [intros H; discriminate H|].
  split; [reflexivity | intros H; discriminate H].
Qed.

(** C9 (amended): [getCleanedState] returns a snapshot of every state
    whose agents, tasks and logs are objects. The snapshot has exactly the
    nine fields, the six plain ones copied from the state, and its agents,
    tasks and logs stand one by one for those of the state. Every agent
    (those of the state, of the tasks and of the logs) has the sentinel
    for [id] and [env], also in its [agentInstance]; an agent or an
    [agentInstance] that has an [llmConfig] has the sentinel for its
    [apiKey], and one without has the empty object for [llmConfig]. Every
    task (those of the state and of the logs) has the sentinel for [id],
    [duration], [startTime] and [endTime] and for the [timestamp] of each
    feedback record. Every log has the sentinel for [timestamp]; a log
    with metadata has the sentinel for the three times of the metadata
    and for the [timestamp] of its feedback, and a log without has the
    empty object for [metadata]. *)
Theorem getCleanedState_redacts (s : state) :
  (state_shaped s -> is_Some (getCleanedState s))
  /\ (forall snapshot,
        getCleanedState s = Some snapshot -> snapshot_redacted s snapshot).
Proof.
  split; [|apply getCleanedState_snapshot].
  intros [Hagents [Htasks Hlogs]]. unfold getCleanedState.
  destruct (mapM_returns cleanAgent _ _ cleanAgent_returns Hagents) as [a ->].
  destruct (mapM_returns cleanTask _ _ cleanTask_returns Htasks) as [t ->].
  destruct (mapM_returns cleanLog _ _ cleanLog_returns Hlogs) as [l ->].
  cbn. eauto.
Qed.

End SnapshotFacts.

Lemma getCleanedState_redacts_witness :
  state_shaped secret_state
  /\ exists snapshot,
       Snapshot.getCleanedState secret_state = Some snapshot
       /\ snapshot_redacted secret_state snapshot.
Proof.
  assert (Hshape : state_shaped secret_state).
  { split; [|split]; repeat constructor; simpl; try discriminate.
    - intros _. eexists. reflexivity.
    - intros _. eexists. reflexivity. }
  split; [exact Hshape|].
  destruct (getCleanedState_redacts secret_state) as [Hreturns Hredacted].
  destruct (Hreturns Hshape) as [snapshot Hsnapshot].
  exists snapshot. split; [exact Hsnapshot | exact (Hredacted snapshot Hsnapshot)].
Defined.

(** The secrets and the times of the sample state are gone from its
    snapshot. *)
Example secret_state_snapshot :
  option_map (fun snapshot => Js.lookup "agents" snapshot)
             (Snapshot.getCleanedState secret_state)
  = Some (Some (JsArr
      [JsObj [("id", Snapshot.REDACTED); ("name", JsStr "Ada");
              ("env", Snapshot.REDACTED);
              ("llmConfig", JsObj [("model", JsStr "m");
                                   ("apiKey", Snapshot.REDACTED)]);
              ("agentInstance",
               JsObj [("id", Snapshot.REDACTED);
                      ("llmConfig", JsObj [("apiKey", Snapshot.REDACTED)]);
                      ("env", Snapshot.REDACTED)])]])).
Proof. reflexivity. Qed.

(** * Further properties of the code *)

(** ** Status updates, reset and clearAll *)

Lemma updateTaskStatus_tasks (taskId : string) (status : TASK_STATUS_enum.t)
    (state : State.t) :
  State.tasks (TeamStore.updateTaskStatus taskId status state)
  = List.map (fun task => if Task.has_id taskId task
                          then Task.set_status status task else task)
             (State.tasks state).
Proof. unfold TeamStore.updateTaskStatus. apply tasks_set_tasks. Qed.

Lemma has_id_set_status (i : string) (s : TASK_STATUS_enum.t) (k : Task.t) :
  Task.has_id i (Task.set_status s k) = Task.has_id i k.
Proof. now destruct k. Qed.

Lemma updateTaskStatus_ids (taskId : string) (status : TASK_STATUS_enum.t)
    (state : State.t) :
  List.map Task.id (State.tasks (TeamStore.updateTaskStatus taskId status state))
  = List.map Task.id (State.tasks state).
Proof.
  rewrite updateTaskStatus_tasks, List.map_map. apply List.map_ext.
  intros k. destruct (Task.has_id taskId k); [now destruct k | reflexivity].
Qed.

(** X2: how the status updates compose.
    [updateStatusOfMultipleTasks(ids, status)] gives the state that
    calling [updateTaskStatus(id, status)] for each id of the list in turn
    gives, and with an empty list the state it was called on; of two
    calls of [updateTaskStatus] for one id the later one decides, and
    calls for two different ids can be made in either order; no update
    changes the ids of the tasks or their order. *)
Theorem status_updates_compose
    (i j : string) (a b : TASK_STATUS_enum.t) (taskIds : list string)
    (state : State.t) :
  TeamStore.updateStatusOfMultipleTasks taskIds a state
  = fold_left (fun acc taskId => TeamStore.updateTaskStatus taskId a acc)
              taskIds state
  /\ TeamStore.updateStatusOfMultipleTasks [] a state = state
  /\ TeamStore.updateTaskStatus i b (TeamStore.updateTaskStatus i a state)
     = TeamStore.updateTaskStatus i b state
  /\ (i <> j ->
      TeamStore.updateTaskStatus i a (TeamStore.updateTaskStatus j b state)
      = TeamStore.updateTaskStatus j b (TeamStore.updateTaskStatus i a state))
  /\ List.map Task.id (State.tasks (TeamStore.updateTaskStatus i a state))
     = List.map Task.id (State.tasks state)
  /\ List.map Task.id
       (State.tasks (TeamStore.updateStatusOfMultipleTasks taskIds a state))
     = List.map Task.id (State.tasks state).
Proof.
  split; [symmetry; apply fold_updateTaskStatus|].
  split; [rewrite <- fold_updateTaskStatus; reflexivity|].
  split; [|split; [|split]].
  - unfold TeamStore.updateTaskStatus at 1 3.
    rewrite updateTaskStatus_tasks. unfold TeamStore.updateTaskStatus.
    rewrite set_tasks_set_tasks, List.map_map. f_equal.
    apply List.map_ext. intros k.
    destruct (Task.has_id i k) eqn:E.
    + rewrite has_id_set_status, E. apply set_status_set_status.
    + now rewrite E.
  - intros Hne.
    unfold TeamStore.updateTaskStatus at 1 3.
    rewrite !updateTaskStatus_tasks. unfold TeamStore.updateTaskStatus.
    rewrite !set_tasks_set_tasks, !List.map_map. f_equal.
    apply List.map_ext. intros k.
    destruct (Task.has_id i k) eqn:Ei; destruct (Task.has_id j k) eqn:Ej;
      rewrite ?has_id_set_status, ?Ei, ?Ej; try reflexivity.
    apply has_id_true in Ei, Ej. congruence.
  - apply updateTaskStatus_ids.
  - unfold TeamStore.updateStatusOfMultipleTasks. rewrite tasks_set_tasks.
    rewrite List.map_map. apply List.map_ext. intros k.
    destruct (includes taskIds (Task.id k)); [now destruct k | reflexivity].
Qed.

Lemma status_updates_compose_witness :
  "t1" <> "t2"
  /\ TeamStore.updateTaskStatus "t1" TASK_STATUS_enum.DOING
       (TeamStore.updateTaskStatus "t2" TASK_STATUS_enum.DONE awaiting_state)
     = TeamStore.updateTaskStatus "t2" TASK_STATUS_enum.DONE
         (TeamStore.updateTaskStatus "t1" TASK_STATUS_enum.DOING
                                     awaiting_state).
Proof.
  assert (Hne : "t1" <> "t2") by discriminate.
  split; [exact Hne|].
  exact (proj1 (proj2 (proj2 (proj2
           (status_updates_compose "t1" "t2" TASK_STATUS_enum.DOING
              TASK_STATUS_enum.DONE [] awaiting_state)))) Hne).
Defined.

Lemma holds_one_of_reset (agents : list Agent.t) (task : Task.t) :
  TeamStore.holds_one_of (List.map TeamStore.resetAgent agents) task
  = TeamStore.holds_one_of agents task.
Proof.
  unfold TeamStore.holds_one_of. destruct (Task.agent task) as [a|];
    [|reflexivity].
  induction agents as [|b agents IH]; [reflexivity|].
  simpl. now rewrite IH.
Qed.

(** A second reset finds every task and every agent as the first one left
    them. *)
Lemma reset_task_twice (agents : list Agent.t) (task : Task.t) :
  let in_place agents task :=
    if TeamStore.holds_one_of agents task
    then Task.set_agent (option_map TeamStore.resetAgent (Task.agent task))
                        task
    else task in
  in_place (List.map TeamStore.resetAgent agents)
    (Task.set_status TASK_STATUS_enum.TODO
       (in_place agents (Task.set_status TASK_STATUS_enum.TODO task)))
  = in_place agents (Task.set_status TASK_STATUS_enum.TODO task).
Proof.
  cbv beta zeta. rewrite holds_one_of_reset.
  destruct task as [i d st ds [a|] dl r fh inp itd];
    unfold TeamStore.holds_one_of; cbn.
  - destruct (existsb _ agents) eqn:E; cbn; rewrite E; [|reflexivity].
    now destruct a.
  - reflexivity.
Qed.

(** X3: [resetWorkflowStateAction] and [clearAll] are idempotent, and
    each leaves one thing the other empties. The reset sets every task to
    TODO and every agent to INITIAL with an empty history, empties the
    logs and the internal memory, and keeps the ids of the tasks and the
    inputs; [clearAll] empties the agents, the tasks, the logs and the
    inputs, and keeps [workflowInternalMemory]. A reset after
    [clearAll], and [clearAll] after a reset, both give what
    [clearWorkflowInternalMemory] makes of the cleared state. *)
Theorem reset_and_clearAll_are_idempotent (state : State.t) :
  let reset := TeamStore.resetWorkflowStateAction state in
  let cleared := TeamStore.clearAll state in
  TeamStore.resetWorkflowStateAction reset = reset
  /\ TeamStore.clearAll cleared = cleared
  /\ Forall (fun task => Task.status task = TASK_STATUS_enum.TODO)
            (State.tasks reset)
  /\ Forall (fun agent => Agent.status agent = AGENT_STATUS_enum.INITIAL
                          /\ Agent.interactionsHistory agent = []
                          /\ Agent.lastFeedbackMessage agent = None
                          /\ Agent.currentIterations agent = 0)
            (State.agents reset)
  /\ List.map Task.id (State.tasks reset) = List.map Task.id (State.tasks state)
  /\ List.map Agent.id (State.agents reset)
     = List.map Agent.id (State.agents state)
  /\ State.workflowLogs reset = []
  /\ State.workflowInternalMemory reset = JsObj []
  /\ State.inputs reset = State.inputs state
  /\ State.tasks cleared = []
  /\ State.agents cleared = []
  /\ State.workflowLogs cleared = []
  /\ State.inputs cleared = JsObj []
  /\ State.workflowInternalMemory cleared = State.workflowInternalMemory state
  /\ TeamStore.resetWorkflowStateAction cleared
     = TeamStore.clearWorkflowInternalMemory cleared
  /\ TeamStore.clearAll reset = TeamStore.clearWorkflowInternalMemory cleared.
Proof.
  cbv zeta.
  pose proof (resetWorkflowStateAction_tasks state) as Htasks.
  split; [|split; [|split; [|split; [|split; [|split]]]]].
  - unfold TeamStore.resetWorkflowStateAction. cbn. f_equal.
    + rewrite List.map_map. apply List.map_ext. now intros [].
    + rewrite !List.map_map. apply List.map_ext. intros task.
      apply reset_task_twice.
  - now destruct state.
  - induction Htasks as [|old new olds news [Hstatus _] _ IH];
      constructor; assumption.
  - cbn. apply List.Forall_forall. intros agent Hin.
    apply List.in_map_iff in Hin. destruct Hin as [k [<- _]]. now destruct k.
  - induction Htasks as [|old new olds news [_ [_ [Hid _]]] _ IH];
      [reflexivity|]. simpl. now rewrite Hid, IH.
  - cbn. rewrite List.map_map. apply List.map_ext. now intros [].
  - destruct state. repeat split.
Qed.

(** ** The internal memory *)

Lemma lookup_not_key (k : string) (ps : list (string * JsValue)) :
  ~ In k (Js.keys ps) -> Js.lookup k ps = None.
Proof.
  induction ps as [|[k' v] ps IH]; simpl; intros Hnot; [reflexivity|].
  destruct (String.eqb k' k) eqn:E.
  - apply String.eqb_eq in E. exfalso. apply Hnot. now left.
  - apply IH. intros Hin. apply Hnot. now right.
Qed.

(** The properties of [{ ...base, k1: v1, ..., kn: vn }] with distinct
    names [k1 ... kn]. *)
Lemma lookup_extend (k : string) (kvs : list (string * JsValue)) :
  forall base,
    NoDup (Js.keys kvs) ->
    Js.lookup k (Js.extend base kvs)
    = match Js.lookup k kvs with
      | Some v => Some v
      | None => Js.lookup k base
      end.
Proof.
  induction kvs as [|[k' v'] kvs IH]; intros base Hnodup; [reflexivity|].
  unfold Js.keys in Hnodup. simpl in Hnodup.
  apply NoDup_cons in Hnodup. destruct Hnodup as [Hnotin Hnodup].
  unfold Js.extend in *. cbn [fold_left fst snd Js.lookup].
  rewrite IH by exact Hnodup. rewrite lookup_set.
  destruct (String.eqb k' k) eqn:E; [|reflexivity].
  apply String.eqb_eq in E. subst k'.
  rewrite lookup_not_key; [reflexivity|].
  intros Hin. apply Hnotin. now apply list_elem_of_In.
Qed.

(** X4: [updateWorkflowInternalMemory(updates)] merges: in the new memory
    a key that [updates] has holds the value of [updates], any other key
    holds what it held before, so no key is lost; nothing else of the
    state changes, and clearing the memory afterwards gives what clearing
    it before gives. *)
Theorem updateWorkflowInternalMemory_merges
    (updates : JsValue) (state : State.t) (k : string) :
  NoDup (Js.keys (Js.spread updates)) ->
  let state' := TeamStore.updateWorkflowInternalMemory updates state in
  Js.prop k (State.workflowInternalMemory state')
  = match Js.lookup k (Js.spread updates) with
    | Some v => v
    | None =>
        default JsUndefined
          (Js.lookup k (Js.spread (State.workflowInternalMemory state)))
    end
  /\ State.set_workflowInternalMemory (State.workflowInternalMemory state)
       state' = state
  /\ TeamStore.clearWorkflowInternalMemory state'
     = TeamStore.clearWorkflowInternalMemory state.
Proof.
  intros Hnodup. cbv zeta. split; [|split].
  - unfold TeamStore.updateWorkflowInternalMemory.
    destruct state; cbn [State.workflowInternalMemory
                           State.set_workflowInternalMemory].
    unfold Js.prop. rewrite (lookup_extend k _ _ Hnodup).
    now destruct (Js.lookup k (Js.spread updates)).
  - now destruct state.
  - now destruct state.
Qed.

Lemma updateWorkflowInternalMemory_merges_witness :
  let updates :=
    JsObj [("b", JsNum (Js.number 3)); ("c", JsNum (Js.number 4))] in
  let state :=
    State.set_workflowInternalMemory
      (JsObj [("a", JsNum (Js.number 1)); ("b", JsNum (Js.number 2))])
      sample_state in
  NoDup (Js.keys (Js.spread updates))
  /\ Js.prop "a" (State.workflowInternalMemory
                    (TeamStore.updateWorkflowInternalMemory updates state))
     = JsNum (Js.number 1)
  /\ Js.prop "b" (State.workflowInternalMemory
                    (TeamStore.updateWorkflowInternalMemory updates state))
     = JsNum (Js.number 3).
Proof.
  intros updates state.
  assert (Hnodup : NoDup (Js.keys (Js.spread updates))).
  { simpl. repeat constructor; rewrite ?list_elem_of_In; simpl;
      intuition discriminate. }
  split; [exact Hnodup|]. split.
  - exact (proj1 (updateWorkflowInternalMemory_merges updates state "a" Hnodup)).
  - exact (proj1 (updateWorkflowInternalMemory_merges updates state "b" Hnodup)).
Defined.

(** ** Feedback and validation *)

Lemma find_split {A : Type} (p : A -> bool) (xs : list A) (x : A) :
  List.find p xs = Some x ->
  exists pre post,
    xs = pre ++ x :: post /\ Forall (fun y => p y = false) pre /\ p x = true.
Proof.
  induction xs as [|y xs IH]; simpl; [discriminate|].
  destruct (p y) eqn:E.
  - intros H. inversion H; subst y. exists [], xs. now repeat split.
  - intros H. destruct (IH H) as [pre [post [-> [Hpre Hx]]]].
    exists (y :: pre), post. repeat split; [|exact Hx]. now constructor.
Qed.

Lemma find_findIndex {A : Type} (p : A -> bool) (xs : list A) (x : A) :
  List.find p xs = Some x ->
  (findIndex p xs =? -1) = false /\ at_index xs (findIndex p xs) = Some x.
Proof.
  intros H. destruct (find_split p xs x H) as [pre [post [-> [Hpre Hx]]]].
  rewrite (findIndex_first p pre post x Hpre Hx). split.
  - apply Z.eqb_neq. lia.
  - unfold at_index.
    replace (Z.of_nat (length pre) <? 0) with false
      by (symmetry; apply Z.ltb_ge; lia).
    rewrite Nat2Z.id, List.nth_error_app2 by lia.
    now rewrite Nat.sub_diag.
Qed.

(** The first task with the id [i] in a list whose tasks with that id
    were replaced by [u]. *)
Lemma find_replaced (i : string) (u x : Task.t) (tasks : list Task.t) :
  Task.id u = i ->
  List.find (Task.has_id i) tasks = Some x ->
  List.find (Task.has_id i)
            (List.map (fun t => if Task.has_id i t then u else t) tasks)
  = Some u.
Proof.
  intros Hu. induction tasks as [|y tasks IH]; simpl; [discriminate|].
  destruct (Task.has_id i y) eqn:E.
  - intros _. apply has_id_true in Hu. now rewrite Hu.
  - intros H. rewrite E. now apply IH.
Qed.

Section FeedbackFacts.
Variable getTaskTitleForLogs : Task.t -> string.

Lemma provideFeedback_found (t1 t2 t3 : Z) (taskId feedbackContent : string)
    (state : State.t) (task : Task.t) :
  List.find (Task.has_id taskId) (State.tasks state) = Some task ->
  exists workflowLog taskLog,
    TeamStore.provideFeedback getTaskTitleForLogs t1 t2 t3 taskId
                              feedbackContent state
    = State.set_tasks
        (List.map (fun t => if Task.has_id taskId t
                            then with_feedback (feedback_of t1 feedbackContent)
                                               task
                            else t)
                  (State.tasks state))
        (State.set_workflowLogs
           (State.workflowLogs state ++ [workflowLog; taskLog])
           (State.set_teamWorkflowStatus WORKFLOW_STATUS_enum.RUNNING state))
    /\ Log.logType workflowLog = Log.WorkflowStatusUpdate
    /\ Log.workflowStatus workflowLog = Some WORKFLOW_STATUS_enum.RUNNING
    /\ Log.task workflowLog = Some task
    /\ Log.timestamp workflowLog = t2
    /\ (Log.metadata workflowLog ≫= Log.feedback)
       = Some (feedback_of t1 feedbackContent)
    /\ Log.logType taskLog = Log.TaskStatusUpdate
    /\ Log.taskStatus taskLog = Log.Known TASK_STATUS_enum.REVISE
    /\ Log.task taskLog
       = Some (with_feedback (feedback_of t1 feedbackContent) task)
    /\ Log.timestamp taskLog = t3
    /\ (Log.metadata taskLog ≫= Log.feedback)
       = Some (feedback_of t1 feedbackContent).
Proof.
  intros Hfind. destruct (find_findIndex _ _ _ Hfind) as [Hidx Hat].
  unfold TeamStore.provideFeedback. rewrite Hidx, Hat.
  eexists _, _. split; [reflexivity|]. repeat split.
Qed.

(** X5: when a task of the store has the given id, [provideFeedback]
    replaces every task with that id by a copy of the first one that is
    REVISE and has the new PENDING feedback at the end of its history (an
    absent history counts as empty), leaves the other tasks alone, appends
    a RUNNING workflow log that carries the task as it was and a task log
    that carries the revised task, marks the workflow RUNNING and changes
    nothing else. *)
Theorem provideFeedback_known_task_revises
    (t1 t2 t3 : Z) (taskId feedbackContent : string) (state : State.t)
    (task : Task.t) :
  List.find (Task.has_id taskId) (State.tasks state) = Some task ->
  let newFeedback := feedback_of t1 feedbackContent in
  let updatedTask := with_feedback newFeedback task in
  let state' :=
    TeamStore.provideFeedback getTaskTitleForLogs t1 t2 t3 taskId
                              feedbackContent state in
  Forall2 (replaced_where taskId updatedTask)
          (State.tasks state) (State.tasks state')
  /\ Task.status updatedTask = TASK_STATUS_enum.REVISE
  /\ Task.feedbackHistory updatedTask
     = Some (default [] (Task.feedbackHistory task) ++ [newFeedback])
  /\ (exists workflowLog taskLog,
        State.workflowLogs state'
        = State.workflowLogs state ++ [workflowLog; taskLog]
        /\ Log.logType workflowLog = Log.WorkflowStatusUpdate
        /\ Log.workflowStatus workflowLog = Some WORKFLOW_STATUS_enum.RUNNING
        /\ Log.task workflowLog = Some task
        /\ (Log.metadata workflowLog ≫= Log.feedback) = Some newFeedback
        /\ Log.logType taskLog = Log.TaskStatusUpdate
        /\ Log.taskStatus taskLog = Log.Known TASK_STATUS_enum.REVISE
        /\ Log.task taskLog = Some updatedTask
        /\ (Log.metadata taskLog ≫= Log.feedback) = Some newFeedback)
  /\ State.teamWorkflowStatus state' = WORKFLOW_STATUS_enum.RUNNING
  /\ State.set_teamWorkflowStatus (State.teamWorkflowStatus state)
       (State.set_workflowLogs (State.workflowLogs state)
          (State.set_tasks (State.tasks state) state'))
     = state.
Proof.
  intros Hfind. cbv zeta.
  destruct (provideFeedback_found t1 t2 t3 taskId feedbackContent state task
              Hfind)
    as [workflowLog [taskLog [-> [H1 [H2 [H3 [_ [H5 [H6 [H7 [H8 [_ H10]]]]]]]]]]]].
  split; [|split; [|split; [|split; [|split]]]].
  - rewrite tasks_set_tasks. apply map_replaced_where.
  - now destruct task.
  - now destruct task.
  - exists workflowLog, taskLog. split; [now destruct state|].
    repeat split; assumption.
  - now destruct state.
  - now destruct state.
Qed.

End FeedbackFacts.

Lemma provideFeedback_known_task_revises_witness :
  List.find (Task.has_id "t1") (State.tasks running_state)
  = Some (sample_task "t1" TASK_STATUS_enum.DONE)
  /\ Forall2 (replaced_where "t1"
                (with_feedback (feedback_of 1 "redo")
                               (sample_task "t1" TASK_STATUS_enum.DONE)))
             (State.tasks running_state)
             (State.tasks (TeamStore.provideFeedback Task.description 1 2 3
                             "t1" "redo" running_state)).
Proof.
  split; [reflexivity|].
  exact (proj1 (provideFeedback_known_task_revises Task.description 1 2 3
                  "t1" "redo" running_state
                  (sample_task "t1" TASK_STATUS_enum.DONE) eq_refl)).
Defined.

Lemma map_replaced_twice (i : string) (u1 u2 : Task.t) (tasks : list Task.t) :
  Task.id u1 = i ->
  List.map (fun t => if Task.has_id i t then u2 else t)
           (List.map (fun t => if Task.has_id i t then u1 else t) tasks)
  = List.map (fun t => if Task.has_id i t then u2 else t) tasks.
Proof.
  intros Hu. rewrite List.map_map. apply List.map_ext. intros k.
  destruct (Task.has_id i k) eqn:E; [|now rewrite E].
  apply has_id_true in Hu. now rewrite Hu.
Qed.

Lemma find_has_id (i : string) (tasks : list Task.t) (task : Task.t) :
  List.find (Task.has_id i) tasks = Some task -> Task.id task = i.
Proof.
  intros H. apply List.find_some in H. now apply has_id_true.
Qed.

Section FeedbackTwice.
Variable getTaskTitleForLogs : Task.t -> string.

(** X6: feedback accumulates. After two calls of [provideFeedback] for
    the id of a task of the store, the tasks with that id are REVISE and
    their history is the history of the task followed by the first and
    then the second feedback, both PENDING; four logs were appended. *)
Theorem provideFeedback_accumulates
    (t1 t2 t3 t4 t5 t6 : Z) (taskId first second : string) (state : State.t)
    (task : Task.t) :
  List.find (Task.has_id taskId) (State.tasks state) = Some task ->
  let f1 := feedback_of t1 first in
  let f2 := feedback_of t4 second in
  let state2 :=
    TeamStore.provideFeedback getTaskTitleForLogs t4 t5 t6 taskId second
      (TeamStore.provideFeedback getTaskTitleForLogs t1 t2 t3 taskId first
                                 state) in
  Forall2 (replaced_where taskId (with_feedback f2 (with_feedback f1 task)))
          (State.tasks state) (State.tasks state2)
  /\ Task.feedbackHistory (with_feedback f2 (with_feedback f1 task))
     = Some (default [] (Task.feedbackHistory task) ++ [f1; f2])
  /\ Task.status (with_feedback f2 (with_feedback f1 task))
     = TASK_STATUS_enum.REVISE
  /\ length (State.workflowLogs state2)
     = (length (State.workflowLogs state) + 4)%nat.
Proof.
  intros Hfind. cbv zeta.
  pose proof (find_has_id _ _ _ Hfind) as Hid.
  destruct (provideFeedback_found getTaskTitleForLogs t1 t2 t3 taskId first
              state task Hfind) as [w1 [k1 [E1 _]]].
  rewrite E1.
  assert (Hid1 : Task.id (with_feedback (feedback_of t1 first) task) = taskId)
    by (now destruct task).
  match goal with
  | |- context [TeamStore.provideFeedback _ _ _ _ _ _ ?s1] =>
      assert (Hfind1 : List.find (Task.has_id taskId) (State.tasks s1)
                       = Some (with_feedback (feedback_of t1 first) task))
  end.
  { rewrite tasks_set_tasks. exact (find_replaced _ _ _ _ Hid1 Hfind). }
  destruct (provideFeedback_found getTaskTitleForLogs t4 t5 t6 taskId second
              _ _ Hfind1) as [w2 [k2 [E2 _]]].
  rewrite E2. clear E1 E2 Hfind1.
  rewrite !tasks_set_tasks, (map_replaced_twice _ _ _ _ Hid1).
  split; [apply map_replaced_where|].
  split; [destruct task; cbn; now rewrite <- app_assoc|].
  split; [now destruct task|].
  destruct state; cbn. rewrite !length_app. simpl. lia.
Qed.

End FeedbackTwice.

Lemma provideFeedback_accumulates_witness :
  List.find (Task.has_id "t1") (State.tasks running_state)
  = Some (sample_task "t1" TASK_STATUS_enum.DONE)
  /\ List.map Task.feedbackHistory
       (State.tasks
          (TeamStore.provideFeedback Task.description 4 5 6 "t1" "again"
             (TeamStore.provideFeedback Task.description 1 2 3 "t1" "redo"
                                        running_state)))
     = [Some [feedback_of 1 "redo"; feedback_of 4 "again"]]
  /\ length (State.workflowLogs
               (TeamStore.provideFeedback Task.description 4 5 6 "t1" "again"
                  (TeamStore.provideFeedback Task.description 1 2 3 "t1" "redo"
                                             running_state)))
     = (length (State.workflowLogs running_state) + 4)%nat.
Proof.
  split; [reflexivity|]. split; [reflexivity|].
  exact (proj2 (proj2 (proj2
           (provideFeedback_accumulates Task.description 1 2 3 4 5 6
              "t1" "redo" "again" running_state
              (sample_task "t1" TASK_STATUS_enum.DONE) eq_refl)))).
Defined.

Lemma lookup_map_inv {A B : Type} (f : A -> B) (l : list A) :
  forall (r : nat) (y : B),
    List.map f l !! r = Some y -> exists x, l !! r = Some x /\ y = f x.
Proof.
  induction l as [|a l IH]; intros [|r] y H; simpl in *; try discriminate.
  - inversion H. now exists a.
  - now apply IH.
Qed.

Section FeedbackThenWork.
Import HierarchyExecutionStrategy.
Variable getTaskTitleForLogs : Task.t -> string.
Variable interpolateTaskDescription : string -> JsValue -> string.
Variable cloneAgent : Agent.t -> Agent.t.

(** X7: feedback is worked on as feedback. After [provideFeedback] for
    the id of a task that has an agent, [_executeTask] on a task of the
    store with that id ends in [agent.workOnFeedback], called on the
    agent of the task or on its clone, and not in [agent.workOnTask]. *)
Theorem provided_feedback_calls_workOnFeedback
    (t1 t2 t3 now : Z) (taskId feedbackContent : string) (state : State.t)
    (task : Task.t) (a : Agent.t) (r : ref) (task' : Task.t) :
  List.find (Task.has_id taskId) (State.tasks state) = Some task ->
  Task.agent task = Some a ->
  let state' :=
    TeamStore.provideFeedback getTaskTitleForLogs t1 t2 t3 taskId
                              feedbackContent state in
  State.tasks state' !! r = Some task' ->
  Task.id task' = taskId ->
  exists agent,
    snd (_executeTask getTaskTitleForLogs interpolateTaskDescription
                      cloneAgent now r (enter state'))
    = Called (mkItem agent r WorkOnFeedback)
    /\ (agent = a \/ agent = cloneAgent a).
Proof.
  intros Hfind Hagent state' Hr Hid.
  destruct (provideFeedback_found getTaskTitleForLogs t1 t2 t3 taskId
              feedbackContent state task Hfind) as [w1 [k1 [E1 _]]].
  assert (Htask' : task' = with_feedback (feedback_of t1 feedbackContent) task).
  { subst state'. rewrite E1, tasks_set_tasks in Hr.
    apply lookup_map_inv in Hr. destruct Hr as [x [_ ->]].
    destruct (Task.has_id taskId x) eqn:E; [reflexivity|].
    apply has_id_false in E. contradiction. }
  unfold _executeTask, deref, enter. cbn [objects]. rewrite Hr.
  assert (Ha : Task.agent task' = Some a) by (subst task'; now destruct task).
  rewrite Ha. unfold workOnTask, deref. cbn [objects]. rewrite Hr.
  assert (Hh : Task.feedbackHistory
                 (Task.set_status TASK_STATUS_enum.DOING task')
               = Some (default [] (Task.feedbackHistory task)
                         ++ [feedback_of t1 feedbackContent]))
    by (subst task'; now destruct task).
  rewrite Hh.
  match goal with
  | |- context [(0 <? ?n)%nat] =>
      assert (Hpos : (0 <? n)%nat = true)
        by (apply Nat.ltb_lt; rewrite List.filter_app, length_app;
            unfold feedback_of; simpl; lia)
  end.
  rewrite Hpos. eexists. split; [reflexivity|]. cbn [item_agent].
  destruct (_isAgentBusy a _); [now right | now left].
Qed.

End FeedbackThenWork.

Lemma provided_feedback_calls_workOnFeedback_witness :
  let task := dependent_task "B" TASK_STATUS_enum.TODO ["A"] in
  let state := State.set_tasks four_tasks sample_state in
  let state' :=
    TeamStore.provideFeedback Task.description 1 2 3 "B" "redo" state in
  List.find (Task.has_id "B") (State.tasks state) = Some task
  /\ State.tasks state' !! 1%nat
     = Some (with_feedback (feedback_of 1 "redo") task)
  /\ exists agent,
       snd (HierarchyExecutionStrategy._executeTask
              Task.description (fun d _ => d) (fun a => a) 9 1%nat
              (HierarchyExecutionStrategy.enter state'))
       = HierarchyExecutionStrategy.Called
           (HierarchyExecutionStrategy.mkItem agent 1%nat
              HierarchyExecutionStrategy.WorkOnFeedback).
Proof.
  intros task state state'.
  split; [reflexivity|]. split; [reflexivity|].
  destruct (provided_feedback_calls_workOnFeedback
              Task.description (fun d _ => d) (fun a => a) 1 2 3 9 "B" "redo"
              state task
              (sample_agent "agent-B" "B")
              1%nat (with_feedback (feedback_of 1 "redo") task)
              eq_refl eq_refl eq_refl eq_refl) as [agent [H _]].
  now exists agent.
Defined.

Section ValidateOnce.
Variable getTaskTitleForLogs : Task.t -> string.

(** X8: a task is validated once. After [validateTask] has gone through
    for a task that was AWAITING_VALIDATION, a second call for the same id
    finds the task VALIDATED: it returns null, makes no call to
    [handleTaskCompleted] and leaves the state as the first call made
    it. *)
Theorem validateTask_only_once
    (t1 t2 t3 t4 : Z) (taskId : string) (state : State.t) (task : Task.t) :
  List.find (Task.has_id taskId) (State.tasks state) = Some task ->
  Task.status task = TASK_STATUS_enum.AWAITING_VALIDATION ->
  let '(returned, state', call) :=
    TeamStore.validateTask getTaskTitleForLogs t1 t2 taskId state in
  returned = TeamStore.ReturnsUndefined
  /\ is_Some call
  /\ TeamStore.validateTask getTaskTitleForLogs t3 t4 taskId state'
     = (TeamStore.ReturnsNull, state', None).
Proof.
  intros Hfind Hstatus.
  pose proof (find_has_id _ _ _ Hfind) as Hid.
  unfold TeamStore.validateTask at 1. rewrite Hfind.
  apply has_status_true in Hstatus. rewrite Hstatus. cbn [negb].
  split; [reflexivity|]. split; [eauto|].
  unfold TeamStore.validateTask.
  match goal with
  | |- context [List.find _ (State.tasks ?s)] =>
      assert (Hfind1 : List.find (Task.has_id taskId) (State.tasks s)
                       = Some (Task.set_status TASK_STATUS_enum.VALIDATED task))
  end.
  { assert (Hid1 : Task.id (Task.set_status TASK_STATUS_enum.VALIDATED task)
                   = taskId) by (now destruct task).
    destruct state; cbn. cbn in Hfind.
    exact (find_replaced _ _ _ _ Hid1 Hfind). }
  rewrite Hfind1. now destruct task.
Qed.

End ValidateOnce.

Lemma validateTask_only_once_witness :
  List.find (Task.has_id "t1") (State.tasks awaiting_state)
  = Some (sample_task "t1" TASK_STATUS_enum.AWAITING_VALIDATION)
  /\ (let '(returned, state', call) :=
        TeamStore.validateTask Task.description 1 2 "t1" awaiting_state in
      returned = TeamStore.ReturnsUndefined
      /\ is_Some call
      /\ TeamStore.validateTask Task.description 3 4 "t1" state'
         = (TeamStore.ReturnsNull, state', None)).
Proof.
  split; [reflexivity|].
  exact (validateTask_only_once Task.description 1 2 3 4 "t1" awaiting_state
           (sample_task "t1" TASK_STATUS_enum.AWAITING_VALIDATION)
           eq_refl eq_refl).
Defined.

(** ** Edge cases of the derived context *)

Lemma collect_all_filter (tasks : list Task.t) (n : Z) (logs : list Log.t) :
  forall acc,
    TeamStore.collect_all tasks n acc (List.filter is_done_update logs)
    = TeamStore.collect_all tasks n acc logs.
Proof.
  induction logs as [|log logs IH]; intros acc; [reflexivity|].
  cbn [List.filter TeamStore.collect_all].
  destruct (is_done_update log) eqn:Hdone.
  - cbn [TeamStore.collect_all].
    destruct (TeamStore.collect tasks n acc log); [apply IH | reflexivity].
  - rewrite (collect_skips _ _ _ _ Hdone). apply IH.
Qed.

Lemma before_first (tasks : list Task.t) (i : string) :
  before tasks 0 i = false.
Proof.
  unfold before.
  destruct (findIndex_from_ge (Task.has_id i) tasks 0) as [E|E];
    fold (findIndex (Task.has_id i) tasks) in E.
  - now rewrite E.
  - replace (findIndex (Task.has_id i) tasks <? 0)
      with false by (symmetry; apply Z.ltb_ge; exact E).
    apply andb_false_r.
Qed.

Lemma collect_all_first (tasks : list Task.t) (logs : list Log.t) :
  forall acc m,
    TeamStore.collect_all tasks 0 acc logs = Some m -> m = acc.
Proof.
  induction logs as [|log logs IH]; intros acc m; cbn [TeamStore.collect_all].
  - now inversion 1.
  - destruct (is_done_update log) eqn:Hdone.
    + rewrite (collect_done _ _ _ _ Hdone).
      destruct (Log.task log) as [logTask|]; [|discriminate].
      rewrite before_first. apply IH.
    + rewrite (collect_skips _ _ _ _ Hdone). apply IH.
Qed.

Lemma findIndex_known (i : string) (tasks : list Task.t) :
  In i (List.map Task.id tasks) ->
  (findIndex (Task.has_id i) tasks =? -1) = false.
Proof.
  intros Hin. apply Z.eqb_neq. intros E. apply findIndex_none in E.
  apply List.in_map_iff in Hin. destruct Hin as [k [Hk Hin]].
  rewrite List.Forall_forall in E. specialize (E k Hin).
  apply has_id_false in E. contradiction.
Qed.

(** X9: the failure and the empty cases of [deriveContextFromLogs]. For
    an id that no task of the store has it returns the empty string,
    whatever the logs are; with no logs it returns the empty string; and
    for the id of a task of the store it throws exactly when some log of
    type TaskStatusUpdate with status DONE has no task, or has no metadata
    while its task comes before the current one. *)
Theorem deriveContextFromLogs_throws_on_unreadable_log
    (logs : list Log.t) (currentTaskId : string) (state : State.t) :
  (Forall (fun task => Task.id task <> currentTaskId) (State.tasks state) ->
   TeamStore.deriveContextFromLogs logs currentTaskId state = Some "")
  /\ TeamStore.deriveContextFromLogs [] currentTaskId state = Some ""
  /\ (In currentTaskId (List.map Task.id (State.tasks state)) ->
      let currentTaskIndex :=
        findIndex (Task.has_id currentTaskId) (State.tasks state) in
      (TeamStore.deriveContextFromLogs logs currentTaskId state = None
       <-> Exists
             (fun log =>
                is_done_update log = true
                /\ (Log.task log = None
                    \/ exists logTask,
                         Log.task log = Some logTask
                         /\ before (State.tasks state) currentTaskIndex
                                   (Task.id logTask) = true
                         /\ Log.metadata log = None))
             logs)).
Proof.
  split; [|split].
  - intros Hnone. unfold TeamStore.deriveContextFromLogs.
    assert (E : findIndex (Task.has_id currentTaskId) (State.tasks state) = -1).
    { apply findIndex_none. eapply Forall_impl; [exact Hnone|].
      intros k Hk. now apply has_id_false. }
    now rewrite E.
  - unfold TeamStore.deriveContextFromLogs.
    now destruct (_ =? -1).
  - intros Hin. cbv zeta. unfold TeamStore.deriveContextFromLogs.
    rewrite (findIndex_known _ _ Hin).
    pose proof (collect_all_throws (State.tasks state)
                  (findIndex (Task.has_id currentTaskId) (State.tasks state))
                  logs []) as Hthrows.
    unfold unreadable in Hthrows. rewrite <- Hthrows.
    destruct (TeamStore.collect_all _ _ _ _); split; congruence.
Qed.

Lemma deriveContextFromLogs_throws_on_unreadable_log_witness :
  let state := State.set_tasks finished_row sample_state in
  let broken :=
    Log.mk 0 None None None None "Task completed."
           (Log.Known TASK_STATUS_enum.DONE) Log.Absent None
           (Some Log.no_metadata) Log.TaskStatusUpdate in
  let bare :=
    Log.mk 0 (Some (sample_task "second" TASK_STATUS_enum.DONE)) None None
           None "Task completed." (Log.Known TASK_STATUS_enum.DONE)
           Log.Absent None None Log.TaskStatusUpdate in
  In "third" (List.map Task.id (State.tasks state))
  /\ TeamStore.deriveContextFromLogs (finished_logs ++ [broken]) "third" state
     = None
  /\ TeamStore.deriveContextFromLogs (finished_logs ++ [bare]) "third" state
     = None
  /\ TeamStore.deriveContextFromLogs (finished_logs ++ [bare]) "second" state
     = Some ("Task: describe first" +:+ Js.nl +:+ "Result: one" +:+ Js.nl)
  /\ TeamStore.deriveContextFromLogs (finished_logs ++ [broken]) "fourth" state
     = Some "".
Proof.
  intros state broken bare.
  assert (Hin : In "third" (List.map Task.id (State.tasks state)))
    by (simpl; tauto).
  assert (Hnone : Forall (fun task => Task.id task <> "fourth")
                         (State.tasks state))
    by (repeat constructor; simpl; discriminate).
  split; [exact Hin|]. split; [|split; [|split]].
  - apply (proj2 (proj2 (deriveContextFromLogs_throws_on_unreadable_log
                           (finished_logs ++ [broken]) "third" state)) Hin).
    apply Exists_exists. exists broken. split.
    + apply list_elem_of_In, List.in_or_app. right. now left.
    + split; [reflexivity | now left].
  - apply (proj2 (proj2 (deriveContextFromLogs_throws_on_unreadable_log
                           (finished_logs ++ [bare]) "third" state)) Hin).
    apply Exists_exists. exists bare. split.
    + apply list_elem_of_In, List.in_or_app. right. now left.
    + split; [reflexivity|]. right. eexists. repeat split.
  - reflexivity.
  - exact (proj1 (deriveContextFromLogs_throws_on_unreadable_log
                    (finished_logs ++ [broken]) "fourth" state) Hnone).
Defined.

(** X10: only the DONE logs matter, and the first task has no context.
    Dropping from the logs every entry that is not a TaskStatusUpdate with
    status DONE changes nothing in what [deriveContextFromLogs] returns
    or throws; and for a current task at index 0 the function returns the
    empty string whenever it returns. *)
Theorem deriveContextFromLogs_reads_done_logs_only
    (logs : list Log.t) (currentTaskId : string) (state : State.t) :
  TeamStore.deriveContextFromLogs (List.filter is_done_update logs)
                                  currentTaskId state
  = TeamStore.deriveContextFromLogs logs currentTaskId state
  /\ (findIndex (Task.has_id currentTaskId) (State.tasks state) = 0 ->
      forall context,
        TeamStore.deriveContextFromLogs logs currentTaskId state = Some context ->
        context = "").
Proof.
  split.
  - unfold TeamStore.deriveContextFromLogs.
    destruct (_ =? -1); [reflexivity|]. now rewrite collect_all_filter.
  - intros E context. unfold TeamStore.deriveContextFromLogs. rewrite E.
    cbn [Z.eqb].
    destruct (TeamStore.collect_all (State.tasks state) 0 [] logs) as [m|] eqn:Em;
      [|discriminate].
    apply collect_all_first in Em. subst m. now inversion 1.
Qed.

Lemma deriveContextFromLogs_reads_done_logs_only_witness :
  let state := State.set_tasks finished_row sample_state in
  findIndex (Task.has_id "first") (State.tasks state) = 0
  /\ TeamStore.deriveContextFromLogs finished_logs "first" state = Some ""
  /\ forall context,
       TeamStore.deriveContextFromLogs finished_logs "first" state
       = Some context ->
       context = "".
Proof.
  intros state. split; [reflexivity|]. split; [reflexivity|].
  exact (proj2 (deriveContextFromLogs_reads_done_logs_only
                  finished_logs "first" state) eq_refl).
Defined.

(** ** The sequential strategy beyond REVISE *)

Lemma map_update_at (f : Task.t -> Task.t) (pre post : list Task.t)
    (x : Task.t) :
  NoDup (List.map Task.id (pre ++ x :: post)) ->
  List.map (fun k => if Task.has_id (Task.id x) k then f k else k)
           (pre ++ x :: post)
  = pre ++ f x :: post.
Proof.
  intros Hnodup. rewrite List.map_app in Hnodup. simpl in Hnodup.
  apply NoDup_app in Hnodup. destruct Hnodup as [_ [Hdisj Hnd]].
  apply NoDup_cons in Hnd. destruct Hnd as [Hnotin _].
  rewrite List.map_app. cbn [List.map].
  replace (Task.has_id (Task.id x) x) with true
    by (symmetry; now apply has_id_true).
  f_equal; [|f_equal].
  - apply map_unselected. apply List.Forall_forall. intros k Hk.
    apply has_id_false. intros E. apply (Hdisj (Task.id k)).
    + apply list_elem_of_In, List.in_map, Hk.
    + rewrite E. left.
  - apply map_unselected. apply List.Forall_forall. intros k Hk.
    apply has_id_false. intros E. apply Hnotin. rewrite <- E.
    apply list_elem_of_In, List.in_map, Hk.
Qed.

Lemma find_first {A : Type} (p : A -> bool) (pre post : list A) (x : A) :
  Forall (fun y => p y = false) pre -> p x = true ->
  List.find p (pre ++ x :: post) = Some x.
Proof.
  induction 1 as [|y pre Hy _ IH]; intros Hx; simpl.
  - now rewrite Hx.
  - rewrite Hy. now apply IH.
Qed.

Section SequentialMore.
Import SequentialExecutionStrategy.

(** X11: under the sequential strategy, a task that comes in as DONE
    starts the next one: the first task of the store that is TODO becomes
    DOING and nothing else changes (ids being distinct); when no task of
    the store is TODO, nothing changes at all. The store is what is
    searched, not [allTasks]. *)
Theorem sequential_done_starts_first_todo
    (pre post : list Task.t) (next done : Task.t) (allTasks : list Task.t)
    (this : t) :
  Task.status done = TASK_STATUS_enum.DONE ->
  (NoDup (List.map Task.id (pre ++ next :: post)) ->
   State.tasks (useTeamStore this) = pre ++ next :: post ->
   Forall (fun k => Task.status k <> TASK_STATUS_enum.TODO) pre ->
   Task.status next = TASK_STATUS_enum.TODO ->
   execute [done] allTasks this
   = mk (State.set_tasks
           (pre ++ Task.set_status TASK_STATUS_enum.DOING next :: post)
           (useTeamStore this))
        (taskQueue this))
  /\ (Forall (fun k => Task.status k <> TASK_STATUS_enum.TODO)
             (State.tasks (useTeamStore this)) ->
      execute [done] allTasks this = this).
Proof.
  intros Hdone. unfold execute. cbn [fold_left]. unfold handle.
  rewrite Hdone. split.
  - intros Hnodup Htasks Hpre Hnext.
    assert (Hfind : List.find (Task.has_status TASK_STATUS_enum.TODO)
                              (State.tasks (useTeamStore this)) = Some next).
    { rewrite Htasks. apply find_first; [|now apply has_status_true].
      eapply Forall_impl; [exact Hpre|]. intros k Hk.
      now apply has_status_false. }
    rewrite Hfind. unfold _updateTaskStatus, TeamStore.updateTaskStatus.
    rewrite Htasks. now rewrite (map_update_at _ _ _ _ Hnodup).
  - intros Hnone.
    assert (Hfind : List.find (Task.has_status TASK_STATUS_enum.TODO)
                              (State.tasks (useTeamStore this)) = None).
    { apply find_none_iff. eapply Forall_impl; [exact Hnone|].
      intros k Hk. now apply has_status_false. }
    now rewrite Hfind.
Qed.

Lemma _updateTaskStatus_keeps (taskId : string) (status : TASK_STATUS_enum.t)
    (this : t) :
  taskQueue (_updateTaskStatus taskId status this) = taskQueue this
  /\ List.map Task.id
       (State.tasks (useTeamStore (_updateTaskStatus taskId status this)))
     = List.map Task.id (State.tasks (useTeamStore this)).
Proof.
  split; [reflexivity|]. unfold _updateTaskStatus. cbn [useTeamStore].
  apply updateTaskStatus_ids.
Qed.

Lemma handle_keeps (allTasks : list Task.t) (this : t) (changedTask : Task.t) :
  taskQueue (handle allTasks this changedTask)
  = taskQueue this
    ++ (if Task.has_status TASK_STATUS_enum.DOING changedTask
        then [changedTask] else [])
  /\ List.map Task.id
       (State.tasks (useTeamStore (handle allTasks this changedTask)))
     = List.map Task.id (State.tasks (useTeamStore this)).
Proof.
  destruct (Task.has_status TASK_STATUS_enum.DOING changedTask) eqn:Hd.
  - apply has_status_true in Hd. unfold handle. rewrite Hd. now split.
  - apply has_status_false in Hd. rewrite app_nil_r. unfold handle.
    destruct (Task.status changedTask) eqn:E;
      try (split; reflexivity); [contradiction| |].
    + rewrite fold__updateTaskStatus.
      match goal with
      | |- context [_updateTaskStatus ?i ?s ?x] =>
          destruct (_updateTaskStatus_keeps i s x) as [Hq Hids]
      end.
      rewrite Hq, Hids. cbn [taskQueue useTeamStore].
      split; [reflexivity|].
      unfold TeamStore.updateStatusOfMultipleTasks.
      rewrite tasks_set_tasks, List.map_map. apply List.map_ext. intros k.
      destruct (includes _ _); [now destruct k | reflexivity].
    + destruct (List.find _ _) as [nextTask|]; [|split; reflexivity].
      exact (_updateTaskStatus_keeps (Task.id nextTask)
               TASK_STATUS_enum.DOING this).
Qed.

(** X12: what [execute] of the sequential strategy keeps, for any changed
    tasks: the tasks handed to the queue are exactly the changed tasks
    that came in as DOING, in their order and after what the queue held;
    and the store keeps its tasks' ids in their order, so no task is
    added, dropped or moved. *)
Theorem sequential_execute_queues_doing_tasks
    (changedTasks allTasks : list Task.t) (this : t) :
  taskQueue (execute changedTasks allTasks this)
  = taskQueue this
    ++ List.filter (Task.has_status TASK_STATUS_enum.DOING) changedTasks
  /\ List.map Task.id
       (State.tasks (useTeamStore (execute changedTasks allTasks this)))
     = List.map Task.id (State.tasks (useTeamStore this)).
Proof.
  unfold execute. revert this.
  induction changedTasks as [|c changedTasks IH]; intros this;
    cbn [fold_left List.filter].
  - split; [now rewrite app_nil_r | reflexivity].
  - destruct (IH (handle allTasks this c)) as [Hq Hids].
    destruct (handle_keeps allTasks this c) as [Hq1 Hids1].
    rewrite Hq, Hids, Hq1, Hids1. split; [|reflexivity].
    rewrite <- app_assoc. now destruct (Task.has_status _ c).
Qed.

(** X13: a REVISE for a task that [allTasks] does not hold resets the
    whole list. [findIndex] returns -1, so the loop that was to reset the
    later tasks starts at index 0: every task of the store whose id is in
    [allTasks] is set to TODO, and the tasks with the id of the changed
    task to DOING. With the store holding [allTasks] itself, every task
    ends up TODO and is otherwise what it was. *)
Theorem sequential_revise_of_unknown_task_resets_all
    (revised : Task.t) (allTasks : list Task.t) (this : t) :
  Task.status revised = TASK_STATUS_enum.REVISE ->
  Forall (fun k => Task.id k <> Task.id revised) allTasks ->
  let this' := execute [revised] allTasks this in
  Forall2 (revised_where (Task.id revised) (List.map Task.id allTasks))
          (State.tasks (useTeamStore this)) (State.tasks (useTeamStore this'))
  /\ taskQueue this' = taskQueue this
  /\ (State.tasks (useTeamStore this) = allTasks ->
      Forall2 (fun old new => Task.status new = TASK_STATUS_enum.TODO
                              /\ same_but_status old new)
              allTasks (State.tasks (useTeamStore this'))).
Proof.
  intros Hstatus Hnone.
  assert (Hidx : findIndex (Task.has_id (Task.id revised)) allTasks = -1).
  { apply findIndex_none. eapply Forall_impl; [exact Hnone|].
    intros k Hk. now apply has_id_false. }
  destruct (handle_revise_where allTasks revised this Hstatus)
    as [Hwhere [Hqueue _]].
  rewrite Hidx in Hwhere.
  change (skipn (Z.to_nat (-1 + 1)) allTasks) with allTasks in Hwhere.
  cbv zeta. split; [exact Hwhere|]. split; [exact Hqueue|].
  intros Htasks. rewrite Htasks in Hwhere.
  assert (Hin : Forall (fun k => Task.id k <> Task.id revised
                                 /\ In (Task.id k) (List.map Task.id allTasks))
                       allTasks).
  { apply List.Forall_forall. intros k Hk. split.
    - rewrite List.Forall_forall in Hnone. now apply Hnone.
    - now apply List.in_map. }
  revert Hin Hwhere. generalize (List.map Task.id allTasks) as later.
  generalize (State.tasks (useTeamStore (execute [revised] allTasks this)))
    as news.
  clear. intros news later Hin Hwhere. revert Hin.
  induction Hwhere as [|old new olds news [_ [Hlater _]] _ IH]; intros Hin;
    [constructor|].
  apply Forall_cons in Hin. destruct Hin as [[Hne Hold] Hin].
  constructor; [now apply Hlater | now apply IH].
Qed.

End SequentialMore.

Lemma sequential_done_starts_first_todo_witness :
  let this :=
    SequentialExecutionStrategy.mk (State.set_tasks finished_row sample_state)
                                   [] in
  let done := sample_task "second" TASK_STATUS_enum.DONE in
  Task.status done = TASK_STATUS_enum.DONE
  /\ List.map Task.status
       (State.tasks
          (SequentialExecutionStrategy.useTeamStore
             (SequentialExecutionStrategy.execute [done] finished_row this)))
     = [TASK_STATUS_enum.DONE; TASK_STATUS_enum.DONE; TASK_STATUS_enum.DOING].
Proof.
  intros this done. split; [reflexivity|].
  assert (Hnodup : NoDup (List.map Task.id
                            ([sample_task "first" TASK_STATUS_enum.DONE;
                              sample_task "second" TASK_STATUS_enum.DONE]
                               ++ sample_task "third" TASK_STATUS_enum.TODO
                               :: []))).
  { simpl. repeat constructor; rewrite ?list_elem_of_In; simpl;
      intuition discriminate. }
  assert (Hpre : Forall (fun k => Task.status k <> TASK_STATUS_enum.TODO)
                        [sample_task "first" TASK_STATUS_enum.DONE;
                         sample_task "second" TASK_STATUS_enum.DONE])
    by (repeat constructor; simpl; discriminate).
  rewrite (proj1 (sequential_done_starts_first_todo
                    [sample_task "first" TASK_STATUS_enum.DONE;
                     sample_task "second" TASK_STATUS_enum.DONE]
                    [] (sample_task "third" TASK_STATUS_enum.TODO) done
                    finished_row this eq_refl)
                 Hnodup eq_refl Hpre eq_refl).
  reflexivity.
Defined.

Lemma sequential_revise_of_unknown_task_resets_all_witness :
  let this :=
    SequentialExecutionStrategy.mk (State.set_tasks finished_row sample_state)
                                   [] in
  let revised := sample_task "elsewhere" TASK_STATUS_enum.REVISE in
  let tasks' :=
    State.tasks
      (SequentialExecutionStrategy.useTeamStore
         (SequentialExecutionStrategy.execute [revised] finished_row this)) in
  List.map Task.status finished_row
  = [TASK_STATUS_enum.DONE; TASK_STATUS_enum.DONE; TASK_STATUS_enum.TODO]
  /\ Forall (fun k => Task.id k <> Task.id revised) finished_row
  /\ Forall2 (fun old new => Task.status new = TASK_STATUS_enum.TODO
                              /\ same_but_status old new)
             finished_row tasks'.
Proof.
  intros this revised.
  assert (Hnone : Forall (fun k => Task.id k <> Task.id revised) finished_row)
    by (repeat constructor; simpl; discriminate).
  split; [reflexivity|]. split; [exact Hnone|].
  exact (proj2 (proj2 (sequential_revise_of_unknown_task_resets_all
                         revised finished_row this eq_refl Hnone)) eq_refl).
Defined.

(** ** Dependencies of the hierarchical strategy *)

Section DependencyFacts.
Import HierarchyExecutionStrategy.

(** X14: [getAllTasksDependingOn] and [getTaskDependencies] are two
    readings of one relation: for two tasks of [allTasks], the first is
    among the tasks depending on the second exactly when the second is
    among the dependencies of the first; and both functions return tasks
    of [allTasks] only. *)
Theorem dependents_mirror_dependencies
    (task dependent : Task.t) (allTasks : list Task.t) :
  (In task allTasks -> In dependent allTasks ->
   (In dependent (getAllTasksDependingOn task allTasks)
    <-> In task (getTaskDependencies dependent allTasks)))
  /\ (forall t, In t (getAllTasksDependingOn task allTasks) -> In t allTasks)
  /\ (forall t, In t (getTaskDependencies task allTasks) -> In t allTasks).
Proof.
  split; [|split].
  - intros Htask Hdependent.
    rewrite getAllTasksDependingOn_In, getTaskDependencies_In.
    unfold depends_directly. tauto.
  - intros t Ht. now apply getAllTasksDependingOn_In in Ht.
  - intros t Ht. now apply getTaskDependencies_In in Ht.
Qed.

(** X15: an id in [dependsOn] that no task of [allTasks] has is ignored:
    a TODO task all of whose [dependsOn] ids are unknown has no
    dependencies and is ready. *)
Theorem unknown_prerequisites_do_not_block
    (task : Task.t) (allTasks : list Task.t) (dependsOn : list string) :
  In task allTasks ->
  Task.status task = TASK_STATUS_enum.TODO ->
  Task.dependsOn task = Some dependsOn ->
  Forall (fun i => ~ In i (List.map Task.id allTasks)) dependsOn ->
  getTaskDependencies task allTasks = []
  /\ In task (getReadyTasks allTasks).
Proof.
  intros Hin Hstatus Hdeps Hunknown.
  assert (Hnone : getTaskDependencies task allTasks = []).
  { destruct (getTaskDependencies task allTasks) as [|dep deps] eqn:E;
      [reflexivity|].
    assert (Hdep : In dep (getTaskDependencies task allTasks))
      by (rewrite E; now left).
    apply getTaskDependencies_In in Hdep.
    destruct Hdep as [Hdin [ds [Hds Hid]]].
    rewrite Hdeps in Hds. inversion Hds; subst ds.
    rewrite List.Forall_forall in Hunknown.
    exfalso. apply (Hunknown _ Hid). now apply List.in_map. }
  split; [exact Hnone|].
  unfold getReadyTasks. apply List.filter_In. split; [exact Hin|].
  apply ready_true. split; [exact Hstatus|].
  rewrite Hnone. intros dep [].
Qed.

(** X16: a dependency cycle never becomes ready. A task of [allTasks]
    that names its own id is not ready, whatever its status; and of two
    tasks of [allTasks] that name each other and are both TODO, neither
    is ready. *)
Theorem cyclic_prerequisites_are_never_ready
    (a b : Task.t) (allTasks : list Task.t) :
  (In a allTasks -> depends_directly a a -> ~ In a (getReadyTasks allTasks))
  /\ (In a allTasks -> In b allTasks ->
      depends_directly a b -> depends_directly b a ->
      Task.status a = TASK_STATUS_enum.TODO ->
      Task.status b = TASK_STATUS_enum.TODO ->
      ~ In a (getReadyTasks allTasks) /\ ~ In b (getReadyTasks allTasks)).
Proof.
  assert (Hblocked : forall x y,
            In y allTasks -> depends_directly x y ->
            Task.status y <> TASK_STATUS_enum.DONE ->
            ~ In x (getReadyTasks allTasks)).
  { intros x y Hy Hxy Hnot Hready. unfold getReadyTasks in Hready.
    apply List.filter_In in Hready. destruct Hready as [_ Hready].
    apply ready_true in Hready. destruct Hready as [_ Hdeps].
    apply Hnot, Hdeps. apply getTaskDependencies_In. now split. }
  split.
  - intros Hin Hself Hready.
    assert (Htodo : Task.status a = TASK_STATUS_enum.TODO).
    { unfold getReadyTasks in Hready. apply List.filter_In in Hready.
      destruct Hready as [_ Hready]. now apply ready_true in Hready. }
    apply (Hblocked a a Hin Hself); [|exact Hready].
    rewrite Htodo. discriminate.
  - intros Ha Hb Hab Hba Hsa Hsb. split.
    + apply (Hblocked a b Hb Hab). rewrite Hsb. discriminate.
    + apply (Hblocked b a Ha Hba). rewrite Hsa. discriminate.
Qed.

(** X17: [isAgentBusy], the method of the hierarchical class, has no guard
    for a task without an agent. Where it returns, it returns what
    [_isAgentBusy] of the base class returns, and it returns whenever
    every task has an agent; it throws only on a list that holds a task
    without an agent, and does so when that task comes first, where
    [_isAgentBusy] skips it. *)
Theorem isAgentBusy_throws_where__isAgentBusy_skips
    (agent : Agent.t) (tasks : list Task.t) :
  (forall busy, isAgentBusy agent tasks = Some busy ->
                busy = _isAgentBusy agent tasks)
  /\ (Forall (fun t => is_Some (Task.agent t)) tasks ->
      isAgentBusy agent tasks = Some (_isAgentBusy agent tasks))
  /\ (isAgentBusy agent tasks = None ->
      Exists (fun t => Task.agent t = None) tasks)
  /\ (forall t, Task.agent t = None ->
        isAgentBusy agent (t :: tasks) = None
        /\ _isAgentBusy agent (t :: tasks) = _isAgentBusy agent tasks).
Proof.
  split; [|split; [|split]].
  - induction tasks as [|t tasks IH]; intros busy; cbn.
    + now inversion 1.
    + destruct (Task.agent t) as [a|]; [|discriminate].
      destruct (_ && _); [now inversion 1 | apply IH].
  - induction 1 as [|t tasks [a Ha] _ IH]; cbn; [reflexivity|].
    rewrite Ha. destruct (_ && _); [reflexivity | exact IH].
  - induction tasks as [|t tasks IH]; cbn; [discriminate|].
    destruct (Task.agent t) as [a|] eqn:Ha; [|intros _; now left].
    destruct (_ && _); [discriminate|]. intros H. right. now apply IH.
  - intros t Ht. cbn. now rewrite Ht.
Qed.

Lemma isAgentBusy_throws_where__isAgentBusy_skips_witness :
  Forall (fun t => is_Some (Task.agent t)) six_tasks
  /\ isAgentBusy (sample_agent "agent-t1" "t1")
                 six_tasks
     = Some false
  /\ isAgentBusy (sample_agent "agent-t1" "t1")
                 (sample_task "D" TASK_STATUS_enum.TODO :: six_tasks)
     = None.
Proof.
  assert (Hall : Forall (fun t => is_Some (Task.agent t)) six_tasks)
    by (repeat constructor; eexists; reflexivity).
  split; [exact Hall|]. split.
  - exact (proj1 (proj2 (isAgentBusy_throws_where__isAgentBusy_skips
                           (sample_agent "agent-t1" "t1") six_tasks)) Hall).
  - exact (proj1 (proj2 (proj2 (proj2
             (isAgentBusy_throws_where__isAgentBusy_skips
                (sample_agent "agent-t1" "t1")
                six_tasks)))
             (sample_task "D" TASK_STATUS_enum.TODO) eq_refl)).
Defined.

End DependencyFacts.

Lemma dependents_mirror_dependencies_witness :
  let A := dependent_task "A" TASK_STATUS_enum.DONE [] in
  let B := dependent_task "B" TASK_STATUS_enum.TODO ["A"] in
  In A four_tasks /\ In B four_tasks
  /\ (In B (HierarchyExecutionStrategy.getAllTasksDependingOn A four_tasks)
      <-> In A (HierarchyExecutionStrategy.getTaskDependencies B four_tasks)).
Proof.
  intros A B.
  assert (HA : In A four_tasks) by (simpl; tauto).
  assert (HB : In B four_tasks) by (simpl; tauto).
  split; [exact HA|]. split; [exact HB|].
  exact (proj1 (dependents_mirror_dependencies A B four_tasks) HA HB).
Defined.

Lemma unknown_prerequisites_do_not_block_witness :
  let task := dependent_task "E" TASK_STATUS_enum.TODO ["nowhere"] in
  In task (four_tasks ++ [task])
  /\ Forall (fun i => ~ In i (List.map Task.id (four_tasks ++ [task])))
            ["nowhere"]
  /\ In task (HierarchyExecutionStrategy.getReadyTasks (four_tasks ++ [task])).
Proof.
  intros task.
  assert (Hin : In task (four_tasks ++ [task])) by (simpl; tauto).
  assert (Hunknown : Forall (fun i => ~ In i (List.map Task.id
                                                (four_tasks ++ [task])))
                            ["nowhere"]).
  { repeat constructor. simpl. intuition discriminate. }
  split; [exact Hin|]. split; [exact Hunknown|].
  exact (proj2 (unknown_prerequisites_do_not_block task (four_tasks ++ [task])
                  ["nowhere"] Hin eq_refl eq_refl Hunknown)).
Defined.

Lemma cyclic_prerequisites_are_never_ready_witness :
  let a := dependent_task "a" TASK_STATUS_enum.TODO ["a"] in
  In a [a] /\ depends_directly a a
  /\ ~ In a (HierarchyExecutionStrategy.getReadyTasks [a]).
Proof.
  intros a.
  assert (Hin : In a [a]) by now left.
  assert (Hself : depends_directly a a)
    by (exists ["a"]; split; [reflexivity | now left]).
  split; [exact Hin|]. split; [exact Hself|].
  exact (proj1 (cyclic_prerequisites_are_never_ready a a [a]) Hin Hself).
Defined.

(** ** Starting a task under the hierarchical strategy *)

Lemma pending_filter (h : list Feedback.t) :
  (0 <? length (List.filter
                  (fun f => bool_decide
                              (Feedback.status f = FEEDBACK_STATUS_enum.PENDING))
                  h))%nat
  = existsb (fun f => bool_decide
                        (Feedback.status f = FEEDBACK_STATUS_enum.PENDING)) h.
Proof.
  induction h as [|f h IH]; [reflexivity|]. cbn [List.filter existsb].
  destruct (bool_decide _); [reflexivity | exact IH].
Qed.

Section StartFacts.
Import HierarchyExecutionStrategy.
Variable getTaskTitleForLogs : Task.t -> string.
Variable interpolateTaskDescription : string -> JsValue -> string.
Variable cloneAgent : Agent.t -> Agent.t.
Variable agentWork : workItem -> World -> option World.

Lemma workOnTask_world (t : Z) (agent : Agent.t) (r : ref) (w : World)
    (task : Task.t) :
  deref w r = Some task ->
  let res :=
    workOnTask getTaskTitleForLogs interpolateTaskDescription t agent r w in
  let started := Task.set_status TASK_STATUS_enum.DOING task in
  deref (fst res) r
  = Some (Task.set_interpolatedTaskDescription
            (Some (interpolateTaskDescription (Task.description task)
                     (State.inputs (rest w))))
            (Task.set_inputs (State.inputs (rest w)) started))
  /\ (forall q, q <> r -> deref (fst res) q = deref w q)
  /\ taskRefs (fst res) = taskRefs w
  /\ rest (fst res)
     = State.set_workflowLogs
         (State.workflowLogs (rest w)
            ++ [TeamStore.prepareNewLog getTaskTitleForLogs t (Some agent)
                  (Some started)
                  ("Task: " +:+ getTaskTitleForLogs started +:+ " started.")
                  Log.no_metadata Log.TaskStatusUpdate])
         (rest w)
  /\ snd res
     = match Task.feedbackHistory task with
       | None => Threw
       | Some h =>
           Called (mkItem agent r
                     (if existsb
                           (fun f => bool_decide
                                       (Feedback.status f
                                        = FEEDBACK_STATUS_enum.PENDING)) h
                      then WorkOnFeedback else WorkOnTask))
       end.
Proof.
  intros Hr. cbv zeta. unfold workOnTask. rewrite Hr.
  assert (Hh : Task.feedbackHistory
                 (Task.set_status TASK_STATUS_enum.DOING task)
               = Task.feedbackHistory task) by (now destruct task).
  rewrite Hh. unfold deref in Hr.
  destruct (Task.feedbackHistory task) as [h|];
    [rewrite pending_filter; destruct (existsb _ h)|];
    cbn [fst snd]; unfold deref, assign, append_log;
    cbn [objects taskRefs rest];
    (split; [|split; [|split; [|split]]];
     [ rewrite !list_lookup_alter_eq, Hr; cbn; now destruct task
     | intros q Hq; now rewrite !list_lookup_alter_ne by congruence
     | reflexivity | reflexivity | reflexivity ]).
Qed.

(** X18: what the store action [workOnTask] has done when it reaches the
    agent, or throws. The task object is DOING and carries the inputs of
    the store and the interpolated description, no other object is
    touched, and one TaskStatusUpdate log with status DOING and the given
    agent is appended. Only then is the history read: without a
    [feedbackHistory] the action throws, with these effects in place;
    with a PENDING feedback in the history it calls
    [agent.workOnFeedback], otherwise [agent.workOnTask]. *)
Theorem workOnTask_marks_doing_before_it_reads_the_history
    (t : Z) (agent : Agent.t) (r : ref) (w : World) (task : Task.t) :
  deref w r = Some task ->
  let res :=
    workOnTask getTaskTitleForLogs interpolateTaskDescription t agent r w in
  (exists task',
     deref (fst res) r = Some task'
     /\ Task.status task' = TASK_STATUS_enum.DOING
     /\ Task.inputs task' = State.inputs (rest w)
     /\ Task.interpolatedTaskDescription task'
        = Some (interpolateTaskDescription (Task.description task)
                  (State.inputs (rest w)))
     /\ Task.id task' = Task.id task
     /\ Task.agent task' = Task.agent task
     /\ Task.feedbackHistory task' = Task.feedbackHistory task)
  /\ (forall q, q <> r -> deref (fst res) q = deref w q)
  /\ (exists log,
        State.workflowLogs (rest (fst res))
        = State.workflowLogs (rest w) ++ [log]
        /\ Log.logType log = Log.TaskStatusUpdate
        /\ Log.taskStatus log = Log.Known TASK_STATUS_enum.DOING
        /\ Log.agent log = Some agent
        /\ Log.timestamp log = t)
  /\ (Task.feedbackHistory task = None -> snd res = Threw)
  /\ (forall h,
        Task.feedbackHistory task = Some h ->
        (Exists (fun f => Feedback.status f = FEEDBACK_STATUS_enum.PENDING) h ->
         snd res = Called (mkItem agent r WorkOnFeedback))
        /\ (Forall (fun f => Feedback.status f <> FEEDBACK_STATUS_enum.PENDING) h ->
            snd res = Called (mkItem agent r WorkOnTask))).
Proof.
  intros Hr. cbv zeta.
  destruct (workOnTask_world t agent r w task Hr)
    as [Hobj [Hothers [_ [Hrest Hsnd]]]].
  split; [|split; [|split; [|split]]].
  - eexists. split; [exact Hobj|]. now destruct task.
  - exact Hothers.
  - eexists. rewrite Hrest. split; [now destruct (rest w)|].
    repeat split.
  - intros Hnone. now rewrite Hsnd, Hnone.
  - intros h Hh. rewrite Hsnd, Hh. split.
    + intros Hex.
      replace (existsb _ h) with true; [reflexivity|].
      symmetry. apply existsb_exists. apply Exists_exists in Hex.
      destruct Hex as [f [Hin Hf]]. exists f.
      split; [now apply list_elem_of_In | now apply bool_decide_eq_true].
    + intros Hall.
      replace (existsb _ h) with false; [reflexivity|].
      symmetry. apply not_true_is_false. intros Hex.
      apply existsb_exists in Hex. destruct Hex as [f [Hin Hf]].
      apply bool_decide_eq_true in Hf.
      rewrite Forall_forall in Hall. apply (Hall f); [|exact Hf].
      now apply list_elem_of_In.
Qed.

Lemma _isAgentBusy_true (a : Agent.t) (w : World) (q : ref) (task : Task.t)
    (holder : Agent.t) :
  In q (taskRefs w) ->
  deref w q = Some task ->
  Task.agent task = Some holder ->
  Agent.id holder = Agent.id a ->
  Task.status task = TASK_STATUS_enum.DOING ->
  _isAgentBusy a (State.tasks (get w)) = true.
Proof.
  intros Hq Htask Hholder Hid Hstatus. unfold _isAgentBusy.
  apply existsb_exists. exists task. split.
  - unfold get, derefs. rewrite tasks_set_tasks.
    apply list_elem_of_In, list_elem_of_omap. exists q.
    split; [now apply list_elem_of_In | exact Htask].
  - rewrite Hholder. apply andb_true_iff. split.
    + now apply String.eqb_eq.
    + now apply has_status_true.
Qed.

(** X19: a task that is DOING occupies its own agent. When
    [_executeTask] of the store-bound base class is called on a task
    object that the store holds and that is already DOING (the DOING case
    of [execute]), [_isAgentBusy] finds that very task, and the agent is
    called through a clone, never as the agent of the task itself. *)
Theorem doing_task_is_executed_by_a_clone
    (t : Z) (r : ref) (w : World) (task : Task.t) (a : Agent.t)
    (h : list Feedback.t) :
  In r (taskRefs w) ->
  deref w r = Some task ->
  Task.status task = TASK_STATUS_enum.DOING ->
  Task.agent task = Some a ->
  Task.feedbackHistory task = Some h ->
  exists method,
    snd (_executeTask getTaskTitleForLogs interpolateTaskDescription
                      cloneAgent t r w)
    = Called (mkItem (cloneAgent a) r method).
Proof.
  intros Hin Hr Hstatus Ha Hh. unfold _executeTask. rewrite Hr, Ha.
  rewrite (_isAgentBusy_true a w r task a Hin Hr Ha eq_refl Hstatus).
  destruct (workOnTask_world t (cloneAgent a) r w task Hr)
    as [_ [_ [_ [_ Hsnd]]]].
  rewrite Hsnd, Hh. eexists. reflexivity.
Qed.

Variable now : nat -> Z.

(** X20: two ready tasks that share an agent. When the dispatch starts
    two different task objects whose agents have one id, and the store
    holds the first object, the status DOING that [workOnTask] writes on
    the first object is seen through the store by the second call: the
    second task is handed to a clone of its agent. *)
Theorem second_task_of_a_shared_agent_gets_a_clone
    (r1 r2 : ref) (w : World) (task1 task2 : Task.t) (a1 a2 : Agent.t)
    (h1 h2 : list Feedback.t) :
  r1 <> r2 ->
  In r1 (taskRefs w) ->
  deref w r1 = Some task1 ->
  Task.agent task1 = Some a1 ->
  Task.feedbackHistory task1 = Some h1 ->
  deref w r2 = Some task2 ->
  Task.agent task2 = Some a2 ->
  Task.feedbackHistory task2 = Some h2 ->
  Agent.id a1 = Agent.id a2 ->
  exists agent1 method1 method2,
    snd (dispatch getTaskTitleForLogs interpolateTaskDescription cloneAgent
                  now [r1; r2] w [])
    = [mkItem agent1 r1 method1; mkItem (cloneAgent a2) r2 method2].
Proof.
  intros Hne Hin Hr1 Ha1 Hh1 Hr2 Ha2 Hh2 Hid.
  cbn [dispatch length]. unfold _executeTask at 1. rewrite Hr1, Ha1.
  set (agent1 := if _isAgentBusy a1 (State.tasks (get w))
                 then cloneAgent a1 else a1).
  destruct (workOnTask_world (now 0%nat) agent1 r1 w task1 Hr1)
    as [Hobj [Hothers [Hrefs [_ Hsnd]]]].
  destruct (workOnTask getTaskTitleForLogs interpolateTaskDescription
                       (now 0%nat) agent1 r1 w) as [w1 st] eqn:E.
  cbn [fst snd] in *. rewrite Hh1 in Hsnd. subst st.
  cbn [app length].
  unfold _executeTask. rewrite (Hothers r2) by congruence. rewrite Hr2, Ha2.
  assert (Hbusy : _isAgentBusy a2 (State.tasks (get w1)) = true).
  { eapply (_isAgentBusy_true a2 w1 r1 _ a1); [now rewrite Hrefs | exact Hobj
                                              | | exact Hid | ];
      now destruct task1. }
  rewrite Hbusy.
  assert (Hr2' : deref w1 r2 = Some task2)
    by (rewrite (Hothers r2) by congruence; exact Hr2).
  destruct (workOnTask_world (now 1%nat) (cloneAgent a2) r2 w1 task2 Hr2')
    as [_ [_ [_ [_ Hsnd2]]]].
  destruct (workOnTask getTaskTitleForLogs interpolateTaskDescription
                       (now 1%nat) (cloneAgent a2) r2 w1) as [w2 st2].
  cbn [snd] in Hsnd2. rewrite Hh2 in Hsnd2. subst st2.
  cbn [dispatch snd app]. eexists _, _, _. reflexivity.
Qed.

Lemma _executeTask_starts (t : Z) (r : ref) (w : World) (task : Task.t)
    (a : Agent.t) (h : list Feedback.t) :
  deref w r = Some task ->
  Task.agent task = Some a ->
  Task.feedbackHistory task = Some h ->
  let res :=
    _executeTask getTaskTitleForLogs interpolateTaskDescription cloneAgent
                 t r w in
  (exists item,
     snd res = Called item
     /\ item_task item = r
     /\ (item_agent item = a \/ item_agent item = cloneAgent a))
  /\ (exists task',
        deref (fst res) r = Some task'
        /\ Task.status task' = TASK_STATUS_enum.DOING
        /\ Task.id task' = Task.id task
        /\ Task.agent task' = Task.agent task)
  /\ (forall q, q <> r -> deref (fst res) q = deref w q)
  /\ taskRefs (fst res) = taskRefs w.
Proof.
  intros Hr Ha Hh. cbv zeta. unfold _executeTask. rewrite Hr, Ha.
  set (agent := if _isAgentBusy a (State.tasks (get w))
                then cloneAgent a else a).
  destruct (workOnTask_world t agent r w task Hr)
    as [Hobj [Hothers [Hrefs [_ Hsnd]]]].
  rewrite Hh in Hsnd.
  split; [|split; [|split; [exact Hothers | exact Hrefs]]].
  - eexists. split; [exact Hsnd|]. split; [reflexivity|]. cbn.
    subst agent. destruct (_isAgentBusy a _); auto.
  - eexists. split; [exact Hobj|]. now destruct task.
Qed.

(** The dispatch starts every task it is given: one agent call for each,
    in order, and the task object DOING. *)
Lemma dispatch_starts (rs : list ref) :
  forall (w : World) (made : list workItem),
    NoDup rs ->
    Forall (runnable w) rs ->
    let res :=
      dispatch getTaskTitleForLogs interpolateTaskDescription cloneAgent
               now rs w made in
    List.map item_task (snd res) = List.map item_task made ++ rs
    /\ (forall q, ~ In q rs -> deref (fst res) q = deref w q)
    /\ (forall r task,
          In r rs -> deref w r = Some task ->
          exists task',
            deref (fst res) r = Some task'
            /\ Task.status task' = TASK_STATUS_enum.DOING
            /\ Task.id task' = Task.id task
            /\ Task.agent task' = Task.agent task).
Proof.
  induction rs as [|r rs IH]; intros w made Hnodup Hall; cbv zeta.
  - cbn [dispatch fst snd]. split; [now rewrite app_nil_r|].
    split; [reflexivity | intros r task []].
  - apply NoDup_cons in Hnodup. destruct Hnodup as [Hnotin Hnodup].
    apply Forall_cons in Hall.
    destruct Hall as [[task [a [h [Hr [Ha Hh]]]]] Hall].
    cbn [dispatch].
    destruct (_executeTask_starts (now (length made)) r w task a h Hr Ha Hh)
      as [[item [Hsnd [Hitem _]]] [[task' [Hr' Htask']] [Hothers _]]].
    destruct (_executeTask _ _ _ _ r w) as [w1 st]. cbn [fst snd] in *.
    subst st.
    assert (Hne : forall q, In q rs -> q <> r).
    { intros q Hq ->. apply Hnotin. now apply list_elem_of_In. }
    assert (Hall1 : Forall (runnable w1) rs).
    { apply List.Forall_forall. intros q Hq.
      rewrite List.Forall_forall in Hall.
      destruct (Hall q Hq) as [tq [aq [hq [Hq' H]]]].
      exists tq, aq, hq. split; [|exact H].
      now rewrite (Hothers q (Hne q Hq)). }
    destruct (IH w1 (made ++ [item]) Hnodup Hall1) as [Hcalls [Hkeep Hdone]].
    split; [|split].
    + rewrite Hcalls, List.map_app. cbn [List.map]. rewrite Hitem.
      now rewrite <- app_assoc.
    + intros q Hq. rewrite Hkeep by (intros Hin; apply Hq; now right).
      apply Hothers. intros ->. apply Hq. now left.
    + intros r0 task0 [<-|Hin] Hr0.
      * rewrite Hkeep by (intros Hin; apply Hnotin; now apply list_elem_of_In).
        rewrite Hr in Hr0. inversion Hr0; subst task0. now exists task'.
      * apply (Hdone r0 task0 Hin). now rewrite (Hothers r0 (Hne r0 Hin)).
Qed.

Lemma omap_filter_refs (f : Task.t -> bool) (pre l : list Task.t) :
  omap (fun r => (pre ++ l) !! r)
       (List.filter (fun r => match (pre ++ l) !! r with
                              | Some task => f task
                              | None => false
                              end)
                    (seq (length pre) (length l)))
  = List.filter f l.
Proof.
  revert pre. induction l as [|x l IH]; intros pre; [reflexivity|].
  cbn [length seq List.filter].
  rewrite list_lookup_middle by reflexivity.
  specialize (IH (pre ++ [x])).
  rewrite <- app_assoc, length_app in IH. cbn [app length] in IH.
  rewrite Nat.add_1_r in IH.
  destruct (f x); [|exact IH].
  cbn [omap list_omap]. rewrite list_lookup_middle by reflexivity.
  f_equal. exact IH.
Qed.

Lemma omap_map_item (tasks : list Task.t) (items : list workItem) :
  omap (fun item => tasks !! item_task item) items
  = omap (fun r => tasks !! r) (List.map item_task items).
Proof.
  induction items as [|item items IH]; [reflexivity|].
  cbn [omap list_omap List.map]. rewrite IH. reflexivity.
Qed.

(** C2 (amended): the dispatch of a tick is not bounded. Whatever
    [maxConcurrency] is and however many tasks are DOING, a call of
    [execute] without changed tasks, on the tasks of a store that all have
    an agent and a feedback history, starts every ready task: it makes one
    agent call for each of them, in the order of the list, each for
    another task, and leaves each of them DOING in the store; the tasks
    that are not ready are left as they are. *)
Theorem tick_starts_every_ready_task (state : State.t) :
  Forall (fun task => is_Some (Task.agent task)
                      /\ is_Some (Task.feedbackHistory task))
         (State.tasks state) ->
  let tasks := State.tasks state in
  let res :=
    execute getTaskTitleForLogs interpolateTaskDescription cloneAgent
            agentWork now [] (refs_of state) (enter state) in
  resolved res = true
  /\ omap (fun item => tasks !! item_task item) (calls res)
     = getReadyTasks tasks
  /\ NoDup (List.map item_task (calls res))
  /\ length (calls res) = length (getReadyTasks tasks)
  /\ Forall2 (started_where (getReadyTasks tasks))
             tasks (State.tasks (get (world res))).
Proof.
  intros Hall tasks res. subst res. unfold execute.
  cbn [handleChanged resolved world calls]. rewrite derefs_enter.
  match goal with
  | |- context [dispatch _ _ _ _ ?exe _ []] => set (executableTasks := exe)
  end.
  assert (Hexe : forall r,
            In r executableTasks
            <-> exists task, tasks !! r = Some task
                             /\ ready tasks task = true).
  { intros r. subst executableTasks. rewrite List.filter_In.
    unfold deref, enter, refs_of. cbn [objects]. fold tasks. split.
    - intros [_ H]. destruct (tasks !! r) as [task|]; [|discriminate H].
      now exists task.
    - intros [task [Hr H]]. rewrite Hr. split; [|exact H].
      apply List.in_seq. apply lookup_lt_Some in Hr. lia. }
  assert (Hrun : Forall (runnable (enter state)) executableTasks).
  { apply List.Forall_forall. intros r Hr. apply Hexe in Hr.
    destruct Hr as [task [Hr _]].
    rewrite Forall_forall in Hall.
    destruct (Hall task (list_elem_of_lookup_2 _ _ _ Hr)) as [[a Ha] [h Hh]].
    now exists task, a, h. }
  assert (Hnodup : NoDup executableTasks).
  { subst executableTasks. apply NoDup_ListNoDup, List.NoDup_filter.
    apply NoDup_ListNoDup, NoDup_seq. }
  pose proof (dispatch_starts executableTasks (enter state) [] Hnodup Hrun)
    as [Hcalls [Hkeep Hdone]].
  pose proof (dispatch_same_except getTaskTitleForLogs
                interpolateTaskDescription cloneAgent now executableTasks
                (enter state) []) as [Hrefs [Hlen _]].
  destruct (dispatch _ _ _ _ executableTasks (enter state) []) as [w2 made].
  cbn [fst snd resolved calls world List.map app] in *.
  split; [reflexivity|]. split; [|split; [|split]].
  - rewrite omap_map_item, Hcalls. subst executableTasks.
    unfold deref, enter, refs_of. cbn [objects]. fold tasks.
    exact (omap_filter_refs (ready tasks) [] tasks).
  - now rewrite Hcalls.
  - rewrite <- (List.length_map item_task), Hcalls. subst executableTasks.
    unfold deref, enter, refs_of, getReadyTasks. cbn [objects]. fold tasks.
    exact (filter_refs_length (ready tasks) [] tasks).
  - assert (Htasks' : State.tasks (get w2) = objects w2).
    { unfold get, derefs, deref. rewrite tasks_set_tasks, Hrefs.
      change (taskRefs (enter state))
        with (seq 0 (length (objects (enter state)))).
      rewrite <- Hlen. exact (omap_lookup_seq [] (objects w2)). }
    rewrite Htasks'. apply Forall2_same_length_lookup_2.
    + now rewrite Hlen.
    + intros i old new Hold Hnew.
      assert (Hready : In old (getReadyTasks tasks)
                       <-> ready tasks old = true).
      { unfold getReadyTasks. rewrite List.filter_In. split; [tauto|].
        intros H. split; [|exact H].
        apply list_elem_of_In. eapply list_elem_of_lookup_2. exact Hold. }
      destruct (ready tasks old) eqn:E.
      * split; [intros _ | intros Hn; exfalso; apply Hn; now apply Hready].
        destruct (Hdone i old) as [task' [Hi Htask']].
        { apply Hexe. now exists old. }
        { exact Hold. }
        unfold deref in Hi. rewrite Hnew in Hi. inversion Hi; subst task'.
        exact Htask'.
      * split; [intros Hin; apply Hready in Hin; discriminate Hin|].
        intros _.
        assert (Hi : deref w2 i = deref (enter state) i).
        { apply Hkeep. intros Hin. apply Hexe in Hin.
          destruct Hin as [task [Hr H]]. fold tasks in Hold.
          rewrite Hold in Hr. inversion Hr; subst task. congruence. }
        unfold deref, enter in Hi. cbn [objects] in Hi. fold tasks in Hi.
        rewrite Hnew, Hold in Hi. now inversion Hi.
Qed.

End StartFacts.

Lemma workOnTask_marks_doing_before_it_reads_the_history_witness :
  let task :=
    Task.set_feedbackHistory None (dependent_task "A" TASK_STATUS_enum.TODO [])
  in
  let w := HierarchyExecutionStrategy.enter (State.set_tasks [task] sample_state)
  in
  let res :=
    HierarchyExecutionStrategy.workOnTask
      Task.description (fun d _ => d) 7
      (sample_agent "agent-A" "A") 0%nat w in
  HierarchyExecutionStrategy.deref w 0%nat = Some task
  /\ snd res = HierarchyExecutionStrategy.Threw
  /\ exists task',
       HierarchyExecutionStrategy.deref (fst res) 0%nat = Some task'
       /\ Task.status task' = TASK_STATUS_enum.DOING.
Proof.
  intros task w res.
  destruct (workOnTask_marks_doing_before_it_reads_the_history
              Task.description (fun d _ => d) 7
              (sample_agent "agent-A" "A")
              0%nat w task eq_refl)
    as [[task' [Hobj [Hstatus _]]] [_ [_ [Hthrew _]]]].
  split; [reflexivity|]. split; [exact (Hthrew eq_refl)|].
  exists task'. now split.
Defined.

Lemma doing_task_is_executed_by_a_clone_witness :
  let task := dependent_task "A" TASK_STATUS_enum.DOING [] in
  let w := HierarchyExecutionStrategy.enter (State.set_tasks [task] sample_state)
  in
  In 0%nat (HierarchyExecutionStrategy.taskRefs w)
  /\ HierarchyExecutionStrategy.deref w 0%nat = Some task
  /\ exists method,
       snd (HierarchyExecutionStrategy._executeTask
              Task.description (fun d _ => d)
              sample_clone
              7 0%nat w)
       = HierarchyExecutionStrategy.Called
           (HierarchyExecutionStrategy.mkItem
              (sample_clone (sample_agent "agent-A" "A"))
              0%nat method).
Proof.
  intros task w.
  assert (Hin : In 0%nat (HierarchyExecutionStrategy.taskRefs w))
    by now left.
  split; [exact Hin|]. split; [reflexivity|].
  exact (doing_task_is_executed_by_a_clone
           Task.description (fun d _ => d)
           sample_clone
           7 0%nat w task
           (sample_agent "agent-A" "A") []
           Hin eq_refl eq_refl eq_refl eq_refl).
Defined.

Lemma second_task_of_a_shared_agent_gets_a_clone_witness :
  let shared := sample_agent "agent-1" "Ada" in
  let task i :=
    Task.mk i ("describe " +:+ i) TASK_STATUS_enum.TODO (Some [])
            (Some shared) false JsUndefined (Some []) JsUndefined None in
  let w :=
    HierarchyExecutionStrategy.enter
      (State.set_tasks [task "t1"; task "t2"] sample_state) in
  let clone := sample_clone in
  0%nat <> 1%nat
  /\ In 0%nat (HierarchyExecutionStrategy.taskRefs w)
  /\ exists agent1 method1 method2,
       snd (HierarchyExecutionStrategy.dispatch
              Task.description (fun d _ => d) clone Z.of_nat
              [0%nat; 1%nat] w [])
       = [HierarchyExecutionStrategy.mkItem agent1 0%nat method1;
          HierarchyExecutionStrategy.mkItem (clone shared) 1%nat method2].
Proof.
  intros shared task w clone.
  assert (Hne : 0%nat <> 1%nat) by discriminate.
  assert (Hin : In 0%nat (HierarchyExecutionStrategy.taskRefs w))
    by now left.
  split; [exact Hne|]. split; [exact Hin|].
  exact (second_task_of_a_shared_agent_gets_a_clone
           Task.description (fun d _ => d) clone Z.of_nat
           0%nat 1%nat w (task "t1") (task "t2") shared shared [] []
           Hne Hin eq_refl eq_refl eq_refl eq_refl eq_refl eq_refl eq_refl).
Defined.

Lemma tick_starts_every_ready_task_witness :
  let res :=
    HierarchyExecutionStrategy.execute
      Task.description (fun d _ => d) (fun a => a) (fun _ w' => Some w')
      Z.of_nat [] (HierarchyExecutionStrategy.refs_of six_tasks_state)
      (HierarchyExecutionStrategy.enter six_tasks_state) in
  Forall (fun task => is_Some (Task.agent task)
                      /\ is_Some (Task.feedbackHistory task))
         (State.tasks six_tasks_state)
  /\ State.maxConcurrency six_tasks_state = 5
  /\ length (HierarchyExecutionStrategy.getReadyTasks
               (State.tasks six_tasks_state)) = 6%nat
  /\ length (HierarchyExecutionStrategy.calls res) = 6%nat
  /\ Forall2 (started_where
                (HierarchyExecutionStrategy.getReadyTasks
                   (State.tasks six_tasks_state)))
             (State.tasks six_tasks_state)
             (State.tasks
                (HierarchyExecutionStrategy.get
                   (HierarchyExecutionStrategy.world res))).
Proof.
  intros res.
  assert (Hall : Forall (fun task => is_Some (Task.agent task)
                                     /\ is_Some (Task.feedbackHistory task))
                        (State.tasks six_tasks_state)).
  { repeat constructor; eexists; reflexivity. }
  destruct (tick_starts_every_ready_task
              Task.description (fun d _ => d) (fun a => a)
              (fun _ w' => Some w') Z.of_nat six_tasks_state Hall)
    as [_ [_ [_ [Hlen Hstarted]]]].
  split; [exact Hall|]. split; [reflexivity|]. split; [reflexivity|].
  split; [exact Hlen | exact Hstarted].
Defined.

(** ** What the cleaned snapshot drops and what it keeps *)

Section SnapshotMore.
Import Snapshot.

Lemma lookup_omit (k : string) (ks : list string)
    (ps : list (string * JsValue)) :
  Js.lookup k (Js.omit ks ps)
  = if existsb (String.eqb k) ks then None else Js.lookup k ps.
Proof.
  unfold Js.omit. induction ps as [|[k' v] ps IH]; cbn [List.filter Js.lookup fst].
  - now destruct (existsb _ ks).
  - destruct (String.eqb k' k) eqn:E.
    + apply String.eqb_eq in E. subst k'.
      destruct (existsb (String.eqb k) ks); cbn [negb]; [exact IH|].
      cbn [Js.lookup]. now rewrite String.eqb_refl.
    + destruct (existsb (String.eqb k') ks); cbn [negb]; [exact IH|].
      cbn [Js.lookup]. rewrite E. exact IH.
Qed.

Lemma lookup_extend_other (k : string) (kvs : list (string * JsValue)) :
  forall base,
    ~ In k (Js.keys kvs) ->
    Js.lookup k (Js.extend base kvs) = Js.lookup k base.
Proof.
  unfold Js.extend.
  induction kvs as [|[k' v'] kvs IH]; intros base Hnot; [reflexivity|].
  cbn [fold_left fst snd]. rewrite IH by (intros H; apply Hnot; now right).
  rewrite lookup_set.
  destruct (String.eqb k' k) eqn:E; [|reflexivity].
  apply String.eqb_eq in E. exfalso. apply Hnot. now left.
Qed.

(** The object that [cleanTask] returns, before the two conditional
    properties are set. *)
Lemma cleanTask_object (task cleaned : JsValue) :
  cleanTask task = Some cleaned ->
  exists agent' feedbackHistory',
    let allowParallelExecution := Js.prop "allowParallelExecution" task in
    let referenceId := Js.prop "referenceId" task in
    let cleanedTask :=
      Js.extend
        (Js.omit ["allowParallelExecution"; "referenceId"; "hooks";
                  "workflowInternalMemory"] (Js.spread task))
        [("id", REDACTED); ("agent", agent'); ("duration", REDACTED);
         ("endTime", REDACTED); ("startTime", REDACTED);
         ("feedbackHistory", feedbackHistory')] in
    let cleanedTask1 :=
      if Js.truthy allowParallelExecution
      then Js.set "allowParallelExecution" allowParallelExecution cleanedTask
      else cleanedTask in
    cleaned
    = JsObj (if Js.truthy referenceId
             then Js.set "referenceId" referenceId cleanedTask1
             else cleanedTask1).
Proof.
  unfold cleanTask. intros H.
  destruct (Js.nullish task); [discriminate H|].
  apply bind_Some in H. destruct H as [agent' [_ H]].
  apply bind_Some in H. destruct H as [feedbackHistory' [_ H]].
  inversion H as [E]. clear H E. exists agent', feedbackHistory'. cbv zeta.
  now destruct (Js.prop "allowParallelExecution" task) as [| |[|]| | | |].
Qed.

(** X21: what [cleanTask] leaves out. A cleaned task has no [hooks] and
    no [workflowInternalMemory] property, whatever the task held there;
    it has [allowParallelExecution] and [referenceId] only when the task
    has a truthy value for them, and then with that value. *)
Theorem cleanTask_drops_hooks_and_memory (task cleaned : JsValue) :
  cleanTask task = Some cleaned ->
  exists props,
    cleaned = JsObj props
    /\ Js.lookup "hooks" props = None
    /\ Js.lookup "workflowInternalMemory" props = None
    /\ Js.lookup "allowParallelExecution" props
       = (if Js.truthy (Js.prop "allowParallelExecution" task)
          then Some (Js.prop "allowParallelExecution" task) else None)
    /\ Js.lookup "referenceId" props
       = (if Js.truthy (Js.prop "referenceId" task)
          then Some (Js.prop "referenceId" task) else None).
Proof.
  intros H. destruct (cleanTask_object task cleaned H)
    as [agent' [feedbackHistory' ->]].
  eexists. split; [reflexivity|].
  destruct (Js.truthy (Js.prop "referenceId" task));
    destruct (Js.truthy (Js.prop "allowParallelExecution" task));
    rewrite ?lookup_set; cbn [String.eqb Ascii.eqb Bool.eqb];
    rewrite ?lookup_extend_other, ?lookup_omit
      by (cbn; intuition discriminate);
    cbn [existsb String.eqb Ascii.eqb Bool.eqb orb];
    repeat split.
Qed.

(** X22: what cleaning keeps. A property of a task other than the ones
    [cleanTask] names, a property of an agent other than [id], [env],
    [llmConfig] and [agentInstance], and a property of an [llmConfig]
    other than [apiKey] has in the cleaned object the value it had: the
    description, the status and the result of a task, the name of an
    agent and the model of its [llmConfig] are not touched. *)
Theorem cleaning_keeps_the_other_properties (k : string) :
  (forall task cleaned,
     cleanTask task = Some cleaned ->
     ~ In k ["id"; "agent"; "duration"; "endTime"; "startTime";
             "feedbackHistory"; "allowParallelExecution"; "referenceId";
             "hooks"; "workflowInternalMemory"] ->
     Js.prop k cleaned = default JsUndefined (Js.lookup k (Js.spread task)))
  /\ (forall agent cleaned,
        cleanAgent agent = Some cleaned ->
        ~ In k ["id"; "env"; "llmConfig"; "agentInstance"] ->
        Js.prop k cleaned = default JsUndefined (Js.lookup k (Js.spread agent)))
  /\ (forall x,
        Js.truthy (Js.prop "llmConfig" x) = true ->
        k <> "apiKey" ->
        Js.prop k (cleanLlmConfig x)
        = default JsUndefined
            (Js.lookup k (Js.spread (Js.prop "llmConfig" x)))).
Proof.
  split; [|split].
  - intros task cleaned H Hk.
    destruct (cleanTask_object task cleaned H)
      as [agent' [feedbackHistory' ->]]. cbv zeta.
    assert (Hne : forall k', In k' ["id"; "agent"; "duration"; "endTime";
                                    "startTime"; "feedbackHistory";
                                    "allowParallelExecution"; "referenceId";
                                    "hooks"; "workflowInternalMemory"] ->
                             String.eqb k' k = false).
    { intros k' Hin. apply String.eqb_neq. intros ->. contradiction. }
    assert (Hks : existsb (String.eqb k)
                    ["allowParallelExecution"; "referenceId"; "hooks";
                     "workflowInternalMemory"] = false).
    { cbn [existsb]. rewrite !(String.eqb_sym k).
      rewrite !Hne by (cbn; tauto). reflexivity. }
    destruct (Js.truthy (Js.prop "referenceId" task));
      destruct (Js.truthy (Js.prop "allowParallelExecution" task));
      unfold Js.prop at 1;
      rewrite ?lookup_set, ?Hne by (cbn; tauto);
      (rewrite lookup_extend_other, lookup_omit, Hks; [reflexivity|]);
      cbn; intros Hin; apply Hk; cbn; tauto.
  - intros agent cleaned H Hk. unfold cleanAgent in H.
    destruct (Js.nullish agent); [discriminate H|].
    injection H as <-. unfold Js.prop at 1.
    assert (Hne : forall k', In k' ["id"; "env"; "llmConfig"; "agentInstance"] ->
                             String.eqb k' k = false).
    { intros k' Hin. apply String.eqb_neq. intros ->. contradiction. }
    unfold Js.extend; cbn [fold_left fst snd].
    rewrite !lookup_set, !Hne by (cbn; tauto). reflexivity.
  - intros x Htruthy Hk. unfold cleanLlmConfig. rewrite Htruthy.
    unfold Js.prop at 1. rewrite lookup_extend_other; [reflexivity|].
    cbn. intros [E|[]]. now apply Hk.
Qed.

End SnapshotMore.

Lemma cleanTask_drops_hooks_and_memory_witness :
  exists cleaned props,
    Snapshot.cleanTask timed_task = Some cleaned
    /\ cleaned = JsObj props
    /\ Js.lookup "hooks" (Js.spread timed_task) = Some (JsObj [])
    /\ Js.lookup "hooks" props = None.
Proof.
  destruct (Snapshot.cleanTask timed_task) as [cleaned|] eqn:E;
    [|discriminate E].
  destruct (cleanTask_drops_hooks_and_memory timed_task cleaned E)
    as [props [Hprops [Hhooks _]]].
  exists cleaned, props. split; [reflexivity|]. split; [exact Hprops|].
  split; [reflexivity | exact Hhooks].
Defined.

Lemma cleaning_keeps_the_other_properties_witness :
  exists cleaned,
    Snapshot.cleanAgent secret_agent = Some cleaned
    /\ ~ In "name" ["id"; "env"; "llmConfig"; "agentInstance"]
    /\ Js.prop "name" cleaned = JsStr "Ada".
Proof.
  destruct (Snapshot.cleanAgent secret_agent) as [cleaned|] eqn:E;
    [|discriminate E].
  assert (Hk : ~ In "name" ["id"; "env"; "llmConfig"; "agentInstance"])
    by (cbn; intuition discriminate).
  exists cleaned. split; [reflexivity|]. split; [exact Hk|].
  exact (proj1 (proj2 (cleaning_keeps_the_other_properties "name"))
               secret_agent cleaned E Hk).
Defined.

(** ** The state-threaded base class *)

Section StateThreaded.
Import WorkflowExecutionStrategy.

Lemma _isTaskAgentBusy_filter (currentTask : Task.t) (current : Agent.t)
    (tasks : list Task.t) :
  Task.agent currentTask = Some current ->
  _isTaskAgentBusy currentTask tasks
  = Some (HierarchyExecutionStrategy._isAgentBusy current
            (List.filter
               (fun t => negb (String.eqb (Task.id t) (Task.id currentTask)))
               tasks)).
Proof.
  intros Hc. unfold HierarchyExecutionStrategy._isAgentBusy.
  induction tasks as [|t tasks IH]; [reflexivity|].
  cbn [_isTaskAgentBusy List.filter]. rewrite Hc.
  destruct (Task.agent t) as [a|] eqn:Ha.
  - destruct (negb (String.eqb (Task.id t) (Task.id currentTask)));
      [|exact IH].
    cbn [existsb]. rewrite Ha.
    destruct (String.eqb (Agent.id a) (Agent.id current)
              && Task.has_status TASK_STATUS_enum.DOING t);
      [reflexivity | exact IH].
  - destruct (negb (String.eqb (Task.id t) (Task.id currentTask)));
      [|exact IH].
    cbn [existsb]. rewrite Ha. exact IH.
Qed.

Variable cloneAgent : Agent.t -> Agent.t.
Variable Context : Type.
Variable getContextForTask : State.t -> Task.t -> option Context.

(** X23: under the state-threaded base class a task does not occupy its
    own agent. [_isTaskAgentBusy] is [_isAgentBusy] of the store-bound
    class on the tasks that have another id than the current one; so for
    a current task that is DOING and in the list, the store-bound test
    says busy, while the state-threaded one says so only if another task
    with the same agent is DOING, and otherwise [_executeTask] queues the
    task with its own agent, not with a clone. *)
Theorem isTaskAgentBusy_ignores_the_task_itself
    (currentTask : Task.t) (current : Agent.t) (teamStoreState : State.t) :
  Task.agent currentTask = Some current ->
  let tasks := State.tasks teamStoreState in
  let others :=
    List.filter (fun t => negb (String.eqb (Task.id t) (Task.id currentTask)))
                tasks in
  _isTaskAgentBusy currentTask tasks
  = Some (HierarchyExecutionStrategy._isAgentBusy current others)
  /\ (In currentTask tasks ->
      Task.status currentTask = TASK_STATUS_enum.DOING ->
      HierarchyExecutionStrategy._isAgentBusy current tasks = true)
  /\ (HierarchyExecutionStrategy._isAgentBusy current others = false ->
      _executeTask cloneAgent Context getContextForTask teamStoreState
                   currentTask
      = option_map (mkQueued (Some current) currentTask)
                   (getContextForTask teamStoreState currentTask))
  /\ (HierarchyExecutionStrategy._isAgentBusy current others = true ->
      _executeTask cloneAgent Context getContextForTask teamStoreState
                   currentTask
      = option_map (mkQueued (Some (cloneAgent current)) currentTask)
                   (getContextForTask teamStoreState currentTask)).
Proof.
  intros Hc. cbv zeta.
  pose proof (_isTaskAgentBusy_filter currentTask current
                (State.tasks teamStoreState) Hc) as Hbusy.
  split; [exact Hbusy|]. split; [|split].
  - intros Hin Hstatus. unfold HierarchyExecutionStrategy._isAgentBusy.
    apply existsb_exists. exists currentTask. split; [exact Hin|].
    rewrite Hc, String.eqb_refl. now apply has_status_true.
  - intros Hfree. unfold _executeTask. rewrite Hbusy, Hfree, Hc. cbn.
    now destruct (getContextForTask teamStoreState currentTask).
  - intros Htaken. unfold _executeTask. rewrite Hbusy, Htaken, Hc. cbn.
    now destruct (getContextForTask teamStoreState currentTask).
Qed.

End StateThreaded.

Lemma isTaskAgentBusy_ignores_the_task_itself_witness :
  let task := dependent_task "A" TASK_STATUS_enum.DOING [] in
  let agent := sample_agent "agent-A" "A" in
  let state := State.set_tasks [task] sample_state in
  Task.agent task = Some agent
  /\ WorkflowExecutionStrategy._isTaskAgentBusy task (State.tasks state)
     = Some false
  /\ HierarchyExecutionStrategy._isAgentBusy agent (State.tasks state) = true.
Proof.
  intros task agent state.
  destruct (isTaskAgentBusy_ignores_the_task_itself
              (fun a => a) unit (fun _ _ => Some tt) task agent state eq_refl)
    as [Hstate [Hstore _]].
  split; [reflexivity|]. split; [exact Hstate|].
  apply Hstore; [now left | reflexivity].
Defined.

(** ** The Jina tool *)

Section JinaFacts.
Import JinaUrlToMarkdown.

Lemma nonempty_truthy (c : ascii) (s : string) :
  Js.truthy (JsStr (String c s)) = true.
Proof. reflexivity. Qed.

Variable post : request -> outcome.
Variable typeErrorMessage : string.

(** X24: [_call] of the Jina tool never resolves to an empty answer.
    Whatever the client does, the promise resolves to a truthy value (the
    data of the response, the fixed text for a response without data, or
    an error text), unless the client rejects with [null] or [undefined];
    an HTTP error is reported as a client error for a status from 400 to
    499, as a server error from 500 on, and as unknown below 400. *)
Theorem jina_call_resolves_to_a_truthy_value (this : t) (input : JsValue) :
  match _call post typeErrorMessage this input with
  | Some answer => Js.truthy answer = true
  | None =>
      Js.nullish input = false
      /\ exists error,
           post (request_of this input) = Rejects (OtherError error)
           /\ Js.nullish error = true
  end
  /\ forall statusCode,
       Js.nullish input = false ->
       post (request_of this input) = Rejects (HTTPError statusCode) ->
       _call post typeErrorMessage this input
       = Some (JsStr ("API request failed: "
                        +:+ (if statusCode <? 400 then "Unknown"
                             else if statusCode <? 500 then "Client Error"
                             else "Server Error")
                        +:+ " (" +:+ Js.string_of_Z statusCode +:+ ")")).
Proof.
  split.
  - unfold _call. destruct (Js.nullish input) eqn:Hinput; [reflexivity|].
    destruct (post (request_of this input))
      as [response|[statusCode|error]] eqn:Hpost.
    + destruct (Js.truthy (if Js.nullish response then JsUndefined
                           else Js.prop "data" response)) eqn:E;
        [exact E | reflexivity].
    + reflexivity.
    + cbn [caught]. destruct (Js.nullish error) eqn:He; [|reflexivity].
      split; [reflexivity|]. now exists error.
  - intros statusCode Hinput Hpost. unfold _call. rewrite Hinput, Hpost.
    cbn [caught]. do 3 f_equal.
    destruct (statusCode <? 400) eqn:E1.
    + apply Z.ltb_lt in E1.
      replace (400 <=? statusCode) with false
        by (symmetry; apply Z.leb_gt; lia).
      replace (500 <=? statusCode) with false
        by (symmetry; apply Z.leb_gt; lia).
      reflexivity.
    + apply Z.ltb_ge in E1.
      replace (400 <=? statusCode) with true
        by (symmetry; apply Z.leb_le; lia).
      destruct (statusCode <? 500) eqn:E2; [reflexivity|].
      apply Z.ltb_ge in E2.
      replace (500 <=? statusCode) with true
        by (symmetry; apply Z.leb_le; lia).
      reflexivity.
Qed.

(** X25: what the request of the Jina tool carries. For a tool made by
    the constructor, the body is sent to r.jina.ai and holds the options
    of the tool next to the url; an option named [url] takes the place of
    the url of the input. The Authorization header is [Bearer] and the
    key when the constructor was given a truthy [apiKey], and is absent
    otherwise; a constructor without [fields] throws. *)
Theorem jina_request_takes_url_from_options
    (fields input : JsValue) (this : t) :
  constructor fields = Some this ->
  NoDup (Js.keys (Js.spread (options this))) ->
  let sent := request_of this input in
  endpoint sent = "https://r.jina.ai/"
  /\ Js.lookup "url" (json sent)
     = Some (default (Js.prop "url" input)
                     (Js.lookup "url" (Js.spread (options this))))
  /\ (forall k, k <> "url" ->
        Js.lookup k (json sent) = Js.lookup k (Js.spread (options this)))
  /\ Js.lookup "Authorization" (request_headers sent)
     = (if Js.truthy (Js.prop "apiKey" fields)
        then Some (JsStr ("Bearer " +:+ Js.to_string (Js.prop "apiKey" fields)))
        else None)
  /\ Js.lookup "Content-Type" (request_headers sent)
     = Some (JsStr "application/json")
  /\ constructor JsUndefined = None.
Proof.
  intros Hmade Hnodup. cbv zeta. unfold request_of.
  cbn [endpoint json request_headers].
  split; [reflexivity|]. split; [|split; [|split; [|split]]].
  - rewrite (lookup_extend "url" _ _ Hnodup).
    now destruct (Js.lookup "url" (Js.spread (options this))).
  - intros k Hk. rewrite (lookup_extend k _ _ Hnodup).
    destruct (Js.lookup k (Js.spread (options this))); [reflexivity|].
    cbn [Js.lookup]. apply String.eqb_neq in Hk.
    rewrite String.eqb_sym in Hk. now rewrite Hk.
  - unfold constructor in Hmade.
    destruct (Js.nullish fields); [discriminate|].
    injection Hmade as <-. cbn [headers].
    now destruct (Js.truthy (Js.prop "apiKey" fields)).
  - unfold constructor in Hmade.
    destruct (Js.nullish fields); [discriminate|].
    injection Hmade as <-. cbn [headers].
    now destruct (Js.truthy (Js.prop "apiKey" fields)).
  - reflexivity.
Qed.

End JinaFacts.

Lemma jina_call_resolves_to_a_truthy_value_witness :
  let this :=
    JinaUrlToMarkdown.mk "jina-url-to-markdown" JsUndefined (JsObj []) ""
                         [("Content-Type", JsStr "application/json")] in
  let input := JsObj [("url", JsStr "https://a.example")] in
  let post (_ : JinaUrlToMarkdown.request) :=
    JinaUrlToMarkdown.Rejects (JinaUrlToMarkdown.HTTPError 404) in
  Js.nullish input = false
  /\ JinaUrlToMarkdown._call post "" this input
     = Some (JsStr "API request failed: Client Error (404)").
Proof.
  intros this input post. split; [reflexivity|].
  exact (proj2 (jina_call_resolves_to_a_truthy_value post "" this input)
               404 eq_refl eq_refl).
Defined.

Lemma jina_request_takes_url_from_options_witness :
  let fields :=
    JsObj [("apiKey", JsStr "key");
           ("options", JsObj [("url", JsStr "https://b.example");
                              ("retainImages", JsStr "none")])] in
  let input := JsObj [("url", JsStr "https://a.example")] in
  exists this,
    JinaUrlToMarkdown.constructor fields = Some this
    /\ NoDup (Js.keys (Js.spread (JinaUrlToMarkdown.options this)))
    /\ Js.lookup "url"
         (JinaUrlToMarkdown.json (JinaUrlToMarkdown.request_of this input))
       = Some (JsStr "https://b.example")
    /\ Js.lookup "Authorization"
         (JinaUrlToMarkdown.request_headers
            (JinaUrlToMarkdown.request_of this input))
       = Some (JsStr "Bearer key").
Proof.
  intros fields input.
  destruct (JinaUrlToMarkdown.constructor fields) as [this|] eqn:E;
    [|discriminate E].
  assert (Hnodup : NoDup (Js.keys (Js.spread (JinaUrlToMarkdown.options this)))).
  { injection E as <-. simpl.
    repeat constructor; rewrite ?list_elem_of_In; simpl; intuition discriminate. }
  destruct (jina_request_takes_url_from_options fields input this E Hnodup)
    as [_ [Hurl [_ [Hauth _]]]].
  exists this. split; [reflexivity|]. split; [exact Hnodup|]. split.
  - rewrite Hurl. injection E as <-. reflexivity.
  - rewrite Hauth. reflexivity.
Defined.

(** ** The website search tool *)

Section WebsiteSearchFacts.
Import WebsiteSearch.
Variable Toolkit : Type.
Variable addDocuments : JsValue -> Toolkit -> Toolkit * settled.
Variable askQuestion : JsValue -> Toolkit -> Toolkit * settled.

Lemma empty_string_is_falsy (v : JsValue) :
  is_empty_string v = true -> Js.truthy v = false.
Proof. now destruct v as [| | | |[|]| |]. Qed.

(** X26: the order of the checks of the website search tool, and the url
    it remembers. A truthy [url] of the input replaces the url of the
    tool before anything is checked, and stays replaced when the call
    goes on to fail; a call without one uses the url the tool has. A
    missing url is reported before a missing query, and on either report
    the toolkit has not been called. With a url and a query, the toolkit
    is asked to add the document of that url. *)
Theorem websiteSearch_checks_the_url_first
    (this : t Toolkit) (input : JsValue) :
  Js.nullish input = false ->
  let given := Js.prop "url" input in
  let query := Js.prop "query" input in
  let after := fst (_call Toolkit addDocuments askQuestion this input) in
  let answer := snd (_call Toolkit addDocuments askQuestion this input) in
  url after = (if Js.truthy given then given else url this)
  /\ (Js.truthy (url after) = false ->
      answer = Some (JsStr ERROR_MISSING_URL)
      /\ ragToolkit after = ragToolkit this)
  /\ (Js.truthy (url after) = true -> Js.truthy query = false ->
      answer = Some (JsStr ERROR_MISSING_QUERY)
      /\ ragToolkit after = ragToolkit this)
  /\ (Js.truthy (url after) = true -> Js.truthy query = true ->
      match addDocuments (url after) (ragToolkit this) with
      | (added, Rejected error) =>
          ragToolkit after = added /\ answer = caught error
      | (added, Fulfilled _) =>
          ragToolkit after = fst (askQuestion query added)
          /\ answer = match snd (askQuestion query added) with
                      | Fulfilled response => Some response
                      | Rejected error => caught error
                      end
      end).
Proof.
  intros Hinput. cbv zeta. unfold _call. rewrite Hinput.
  set (given := Js.prop "url" input). set (query := Js.prop "query" input).
  set (this1 := if Js.truthy given && negb (is_empty_string given)
                then mk given (ragToolkit this) else this).
  assert (Hurl : url this1 = if Js.truthy given then given else url this).
  { subst this1. destruct (Js.truthy given) eqn:E; [|reflexivity].
    destruct (is_empty_string given) eqn:E'; [|reflexivity].
    apply empty_string_is_falsy in E'. congruence. }
  assert (Hkit : ragToolkit this1 = ragToolkit this).
  { subst this1. now destruct (Js.truthy given && negb (is_empty_string given)). }
  assert (Hcheck : forall v, negb (Js.truthy v) || is_empty_string v
                             = negb (Js.truthy v)).
  { intros v. destruct (Js.truthy v) eqn:E; [|reflexivity].
    destruct (is_empty_string v) eqn:E'; [|reflexivity].
    apply empty_string_is_falsy in E'. congruence. }
  rewrite !Hcheck.
  destruct (Js.truthy (url this1)) eqn:Eurl; cbn [negb].
  - destruct (Js.truthy query) eqn:Equery; cbn [negb fst snd].
    + rewrite Hkit.
      destruct (addDocuments (url this1) (ragToolkit this)) as [added [v|error]]
        eqn:Eadd.
      * destruct (askQuestion query added) as [asked [response|error]]
          eqn:Eask;
          cbn [fst snd url ragToolkit];
          (split; [exact Hurl|]);
          (split; [intros; congruence|]); (split; [intros; congruence|]);
          intros _ _; rewrite Eadd, Eask; now split.
      * cbn [fst snd url ragToolkit].
        split; [exact Hurl|].
        split; [intros; congruence|]. split; [intros; congruence|].
        intros _ _. rewrite Eadd. now split.
    + split; [exact Hurl|].
      split; [intros; congruence|]. split; [|intros; congruence].
      intros _ _. now split.
  - cbn [fst snd]. split; [exact Hurl|].
    split; [|split; intros; congruence]. intros _. now split.
Qed.

End WebsiteSearchFacts.

Lemma websiteSearch_checks_the_url_first_witness :
  let add (source : JsValue) (k : list JsValue) :=
    (source :: k, WebsiteSearch.Fulfilled JsUndefined) in
  let ask (query : JsValue) (k : list JsValue) :=
    (k, WebsiteSearch.Fulfilled (JsStr "answer")) in
  let this := WebsiteSearch.mk (JsStr "https://a.example") ([] : list JsValue) in
  let input := JsObj [("url", JsStr "https://b.example")] in
  Js.nullish input = false
  /\ WebsiteSearch._call (list JsValue) add ask this input
     = (WebsiteSearch.mk (JsStr "https://b.example") [],
        Some (JsStr WebsiteSearch.ERROR_MISSING_QUERY)).
Proof.
  intros add ask this input. split; [reflexivity|].
  destruct (websiteSearch_checks_the_url_first (list JsValue) add ask this
              input eq_refl) as [Hurl [_ [Hquery _]]].
  destruct (Hquery eq_refl eq_refl) as [Hanswer Hkit].
  destruct (WebsiteSearch._call (list JsValue) add ask this input)
    as [[u k] answer].
  cbn [fst snd WebsiteSearch.url WebsiteSearch.ragToolkit] in *.
  now subst.
Defined.

(** ** The statistics of a workflow *)

Section StatsFacts.
Import Workflow.
Variable CostDetails : Type.
Variable calculateTotalWorkflowCost : list (string * ModelUsage) -> CostDetails.
Variable llmModel : Agent.t -> option string.

Local Abbreviation count := (count CostDetails llmModel).
Local Abbreviation count_all := (count_all CostDetails llmModel).
Local Abbreviation getWorkflowStats :=
  (getWorkflowStats CostDetails calculateTotalWorkflowCost llmModel).

Lemma add_call_keys (modelCode k : string) (u : Usage)
    (m : list (string * ModelUsage)) :
  In k (List.map fst (add_call modelCode u m))
  <-> k = modelCode \/ In k (List.map fst m).
Proof.
  induction m as [|[k0 v0] m IH]; cbn.
  - intuition.
  - destruct (String.eqb k0 modelCode) eqn:E; cbn.
    + apply String.eqb_eq in E. subst k0. intuition.
    + rewrite IH. intuition.
Qed.

Lemma add_call_NoDup (modelCode : string) (u : Usage)
    (m : list (string * ModelUsage)) :
  NoDup (List.map fst m) -> NoDup (List.map fst (add_call modelCode u m)).
Proof.
  induction m as [|[k0 v0] m IH]; cbn; intros Hnodup.
  - apply NoDup_singleton.
  - apply NoDup_cons in Hnodup. destruct Hnodup as [Hnotin Hnodup].
    destruct (String.eqb k0 modelCode) eqn:E; cbn.
    + apply NoDup_cons. now split.
    + apply NoDup_cons. split; [|now apply IH].
      rewrite list_elem_of_In, add_call_keys. intros [->|Hin].
      * now rewrite String.eqb_refl in E.
      * apply Hnotin. now apply list_elem_of_In.
Qed.

Lemma add_call_total (modelCode : string) (u : Usage)
    (m : list (string * ModelUsage)) :
  total model_inputTokens (add_call modelCode u m)
  = total model_inputTokens m + usage_inputTokens u
  /\ total model_outputTokens (add_call modelCode u m)
     = total model_outputTokens m + usage_outputTokens u
  /\ total model_callsCount (add_call modelCode u m)
     = total model_callsCount m + 1.
Proof.
  induction m as [|[k0 v0] m [IH1 [IH2 IH3]]]; cbn.
  - lia.
  - destruct (String.eqb k0 modelCode); cbn; unfold total in *; lia.
Qed.

Lemma count_step (startTime : Z) (c c' : counters) (l : log CostDetails) :
  count startTime c l = Some c' -> figures_grow_by [l] startTime c c'.
Proof.
  unfold Workflow.count, figures_grow_by, used, counted, total.
  cbn [fold_right List.filter].
  destruct (bool_decide (logType l = Log.AgentStatusUpdate)
            && (startTime <=? timestamp l)) eqn:C; cbn [andb].
  - clear C. destruct (agentStatus l) as [status|] eqn:S.
    + destruct status;
        try (intros H; injection H as <-; cbn;
             repeat case_bool_decide; try congruence; cbn;
             repeat split; try lia; auto; fail).
      intros H.
      destruct (agent l) as [a|]; [|discriminate H]. cbn in H.
      destruct (llmModel a) as [modelCode|]; [|discriminate H]. cbn in H.
      destruct (usage l) as [u|]; [|discriminate H]. cbn in H.
      injection H as <-.
      destruct (add_call_total modelCode u (modelUsageStats c))
        as [T1 [T2 T3]]. unfold total in T1, T2, T3. cbn.
      repeat case_bool_decide; try congruence; cbn.
      repeat split; try lia. apply add_call_NoDup.
    + intros H; injection H as <-. cbn.
      repeat case_bool_decide; try congruence; cbn.
      repeat split; try lia; auto.
  - intros H; injection H as <-. cbn. repeat split; try lia; auto.
Qed.

Lemma used_cons (startTime : Z) (figure : Usage -> Z) (l : log CostDetails)
    (logs : list (log CostDetails)) :
  used startTime figure (l :: logs)
  = used startTime figure [l] + used startTime figure logs.
Proof. unfold used. cbn [fold_right]. lia. Qed.

Lemma counted_cons (p : log CostDetails -> bool) (l : log CostDetails)
    (logs : list (log CostDetails)) :
  Z.of_nat (length (List.filter p (l :: logs)))
  = Z.of_nat (length (List.filter p [l]))
    + Z.of_nat (length (List.filter p logs)).
Proof. cbn [List.filter]. destruct (p l); cbn [length]; lia. Qed.

Lemma count_all_figures (startTime : Z) (logs : list (log CostDetails)) :
  forall c c',
    count_all startTime c logs = Some c' ->
    figures_grow_by logs startTime c c'.
Proof.
  induction logs as [|l logs IH]; intros c c' H.
  - injection H as <-. unfold figures_grow_by, used. cbn.
    repeat split; try lia; auto.
  - cbn [Workflow.count_all] in H.
    destruct (count startTime c l) as [c1|] eqn:E; [|discriminate H].
    apply count_step in E. apply IH in H.
    unfold figures_grow_by in *.
    rewrite !(used_cons _ _ l logs), !(counted_cons _ l logs).
    destruct E as (N1 & A1 & A2 & A3 & A4 & A5 & A6 & A7 & A8 & A9).
    destruct H as (N2 & B1 & B2 & B3 & B4 & B5 & B6 & B7 & B8 & B9).
    repeat split; try lia. auto.
Qed.

(** X27: the usage figures that [getWorkflowStats] reports. Whenever it
    returns, the totals are those of the AgentStatusUpdate logs whose
    timestamp is at or after the start time: the calls are the logs with
    status THINKING_END, the tokens are the sums of their usage, the call
    errors, the parsing errors and the iterations are the logs with
    status THINKING_ERROR, ISSUES_PARSING_LLM_OUTPUT and ITERATION_END;
    and the table given to the cost calculator has one row for each
    model, whose rows add up to these totals. *)
Theorem getWorkflowStats_totals_add_up
    (now now' : Z) (s : state CostDetails) (st : Stats CostDetails) :
  getWorkflowStats now now' s = Some st ->
  let start := window_start now' (workflowLogs s) in
  let logs := workflowLogs s in
  startTime st = start
  /\ endTime st = now
  /\ callsCount (llmUsageStats st)
     = Z.of_nat (length (List.filter
                           (counted start AGENT_STATUS_enum.THINKING_END) logs))
  /\ inputTokens (llmUsageStats st) = used start usage_inputTokens logs
  /\ outputTokens (llmUsageStats st) = used start usage_outputTokens logs
  /\ callsErrorCount (llmUsageStats st)
     = Z.of_nat (length (List.filter
                           (counted start AGENT_STATUS_enum.THINKING_ERROR)
                           logs))
  /\ parsingErrors (llmUsageStats st)
     = Z.of_nat (length (List.filter
                           (counted start
                              AGENT_STATUS_enum.ISSUES_PARSING_LLM_OUTPUT)
                           logs))
  /\ iterationCount st
     = Z.of_nat (length (List.filter
                           (counted start AGENT_STATUS_enum.ITERATION_END)
                           logs))
  /\ exists modelUsageStats,
       costDetails st = calculateTotalWorkflowCost modelUsageStats
       /\ NoDup (List.map fst modelUsageStats)
       /\ total model_callsCount modelUsageStats
          = callsCount (llmUsageStats st)
       /\ total model_inputTokens modelUsageStats
          = inputTokens (llmUsageStats st)
       /\ total model_outputTokens modelUsageStats
          = outputTokens (llmUsageStats st).
Proof.
  unfold Workflow.getWorkflowStats. intros H. cbv zeta in *.
  apply bind_Some in H. destruct H as [c [Hc H]]. injection H as <-.
  apply count_all_figures in Hc.
  destruct Hc as (N & A1 & A2 & A3 & A4 & A5 & A6 & A7 & A8 & A9).
  cbn in *.
  repeat (split; [try reflexivity; lia|]).
  exists (modelUsageStats c). split; [reflexivity|].
  split; [apply N, NoDup_nil_2|]. unfold total in *. cbn in *. lia.
Qed.

Lemma find_filter {A : Type} (p q : A -> bool) (l : list A) :
  (forall x, p x = true -> q x = true) ->
  List.find p (List.filter q l) = List.find p l.
Proof.
  intros Hpq. induction l as [|x l IH]; [reflexivity|].
  cbn [List.filter List.find].
  destruct (q x) eqn:Hq; cbn [List.find].
  - now rewrite IH.
  - destruct (p x) eqn:Hp; [|exact IH].
    apply Hpq in Hp. congruence.
Qed.

Lemma rev_filter {A : Type} (q : A -> bool) (l : list A) :
  List.rev (List.filter q l) = List.filter q (List.rev l).
Proof.
  induction l as [|x l IH]; [reflexivity|]. cbn [List.filter List.rev].
  rewrite List.filter_app. cbn [List.filter].
  destruct (q x); cbn [List.rev]; rewrite IH; [reflexivity|].
  now rewrite app_nil_r.
Qed.

Lemma count_all_window (startTime : Z) (q : log CostDetails -> bool)
    (logs : list (log CostDetails)) :
  (forall l, q l = false -> (startTime <=? timestamp l) = false) ->
  forall c, count_all startTime c (List.filter q logs)
            = count_all startTime c logs.
Proof.
  intros Hq. induction logs as [|l logs IH]; intros c; [reflexivity|].
  cbn [List.filter Workflow.count_all].
  destruct (q l) eqn:E; cbn [Workflow.count_all].
  - destruct (count startTime c l); [apply IH | reflexivity].
  - unfold Workflow.count. rewrite (Hq l E), andb_false_r. apply IH.
Qed.

(** X28: the time window of [getWorkflowStats]. The window starts at the
    timestamp of the last log of type WorkflowStatusUpdate with status
    RUNNING, or at the clock when there is none; a log with an earlier
    timestamp counts for nothing: taking out of the store every such log
    that is not a RUNNING update changes neither the statistics nor
    whether the function throws. *)
Theorem getWorkflowStats_ignores_logs_before_the_window
    (now now' : Z) (s : state CostDetails) :
  let start := window_start now' (workflowLogs s) in
  let in_window l := is_running_update l || (start <=? timestamp l) in
  getWorkflowStats now now'
    (with_logs (List.filter in_window (workflowLogs s)) s)
  = getWorkflowStats now now' s
  /\ (forall before running after,
        workflowLogs s = before ++ running :: after ->
        is_running_update running = true ->
        Forall (fun l => is_running_update l = false) after ->
        start = timestamp running)
  /\ (Forall (fun l => is_running_update l = false) (workflowLogs s) ->
      start = now').
Proof.
  cbv zeta. split; [|split].
  - unfold Workflow.getWorkflowStats, with_logs.
    cbn [workflowLogs tasks agents name].
    assert (Hstart : window_start now'
                       (List.filter
                          (fun l => is_running_update l
                                    || (window_start now' (workflowLogs s)
                                        <=? timestamp l))
                          (workflowLogs s))
                     = window_start now' (workflowLogs s)).
    { unfold window_start at 1 3. rewrite rev_filter, find_filter;
        [reflexivity|]. intros x Hx. now rewrite Hx. }
    rewrite Hstart, count_all_window; [reflexivity|].
    intros l Hl. apply orb_false_iff in Hl. tauto.
  - intros before running after Hlogs Hrunning Hafter.
    unfold window_start. rewrite Hlogs, List.rev_app_distr. cbn [List.rev].
    rewrite <- app_assoc. cbn [app].
    rewrite (find_first is_running_update (List.rev after) (List.rev before)
                        running); [reflexivity| |exact Hrunning].
    apply List.Forall_forall. intros l Hl. apply List.in_rev in Hl.
    rewrite Forall_forall in Hafter. apply Hafter. now apply list_elem_of_In.
  - intros Hnone. unfold window_start.
    replace (List.find is_running_update (List.rev (workflowLogs s)))
      with (@None (log CostDetails)); [reflexivity|].
    symmetry. apply find_none_iff. apply List.Forall_forall. intros l Hl.
    apply List.in_rev in Hl.
    rewrite Forall_forall in Hnone. apply Hnone. now apply list_elem_of_In.
Qed.

Lemma last_task (before : list Task.t) (final : Task.t) :
  at_index (before ++ [final]) (Z.of_nat (length (before ++ [final])) - 1)
  = Some final.
Proof.
  unfold at_index. rewrite length_app. cbn [length].
  replace (Z.of_nat (length before + 1) - 1 <? 0) with false
    by (symmetry; apply Z.ltb_ge; lia).
  replace (Z.to_nat (Z.of_nat (length before + 1) - 1)) with (length before)
    by lia.
  rewrite List.nth_error_app2 by lia. now rewrite Nat.sub_diag.
Qed.

Local Abbreviation finishWorkflowAction :=
  (finishWorkflowAction CostDetails calculateTotalWorkflowCost llmModel).
Local Abbreviation handleWorkflowError :=
  (handleWorkflowError CostDetails calculateTotalWorkflowCost llmModel).
Local Abbreviation handleWorkflowBlocked :=
  (handleWorkflowBlocked CostDetails calculateTotalWorkflowCost llmModel).
Local Abbreviation handleWorkflowAborted :=
  (handleWorkflowAborted CostDetails calculateTotalWorkflowCost llmModel).

(** X29: the result of a finished workflow. [finishWorkflowAction] throws
    on a store without tasks and where [getWorkflowStats] throws;
    otherwise it marks the workflow FINISHED, appends one FINISHED log
    with the result and the statistics, and sets [workflowResult] to the
    result of the last task that is flagged [isDeliverable], or, when no
    task is flagged, to the result of the last task. *)
Theorem finishWorkflowAction_takes_the_last_deliverable
    (now now' t : Z) (s : state CostDetails) :
  (tasks s = [] -> finishWorkflowAction now now' t s = None)
  /\ (getWorkflowStats now now' s = None ->
      finishWorkflowAction now now' t s = None)
  /\ forall st before final,
       getWorkflowStats now now' s = Some st ->
       tasks s = before ++ [final] ->
       exists result,
         finishWorkflowAction now now' t s
         = Some (mkState WORKFLOW_STATUS_enum.FINISHED result (name s)
                   (agents s) (tasks s)
                   (workflowLogs s
                      ++ [mkLog None None t
                            ("Workflow finished with result: "
                               +:+ Js.to_string result)
                            (Some WORKFLOW_STATUS_enum.FINISHED)
                            Log.WorkflowStatusUpdate None None
                            (Some result) None (Some st)]))
         /\ (forall pre deliverable post,
               tasks s = pre ++ deliverable :: post ->
               Task.isDeliverable deliverable = true ->
               Forall (fun k => Task.isDeliverable k = false) post ->
               result = Task.result deliverable)
         /\ (Forall (fun k => Task.isDeliverable k = false) (tasks s) ->
             result = Task.result final).
Proof.
  split; [|split].
  - intros Hnone. unfold Workflow.finishWorkflowAction.
    destruct (getWorkflowStats now now' s); [|reflexivity].
    cbn. now rewrite Hnone.
  - intros Hnone. unfold Workflow.finishWorkflowAction. now rewrite Hnone.
  - intros st before final Hst Htasks.
    unfold Workflow.finishWorkflowAction. rewrite Hst. cbn [mbind option_bind].
    assert (Hlast : at_index (tasks s) (Z.of_nat (length (tasks s)) - 1)
                    = Some final) by (rewrite Htasks; apply last_task).
    rewrite Hlast. cbn [mbind option_bind].
    eexists. split; [reflexivity|]. split.
    + intros pre deliverable post Hsplit Hd Hpost.
      rewrite Hsplit, List.rev_app_distr. cbn [List.rev].
      rewrite <- app_assoc. cbn [app].
      rewrite (find_first Task.isDeliverable (List.rev post) (List.rev pre)
                          deliverable); [reflexivity| |exact Hd].
      apply List.Forall_forall. intros k Hk. apply List.in_rev in Hk.
      rewrite Forall_forall in Hpost. apply Hpost. now apply list_elem_of_In.
    + intros Hnone.
      replace (List.find Task.isDeliverable (List.rev (tasks s)))
        with (@None Task.t); [reflexivity|].
      symmetry. apply find_none_iff. apply List.Forall_forall. intros k Hk.
      apply List.in_rev in Hk.
      rewrite Forall_forall in Hnone. apply Hnone. now apply list_elem_of_In.
Qed.

Lemma window_start_app (now' : Z) (logs : list (log CostDetails))
    (l : log CostDetails) :
  is_running_update l = false ->
  window_start now' (logs ++ [l]) = window_start now' logs.
Proof.
  intros Hl. unfold window_start. rewrite List.rev_app_distr.
  cbn [List.rev app List.find]. now rewrite Hl.
Qed.

Lemma count_all_app (startTime : Z) (logs : list (log CostDetails))
    (l : log CostDetails) :
  logType l <> Log.AgentStatusUpdate ->
  forall c, count_all startTime c (logs ++ [l]) = count_all startTime c logs.
Proof.
  intros Hl. induction logs as [|x logs IH]; intros c.
  - cbn [app Workflow.count_all]. unfold Workflow.count.
    now rewrite bool_decide_eq_false_2.
  - cbn [app Workflow.count_all].
    destruct (count startTime c x); [apply IH | reflexivity].
Qed.

(** The statistics of a state to which a workflow log that is not a
    RUNNING update was appended. *)
Lemma getWorkflowStats_after_status_log
    (status : WORKFLOW_STATUS_enum.t) (result : JsValue)
    (l : log CostDetails) (s : state CostDetails) (n n' : Z) :
  logType l = Log.WorkflowStatusUpdate ->
  workflowStatus l <> Some WORKFLOW_STATUS_enum.RUNNING ->
  getWorkflowStats n n'
    (mkState status result (name s) (agents s) (tasks s)
             (workflowLogs s ++ [l]))
  = getWorkflowStats n n' s.
Proof.
  intros Htype Hstatus. unfold Workflow.getWorkflowStats.
  cbn [workflowLogs tasks agents name].
  rewrite window_start_app, count_all_app; [reflexivity| |].
  - rewrite Htype. discriminate.
  - unfold is_running_update. apply andb_false_iff. right.
    now apply bool_decide_eq_false.
Qed.

(** X30: ending a workflow leaves its statistics alone. Each of
    [finishWorkflowAction], [handleWorkflowError], [handleWorkflowBlocked]
    and [handleWorkflowAborted], when it returns, sets the workflow
    status (FINISHED, ERRORED, BLOCKED, and STOPPED for an abort), keeps
    the tasks and the agents, and appends one WorkflowStatusUpdate log
    with that status; as the log is no RUNNING update and no agent log,
    [getWorkflowStats] returns afterwards what it returned before, for
    the same clock. *)
Theorem ending_a_workflow_keeps_its_statistics
    (now now' t : Z) (task : Task.t) (error : JsValue)
    (s s' : state CostDetails) :
  let ended status :=
    teamWorkflowStatus s' = status
    /\ tasks s' = tasks s
    /\ agents s' = agents s
    /\ (exists l,
          workflowLogs s' = workflowLogs s ++ [l]
          /\ logType l = Log.WorkflowStatusUpdate
          /\ workflowStatus l = Some status
          /\ timestamp l = t
          /\ stats l = getWorkflowStats now now' s)
    /\ forall n n', getWorkflowStats n n' s' = getWorkflowStats n n' s in
  (finishWorkflowAction now now' t s = Some s' ->
   ended WORKFLOW_STATUS_enum.FINISHED)
  /\ (handleWorkflowError now now' t task error s = Some s' ->
      ended WORKFLOW_STATUS_enum.ERRORED
      /\ workflowResult s' = workflowResult s)
  /\ (handleWorkflowBlocked now now' t task error s = Some s' ->
      ended WORKFLOW_STATUS_enum.BLOCKED
      /\ workflowResult s' = workflowResult s)
  /\ (handleWorkflowAborted now now' t task error s = Some s' ->
      ended WORKFLOW_STATUS_enum.STOPPED
      /\ workflowResult s' = workflowResult s).
Proof.
  cbv zeta.
  assert (Hfail : forall status description reported,
            status <> WORKFLOW_STATUS_enum.RUNNING ->
            fail_with CostDetails calculateTotalWorkflowCost llmModel
                      status description reported now now' t task error s
            = Some s' ->
            (teamWorkflowStatus s' = status
             /\ tasks s' = tasks s
             /\ agents s' = agents s
             /\ (exists l,
                   workflowLogs s' = workflowLogs s ++ [l]
                   /\ logType l = Log.WorkflowStatusUpdate
                   /\ workflowStatus l = Some status
                   /\ timestamp l = t
                   /\ stats l = getWorkflowStats now now' s)
             /\ forall n n', getWorkflowStats n n' s'
                             = getWorkflowStats n n' s)
            /\ workflowResult s' = workflowResult s).
  { intros status description reported Hstatus H. unfold fail_with in H.
    destruct (Js.nullish error); [discriminate H|].
    destruct (getWorkflowStats now now' s) as [st|] eqn:Hst;
      [|discriminate H].
    cbn [mbind option_bind] in H. injection H as <-.
    cbn [teamWorkflowStatus tasks agents workflowLogs workflowResult].
    split; [|reflexivity]. repeat split.
    - eexists. split; [reflexivity|]. repeat split.
    - intros n n'. apply getWorkflowStats_after_status_log; [reflexivity|].
      cbn. congruence. }
  split; [|split; [|split]].
  - intros H. unfold Workflow.finishWorkflowAction in H.
    destruct (getWorkflowStats now now' s) as [st|] eqn:Hst;
      [|discriminate H].
    cbn [mbind option_bind] in H.
    destruct (at_index (tasks s) (Z.of_nat (length (tasks s)) - 1))
      as [lastTask|]; [|discriminate H].
    cbn [mbind option_bind] in H. injection H as <-.
    cbn [teamWorkflowStatus tasks agents workflowLogs]. repeat split.
    + eexists. split; [reflexivity|]. repeat split.
    + intros n n'. apply getWorkflowStats_after_status_log; [reflexivity|].
      cbn. discriminate.
  - apply Hfail. discriminate.
  - apply Hfail. discriminate.
  - apply Hfail. discriminate.
Qed.

End StatsFacts.

Lemma getWorkflowStats_ignores_logs_before_the_window_witness :
  let running (time : Z) : Workflow.log unit :=
    Workflow.mkLog None None time "" (Some WORKFLOW_STATUS_enum.RUNNING)
                   Log.WorkflowStatusUpdate None None None None None in
  let finished (time : Z) : Workflow.log unit :=
    Workflow.mkLog None None time "" (Some WORKFLOW_STATUS_enum.FINISHED)
                   Log.WorkflowStatusUpdate None None None None None in
  let s :=
    Workflow.mkState WORKFLOW_STATUS_enum.FINISHED JsNull "team" [] []
                     [running 1; finished 3; running 5; finished 9] in
  Workflow.is_running_update (running 5) = true
  /\ Forall (fun l => Workflow.is_running_update l = false) [finished 9]
  /\ Workflow.window_start 30 (Workflow.workflowLogs s) = 5.
Proof.
  intros running finished s.
  assert (Hafter : Forall (fun l => Workflow.is_running_update l = false)
                          [finished 9]) by (now repeat constructor).
  split; [reflexivity|]. split; [exact Hafter|].
  exact (proj1 (proj2 (getWorkflowStats_ignores_logs_before_the_window
                         unit (fun _ => tt) (fun _ => None) 20 30 s))
               [running 1; finished 3] (running 5) [finished 9]
               eq_refl eq_refl Hafter).
Defined.

Lemma ending_a_workflow_keeps_its_statistics_witness :
  let task := sample_task "t1" TASK_STATUS_enum.DOING in
  let error := JsObj [("message", JsStr "stopped by the user")] in
  let s :=
    Workflow.mkState WORKFLOW_STATUS_enum.RUNNING JsNull "team" [] [task]
                     ([] : list (Workflow.log unit)) in
  exists s',
    Workflow.handleWorkflowAborted unit (fun _ => tt) (fun _ => None)
                                   20 30 40 task error s = Some s'
    /\ Workflow.teamWorkflowStatus s' = WORKFLOW_STATUS_enum.STOPPED
    /\ Workflow.getWorkflowStats unit (fun _ => tt) (fun _ => None) 50 60 s'
       = Workflow.getWorkflowStats unit (fun _ => tt) (fun _ => None) 50 60 s.
Proof.
  intros task error s.
  destruct (Workflow.handleWorkflowAborted unit (fun _ => tt) (fun _ => None)
              20 30 40 task error s) as [s'|] eqn:E; [|discriminate E].
  destruct (proj2 (proj2 (proj2
              (ending_a_workflow_keeps_its_statistics
                 unit (fun _ => tt) (fun _ => None) 20 30 40 task error s s')))
              E) as [[Hstatus [_ [_ [_ Hstats]]]] _].
  exists s'. split; [reflexivity|]. split; [exact Hstatus|].
  exact (Hstats 50 60).
Defined.

Lemma getWorkflowStats_totals_add_up_witness :
  let ada := sample_agent "agent-1" "Ada" in
  let agent_log (time : Z) (status : AGENT_STATUS_enum.t)
        (usage : option Workflow.Usage) : Workflow.log unit :=
    Workflow.mkLog None (Some ada) time "" None Log.AgentStatusUpdate
                   (Some status) usage None None None in
  let running (time : Z) : Workflow.log unit :=
    Workflow.mkLog None None time "" (Some WORKFLOW_STATUS_enum.RUNNING)
                   Log.WorkflowStatusUpdate None None None None None in
  let s :=
    Workflow.mkState WORKFLOW_STATUS_enum.RUNNING JsNull "team" [ada] []
      [agent_log 1 AGENT_STATUS_enum.THINKING_END
         (Some (Workflow.mkUsage 100 10));
       running 5;
       agent_log 6 AGENT_STATUS_enum.THINKING_END
         (Some (Workflow.mkUsage 7 3));
       agent_log 7 AGENT_STATUS_enum.ITERATION_END None;
       agent_log 8 AGENT_STATUS_enum.THINKING_END
         (Some (Workflow.mkUsage 8 4))] in
  exists st,
    Workflow.getWorkflowStats unit (fun _ => tt) (fun _ => Some "model")
                              20 30 s = Some st
    /\ Workflow.startTime st = 5
    /\ Workflow.callsCount (Workflow.llmUsageStats st) = 2
    /\ Workflow.inputTokens (Workflow.llmUsageStats st) = 15
    /\ Workflow.iterationCount st = 1.
Proof.
  intros ada agent_log running s.
  destruct (Workflow.getWorkflowStats unit (fun _ => tt)
              (fun _ => Some "model") 20 30 s) as [st|] eqn:E;
    [|discriminate E].
  destruct (getWorkflowStats_totals_add_up unit (fun _ => tt)
              (fun _ => Some "model") 20 30 s st E)
    as [H1 [_ [H3 [H4 [_ [_ [_ [H8 _]]]]]]]].
  exists st. split; [reflexivity|].
  split; [exact H1|]. split; [exact H3|]. split; [exact H4 | exact H8].
Defined.

Lemma finishWorkflowAction_takes_the_last_deliverable_witness :
  let deliverable (i : string) (flag : bool) (result : JsValue) :=
    Task.mk i ("describe " +:+ i) TASK_STATUS_enum.DONE None None flag result
            (Some []) JsUndefined None in
  let s :=
    Workflow.mkState WORKFLOW_STATUS_enum.RUNNING JsNull "team" []
      [deliverable "t1" true (JsStr "one");
       deliverable "t2" true (JsStr "two");
       deliverable "t3" false (JsStr "three")]
      ([] : list (Workflow.log unit)) in
  exists s',
    Workflow.finishWorkflowAction unit (fun _ => tt) (fun _ => None) 20 30 40 s
    = Some s'
    /\ Workflow.workflowResult s' = JsStr "two"
    /\ Workflow.teamWorkflowStatus s' = WORKFLOW_STATUS_enum.FINISHED.
Proof.
  intros deliverable s.
  destruct (Workflow.getWorkflowStats unit (fun _ => tt) (fun _ => None)
              20 30 s) as [st|] eqn:Hst; [|discriminate Hst].
  destruct (proj2 (proj2 (finishWorkflowAction_takes_the_last_deliverable
                            unit (fun _ => tt) (fun _ => None) 20 30 40 s))
              st [deliverable "t1" true (JsStr "one");
                  deliverable "t2" true (JsStr "two")]
              (deliverable "t3" false (JsStr "three")) Hst eq_refl)
    as [result [Hfinish [Hlast _]]].
  assert (Hresult : result = JsStr "two").
  { apply (Hlast [deliverable "t1" true (JsStr "one")]
                 (deliverable "t2" true (JsStr "two"))
                 [deliverable "t3" false (JsStr "three")]);
      [reflexivity | reflexivity | now repeat constructor]. }
  eexists. split; [exact Hfinish|]. now split.
Defined.
